(** * Ear-itation Station: the job orchestration engine

    A shallow embedding of the video-generation pipeline of
    [ai_video_generator.py] (class [AIVideoGenerator]), of the job
    registry, the background task and the handlers of [main.py], and of
    the waiting loop of the client of [cli.py], followed by the properties
    of the pollers, of the pipeline, of the registry, of the stored files
    and of the client.

    Conventions of the embedding.
    - A Python [str] is a [string]; a character stands for a code point
      below 256.
    - The values that travel through the pipeline come out of
      [response.json()], so they are JSON values ([pyval]); Python's [None]
      is [PNone].  JSON numbers are restricted to integers.
    - Every call that leaves the process ([requests.get], [requests.post],
      the chat completion) is answered by an oracle stored in the [world];
      the oracle sees the ordinal of the call and the request itself.
    - [time.time()] is a clock counted in whole seconds; a remote call takes
      the latency the oracle announces, [time.sleep d] takes [d].
    - Exceptions are values of [exn]; the source raises bare [Exception]s
      that differ by their message only, and [exn] has one constructor per
      message template.
    - Logging and printing are left out. *)

From Stdlib Require Import ZArith ZifyBool Ascii String DecimalString DecimalNat.
From stdpp Require Import gmap strings list fin_maps.

Set Warnings "-register-all".

Local Open Scope string_scope.
Local Open Scope Z_scope.

(** ** Python values *)

Inductive pyval : Type :=
| PNone
| PBool (b : bool)
| PInt (z : Z)
| PStr (s : string)
| PList (l : list pyval)
| PDict (kvs : list (string * pyval)).

(** Truth value of an object ([if x:], [any(xs)]). *)
Definition truthy (v : pyval) : bool :=
  match v with
  | PNone => false
  | PBool b => b
  | PInt z => negb (z =? 0)
  | PStr s => negb (String.eqb s "")
  | PList l => match l with [] => false | _ => true end
  | PDict kvs => match kvs with [] => false | _ => true end
  end.

(** [v == 'lit'] for a string literal. *)
Definition eq_str (v : pyval) (lit : string) : bool :=
  match v with
  | PStr s => String.eqb s lit
  | _ => false
  end.

(** [v in ['a', 'b', ...]] for a list of string literals. *)
Definition in_strs (v : pyval) (lits : list string) : bool :=
  existsb (eq_str v) lits.

Fixpoint assoc (k : string) (kvs : list (string * pyval)) : option pyval :=
  match kvs with
  | [] => None
  | (k', v) :: rest => if String.eqb k k' then Some v else assoc k rest
  end.

(** ** Exceptions *)

Inductive exn : Type :=
| RequestException            (* requests.exceptions.RequestException and subclasses *)
| JSONDecodeError             (* response.json() on a body that is not JSON *)
| KeyError (k : string)
| IndexError
| TypeError
| AttributeError
| GenerationFailed (item_name : string) (error_msg : pyval)
    (* Exception(f"{item_name} generation failed: {error_msg}") *)
| TimedOut (item_name : string) (max_wait_time : Z)
    (* Exception(f"{item_name} generation timed out after {max_wait_time} seconds") *)
| BadRequest (item_name : string)
    (* Exception(f"Bad request for {item_name}: {response.text}") *)
| NoVideoUrl (item_name : string)
    (* Exception(f"Could not find video URL in result/response for {item_name}") *)
| ChatError                   (* any error of the chat-completion client *)
| OSError                     (* a file could not be written *)
| OutOfFuel.                  (* no Python exception: a loop of the model ran out of
                                 steps; the pollers are proved never to raise it *)

Inductive result (A : Type) : Type :=
| Ok (a : A)
| Raise (e : exn).
Arguments Ok {A} a.
Arguments Raise {A} e.

(** [d.get(k, default)]: only a dict has [get]. *)
Definition py_get (d : pyval) (k : string) (default : pyval) : result pyval :=
  match d with
  | PDict kvs => Ok (match assoc k kvs with Some v => v | None => default end)
  | _ => Raise AttributeError
  end.

(** [d[k]] for a string key. *)
Definition py_item (d : pyval) (k : string) : result pyval :=
  match d with
  | PDict kvs => match assoc k kvs with Some v => Ok v | None => Raise (KeyError k) end
  | _ => Raise TypeError
  end.

(** [l[0]]: first element of a list, first character of a string. *)
Definition py_item0 (l : pyval) : result pyval :=
  match l with
  | PList (x :: _) => Ok x
  | PList [] => Raise IndexError
  | PStr (String c _) => Ok (PStr (String c ""))
  | PStr "" => Raise IndexError
  | PDict kvs => Raise (KeyError "0")
  | _ => Raise TypeError
  end.

(** [needle in hay] for two strings: substring test. *)
Fixpoint is_infix (needle hay : string) : bool :=
  String.prefix needle hay ||
  match hay with
  | "" => false
  | String _ rest => is_infix needle rest
  end.

(** ['lit' in v]. *)
Definition py_contains (lit : string) (v : pyval) : result bool :=
  match v with
  | PDict kvs => Ok (match assoc lit kvs with Some _ => true | None => false end)
  | PStr s => Ok (is_infix lit s)
  | PList l => Ok (existsb (fun x => eq_str x lit) l)
  | _ => Raise TypeError
  end.

(** ** String methods *)

(** [str.isspace] on one character (code points below 256). *)
Definition is_space (c : ascii) : bool :=
  let n := nat_of_ascii c in
  (((9 <=? n) && (n <=? 13)) || ((28 <=? n) && (n <=? 32)) ||
   (n =? 133) || (n =? 160))%nat.

Fixpoint drop_while (p : ascii -> bool) (s : string) : string :=
  match s with
  | "" => ""
  | String c rest => if p c then drop_while p rest else s
  end.

Definition drop_while_end (p : ascii -> bool) (s : string) : string :=
  String.rev (drop_while p (String.rev s)).

(** [s.strip()] and [s.strip(chars)]. *)
Definition strip_by (p : ascii -> bool) (s : string) : string :=
  drop_while_end p (drop_while p s).
Definition strip (s : string) : string := strip_by is_space s.
Definition strip_quote (s : string) : string :=
  strip_by (fun c => Ascii.eqb c "034"%char) s.

Definition startswith (s p : string) : bool := String.prefix p s.
Definition endswith (s p : string) : bool :=
  String.prefix (String.rev p) (String.rev s).

(** [s[n:]] and [s[:-n]] for a literal [n > 0]. *)
Definition drop_first (n : nat) (s : string) : string :=
  String.substring n (String.length s - n) s.
Definition drop_last (n : nat) (s : string) : string :=
  String.substring 0 (String.length s - n) s.

(** [s.split(sep)] for a one-character separator: never the empty list. *)
Fixpoint split_char (sep : ascii) (s : string) : list string :=
  match s with
  | "" => [""]
  | String c rest =>
      if Ascii.eqb c sep then "" :: split_char sep rest
      else match split_char sep rest with
           | [] => [String c ""]
           | h :: t => String c h :: t
           end
  end.

(** [s.split(sep, 1)[1]]: what follows the first separator. *)
Fixpoint after_first (sep : ascii) (s : string) : result string :=
  match s with
  | "" => Raise IndexError
  | String c rest => if Ascii.eqb c sep then Ok rest else after_first sep rest
  end.

(** [str(n)] for a natural number. *)
Definition str_nat (n : nat) : string :=
  NilZero.string_of_uint (Nat.to_uint n).

(** ** The world outside the process *)

Inductive request : Type :=
| Get (url : string)
| Post (url : string) (payload : pyval)
| Chat (system_prompt user_prompt : string)
| Download (url : string)      (* requests.get(url, stream=True) *)
| SaveVideo (path : string)    (* the streamed body written to a file *)
| WriteFile (path : string) (content : pyval).   (* json.dumps(content) written *)

(** An HTTP response: [status_code] and the value of [response.json()]
    ([None] when the body is not JSON). *)
Record response : Type := { status_code : Z; body : option pyval }.

Inductive reply : Type :=
| Failure                   (* the call itself raised *)
| Response (r : response)   (* an HTTP response came back *)
| Completion (content : string)   (* the chat completion's message content *)
| Written.                  (* the file was written *)

(** The fields of one job record that the background task writes. *)
Inductive progress : Type :=
| Text (s : string)
| GenerationFailedText (e : exn).    (* f"Generation failed: {str(e)}" *)

Record result_info : Type := {
  video_id : string;
  filename : string;
  result_idea : pyval;
  result_caption : pyval;
  result_final_video_url : pyval;
  download_url : string
}.

Inductive write : Type :=
| SetStatus (s : string)
| SetProgress (p : progress)
| SetResult (r : result_info)
| SetError (e : exn).                (* str(e) *)

Inductive event : Type :=
| ECall (r : request)
| ESleep (d : Z)
| EWrite (job_id : string) (w : write).

Record world : Type := {
  (* answers of the outside: latency and reply of the n-th call *)
  oracle : nat -> request -> N * reply;
  (* library functions taken as given *)
  json_loads : string -> option pyval;
  py_repr : pyval -> string;
  strftime : Z -> string;               (* '%Y%m%d_%H%M%S' *)
  isoformat : Z -> string;
  (* requests >= 2.27 raises a JSONDecodeError that is a RequestException *)
  json_error_is_request_exception : bool;
  (* AIVideoGenerator() raises when the chat client cannot be built *)
  client_init_fails : bool;
  (* the state *)
  now : Z;
  calls : nat;
  trace : list event
}.

Definition set_state (w : world) (t : Z) (n : nat) (tr : list event) : world :=
  {| oracle := oracle w; json_loads := json_loads w; py_repr := py_repr w;
     strftime := strftime w; isoformat := isoformat w;
     json_error_is_request_exception := json_error_is_request_exception w;
     client_init_fails := client_init_fails w;
     now := t; calls := n; trace := tr |}.

(** ** A state and exception monad *)

Definition M (A : Type) : Type := world -> result A * world.

Definition ret {A} (a : A) : M A := fun w => (Ok a, w).
Definition raise {A} (e : exn) : M A := fun w => (Raise e, w).
Definition bind {A B} (c : M A) (k : A -> M B) : M B :=
  fun w => match c w with
           | (Ok a, w') => k a w'
           | (Raise e, w') => (Raise e, w')
           end.
Definition lift {A} (r : result A) : M A := fun w => (r, w).

Notation "x <- c ;; k" := (bind c (fun x => k))
  (at level 100, c at next level, right associativity).
Notation "c ;;; k" := (bind c (fun _ => k))
  (at level 100, k at level 200, right associativity).

(** [try: c  except <class>: h], the class given as a predicate that may
    read the world. *)
Definition try_except {A} (c : M A) (catches : world -> exn -> bool) (h : exn -> M A) : M A :=
  fun w => match c w with
           | (Ok a, w') => (Ok a, w')
           | (Raise e, w') => if catches w' e then h e w' else (Raise e, w')
           end.

Definition get_world : M world := fun w => (Ok w, w).
Definition emit (e : event) : M unit :=
  fun w => (Ok tt, set_state w (now w) (calls w) (trace w ++ [e])).

(** [time.time()] and [time.sleep(d)]. *)
Definition time : M Z := fun w => (Ok (now w), w).
Definition sleep (d : Z) : M unit :=
  fun w => (Ok tt, set_state w (now w + d) (calls w) (trace w ++ [ESleep d])).

(** One call to the outside. *)
Definition call (r : request) : M reply :=
  fun w => let '(latency, a) := oracle w (calls w) r in
           (Ok a, set_state w (now w + Z.of_N latency) (S (calls w)) (trace w ++ [ECall r])).

(** [str(v)] as used by f-strings; a string formats as itself. *)
Definition py_str (w : world) (v : pyval) : string :=
  match v with
  | PStr s => s
  | _ => py_repr w v
  end.

(** [isinstance(e, requests.exceptions.RequestException)]. *)
Definition is_request_exception (w : world) (e : exn) : bool :=
  match e with
  | RequestException => true
  | JSONDecodeError => json_error_is_request_exception w
  | _ => false
  end.

(** [except Exception] and the bare [except:]. *)
Definition any_exception (w : world) (e : exn) : bool := true.

(** [requests.get(url, headers=headers)]. *)
Definition requests_get (url : string) : M response :=
  a <- call (Get url) ;;
  match a with
  | Response r => ret r
  | _ => raise RequestException
  end.

(** [requests.post(url, json=payload, headers=headers)]. *)
Definition requests_post (url : string) (payload : pyval) : M response :=
  a <- call (Post url payload) ;;
  match a with
  | Response r => ret r
  | _ => raise RequestException
  end.

(** [response.raise_for_status()]. *)
Definition raise_for_status (r : response) : M unit :=
  if (400 <=? status_code r) && (status_code r <? 600)
  then raise RequestException else ret tt.

(** [response.json()]. *)
Definition response_json (r : response) : M pyval :=
  match body r with
  | Some v => ret v
  | None => raise JSONDecodeError
  end.

(** ** The pollers *)

(** What one turn of a polling loop does: [return] a value, or go on to the
    next turn with a poll interval. *)
Inductive turn : Type :=
| Return (v : pyval)
| Next (poll_interval : Z).

(** [while time.time() - start_time < max_wait_time: <body>] followed by the
    [raise Exception(... timed out ...)] after the loop. *)
Fixpoint poll_loop (fuel : nat) (body : Z -> M turn) (item_name : string)
    (start_time max_wait_time poll_interval : Z) : M pyval :=
  match fuel with
  | O => raise OutOfFuel
  | S fuel' =>
      t <- time ;;
      if t - start_time <? max_wait_time then
        r <- body poll_interval ;;
        match r with
        | Return v => ret v
        | Next poll_interval' =>
            poll_loop fuel' body item_name start_time max_wait_time poll_interval'
        end
      else raise (TimedOut item_name max_wait_time)
  end.

(** Every turn that does not leave the loop sleeps at least five seconds, so
    one step per second of [max_wait_time] is enough. *)
Definition poll_fuel (max_wait_time : Z) : nat := S (Z.to_nat max_wait_time).

Definition wavespeed_result_url (prediction_id : string) : string :=
  "https://api.wavespeed.ai/api/v3/predictions/" ++ prediction_id ++ "/result".

(** "Check different possible status locations": the flat field, and when
    it is missing or ['unknown'] the one nested under ['data']. *)
Definition wavespeed_status (result_data : pyval) : result pyval :=
  match py_get result_data "status" (PStr "unknown") with
  | Ok status =>
      if eq_str status "unknown" then
        match py_get result_data "data" (PDict []) with
        | Ok data => py_get data "status" (PStr "unknown")
        | Raise e => Raise e
        end
      else Ok status
  | Raise e => Raise e
  end.

(** The body of the loop of [_poll_wavespeed_completion]. *)
Definition wavespeed_turn (result_url item_name : string) (poll_interval : Z) : M turn :=
  try_except
    (response <- requests_get result_url ;;
     raise_for_status response ;;;
     result_data <- response_json response ;;
     status <- lift (wavespeed_status result_data) ;;
     if in_strs status ["succeeded"; "completed"] then
       data <- lift (py_item result_data "data") ;;
       outputs <- lift (py_item data "outputs") ;;
       v <- lift (py_item0 outputs) ;;
       ret (Return v)
     else if eq_str status "failed" then
       error_msg <- lift (py_get result_data "error" (PStr "Unknown error")) ;;
       raise (GenerationFailed item_name error_msg)
     else if in_strs status ["starting"; "processing"; "pending"; "running"] then
       sleep poll_interval ;;;
       ret (Next (Z.min (poll_interval + 2) 15))
     else
       sleep poll_interval ;;;
       ret (Next poll_interval))
    is_request_exception
    (fun _ => sleep poll_interval ;;; ret (Next poll_interval)).

Definition _poll_wavespeed_completion (prediction_id item_name : string)
    (max_wait_time : Z) : M pyval :=
  let result_url := wavespeed_result_url prediction_id in
  start_time <- time ;;
  poll_loop (poll_fuel max_wait_time) (wavespeed_turn result_url item_name)
    item_name start_time max_wait_time 5.

Definition fal_status_url (request_id : string) : string :=
  "https://queue.fal.run/fal-ai/mmaudio-v2/requests/" ++ request_id ++ "/status".

(** The chain of [if]/[elif] that looks for the video URL in a payload. *)
Definition find_video_url (item_name : string) (c : pyval) : M pyval :=
  has_video <- lift (py_contains "video" c) ;;
  c1 <- (if has_video : bool
         then video <- lift (py_item c "video") ;; lift (py_contains "url" video)
         else ret false) ;;
  if c1 : bool then
    video <- lift (py_item c "video") ;; lift (py_item video "url")
  else
    c2 <- lift (py_contains "video_url" c) ;;
    if c2 : bool then lift (py_item c "video_url")
    else
      has_output <- lift (py_contains "output" c) ;;
      c3 <- (if has_output : bool
             then output <- lift (py_item c "output") ;; lift (py_contains "video" output)
             else ret false) ;;
      if c3 : bool then
        output <- lift (py_item c "output") ;;
        video <- lift (py_item output "video") ;;
        lift (py_item video "url")
      else raise (NoVideoUrl item_name).

(** The body of the loop of [_poll_fal_completion]. *)
Definition fal_turn (status_url item_name : string) (poll_interval : Z) : M turn :=
  try_except
    (response <- requests_get status_url ;;
     if status_code response =? 400 then
       try_except
         (error_data <- response_json response ;;
          detail <- lift (py_get error_data "detail" (PStr "")) ;;
          in_progress <- lift (py_contains "Request is still in progress" detail) ;;
          if in_progress : bool then
            sleep poll_interval ;;;
            ret (Next (Z.min (poll_interval + 2) 15))
          else raise (BadRequest item_name))
         any_exception
         (fun _ => raise (BadRequest item_name))
     else
       raise_for_status response ;;;
       result_data <- response_json response ;;
       status <- lift (py_get result_data "status" (PStr "unknown")) ;;
       if in_strs status ["completed"; "COMPLETED"] then
         has_url <- lift (py_contains "response_url" result_data) ;;
         if has_url : bool then
           response_url <- lift (py_item result_data "response_url") ;;
           w <- get_world ;;
           result_response <- requests_get (py_str w response_url) ;;
           raise_for_status result_response ;;;
           result_content <- response_json result_response ;;
           v <- find_video_url item_name result_content ;;
           ret (Return v)
         else
           v <- find_video_url item_name result_data ;;
           ret (Return v)
       else if eq_str status "failed" then
         error_msg <- lift (py_get result_data "error" (PStr "Unknown error")) ;;
         raise (GenerationFailed item_name error_msg)
       else if in_strs status ["IN_QUEUE"; "IN_PROGRESS"; "queued"; "in_progress"; "processing"] then
         sleep poll_interval ;;;
         ret (Next (Z.min (poll_interval + 2) 15))
       else
         sleep poll_interval ;;;
         ret (Next poll_interval))
    is_request_exception
    (fun _ => sleep poll_interval ;;; ret (Next poll_interval)).

Definition _poll_fal_completion (request_id item_name base_url : string)
    (max_wait_time : Z) : M pyval :=
  let status_url := fal_status_url request_id in
  start_time <- time ;;
  poll_loop (poll_fuel max_wait_time) (fal_turn status_url item_name)
    item_name start_time max_wait_time 5.

(** ** The stage executors *)

Record VideoIdea : Type := {
  caption : pyval;
  idea : pyval;
  environment : pyval;
  sound : pyval;
  status : pyval
}.

Record VideoScene : Type := { description : string }.

(** [try: c  except Exception as e: logger.error(...); raise]. *)
Definition logged {A} (c : M A) : M A :=
  try_except c any_exception (fun e => raise e).

Definition nl : string := String "010"%char "".
Definition dq : string := String "034"%char "".

(** The two system prompts and the first user prompt are fixed texts of the
    source; only their identity matters here. *)
Definition idea_system_prompt : string := "<system prompt: one idea as a JSON array>".
Definition idea_user_prompt : string := "<user prompt: a hard material sliced by a blade>".
Definition scenes_system_prompt : string := "<system prompt: multi-scene video sequence>".

(** [self.openai_client.chat.completions.create(...)] followed by
    [response.choices[0].message.content.strip()]. *)
Definition chat_completion (system_prompt user_prompt : string) : M string :=
  a <- call (Chat system_prompt user_prompt) ;;
  match a with
  | Completion content => ret (strip content)
  | _ => raise ChatError
  end.

Definition generate_creative_video_idea : M VideoIdea :=
  logged
    (content <- chat_completion idea_system_prompt idea_user_prompt ;;
     let content := if startswith content "```json" then drop_first 7 content else content in
     let content := if endswith content "```" then drop_last 3 content else content in
     w <- get_world ;;
     parsed <- match json_loads w content with
               | Some v => ret v
               | None => raise JSONDecodeError
               end ;;
     idea_data <- lift (py_item0 parsed) ;;
     caption <- lift (py_item idea_data "Caption") ;;
     idea <- lift (py_item idea_data "Idea") ;;
     environment <- lift (py_item idea_data "Environment") ;;
     sound <- lift (py_item idea_data "Sound") ;;
     status <- lift (py_item idea_data "Status") ;;
     ret {| caption := caption; idea := idea; environment := environment;
            sound := sound; status := status |}).

(** The loop over the lines of the scripting response. *)
Fixpoint parse_scenes (lines : list string) (scenes : list VideoScene)
    : result (list VideoScene) :=
  match lines with
  | [] => Ok scenes
  | line :: rest =>
      if startswith (strip line) "Scene " then
        match after_first ":"%char line with
        | Ok tail =>
            let scene_desc := strip_quote (strip tail) in
            parse_scenes rest (scenes ++ [{| description := scene_desc |}])
        | Raise e => Raise e
        end
      else parse_scenes rest scenes
  end.

Definition generate_detailed_video_prompts (i : VideoIdea) : M (list VideoScene) :=
  logged
    (w <- get_world ;;
     let user_prompt :=
       "Give me 3 video prompts based on the previous idea" ++ nl ++ nl ++
       "Idea: " ++ dq ++ py_str w (idea i) ++ dq ++ nl ++
       "Environment: " ++ dq ++ py_str w (environment i) ++ dq ++ nl ++
       "Sound: " ++ dq ++ py_str w (sound i) ++ dq ++ " " in
     content <- chat_completion scenes_system_prompt user_prompt ;;
     let lines := split_char "010"%char content in
     scenes <- lift (parse_scenes lines []) ;;
     ret (take 3 scenes)).

Definition wavespeed_url : string :=
  "https://api.wavespeed.ai/api/v3/bytedance/seedance-v1-pro-t2v-480p".
Definition fal_audio_url : string := "https://queue.fal.run/fal-ai/mmaudio-v2".
Definition fal_ffmpeg_url : string := "https://queue.fal.run/fal-ai/ffmpeg-api/compose".

Definition clip_payload (w : world) (i : VideoIdea) (scene : VideoScene) : pyval :=
  PDict [("aspect_ratio", PStr "9:16");
         ("duration", PInt 10);
         ("prompt", PStr ("VIDEO THEME: " ++ py_str w (idea i) ++
                          " | WHAT HAPPENS IN THE VIDEO: " ++ description scene ++
                          " | WHERE THE VIDEO IS SHOT: " ++ py_str w (environment i)))].

(** The loop of [generate_video_clips], from the clip with index [n] on. *)
Fixpoint clips_loop (n : nat) (scenes : list VideoScene) (i : VideoIdea)
    (video_urls : list pyval) : M (list pyval) :=
  match scenes with
  | [] => ret video_urls
  | scene :: rest =>
      video_url <-
        logged
          (w <- get_world ;;
           response <- requests_post wavespeed_url (clip_payload w i scene) ;;
           raise_for_status response ;;;
           result <- response_json response ;;
           data <- lift (py_item result "data") ;;
           prediction_id <- lift (py_item data "id") ;;
           _poll_wavespeed_completion (py_str w prediction_id)
             ("clip " ++ str_nat (n + 1)) 300) ;;
      clips_loop (S n) rest i (video_urls ++ [video_url])
  end.

Definition generate_video_clips (scenes : list VideoScene) (i : VideoIdea) : M (list pyval) :=
  clips_loop 0 scenes i [].

Definition sound_payload (w : world) (video_url : pyval) (i : VideoIdea) : pyval :=
  PDict [("prompt", PStr ("ASMR Soothing sound effects. " ++ py_str w (sound i)));
         ("duration", PInt 10);
         ("video_url", video_url)].

Definition generate_asmr_sound (video_url : pyval) (i : VideoIdea) : M pyval :=
  logged
    (w <- get_world ;;
     response <- requests_post fal_audio_url (sound_payload w video_url i) ;;
     (if negb (status_code response =? 200) then raise_for_status response else ret tt) ;;;
     result <- response_json response ;;
     request_id <- lift (py_item result "request_id") ;;
     _poll_fal_completion (py_str w request_id) "ASMR sound"
       "https://queue.fal.run/fal-ai/mmaudio-v2/requests/" 300).

Definition keyframe (url : pyval) (n : nat) : pyval :=
  PDict [("url", url); ("timestamp", PInt (Z.of_nat n * 10)); ("duration", PInt 10)].

(** [for i, url in enumerate(urls): if keep(url): keyframes.append(...)],
    counting from [n]. *)
Fixpoint keyframes (keep : pyval -> bool) (n : nat) (urls : list pyval) : list pyval :=
  match urls with
  | [] => []
  | url :: rest =>
      (if keep url then [keyframe url n] else []) ++ keyframes keep (S n) rest
  end.

Definition video_track (video_urls : list pyval) : pyval :=
  PDict [("id", PStr "1"); ("type", PStr "video");
         ("keyframes", PList (keyframes (fun _ => true) 0 video_urls))].

Definition audio_track (audio_keyframes : list pyval) : pyval :=
  PDict [("id", PStr "2"); ("type", PStr "audio");
         ("keyframes", PList audio_keyframes)].

(** The [tracks] list that [merge_video_clips] builds.  [sound_urls] is
    always a list at the call sites ([None], the default, is not used). *)
Definition merge_tracks (video_urls sound_urls : list pyval) : list pyval :=
  let tracks := [video_track video_urls] in
  if truthy (PList sound_urls) && existsb truthy sound_urls then
    let audio_keyframes := keyframes truthy 0 sound_urls in
    if truthy (PList audio_keyframes)
    then tracks ++ [audio_track audio_keyframes]
    else tracks
  else tracks.

Definition merge_payload (video_urls sound_urls : list pyval) : pyval :=
  PDict [("tracks", PList (merge_tracks video_urls sound_urls))].

Definition merge_video_clips (video_urls sound_urls : list pyval) : M pyval :=
  let payload := merge_payload video_urls sound_urls in
  logged
    (w <- get_world ;;
     response <- requests_post fal_ffmpeg_url payload ;;
     raise_for_status response ;;;
     result <- response_json response ;;
     request_id <- lift (py_item result "request_id") ;;
     _poll_fal_completion (py_str w request_id) "video rendering"
       "https://queue.fal.run/fal-ai/ffmpeg-api/requests/" 300).

(** ** The background task of [main.py] *)

Definition set_status (job_id s : string) : M unit := emit (EWrite job_id (SetStatus s)).
Definition set_progress (job_id s : string) : M unit :=
  emit (EWrite job_id (SetProgress (Text s))).

Definition download_and_save_video (video_url : pyval) (job_id : string) : M string :=
  logged
    (w <- get_world ;;
     t <- time ;;
     let timestamp := strftime w t in
     let filename := "asmr_video_" ++ timestamp ++ "_" ++ job_id ++ ".mp4" in
     let filepath := "generated_videos/" ++ filename in
     a <- call (Download (py_str w video_url)) ;;
     response <- match a with
                 | Response r => ret r
                 | _ => raise RequestException
                 end ;;
     raise_for_status response ;;;
     saved <- call (SaveVideo filepath) ;;
     match saved with
     | Written => ret filename
     | _ => raise OSError
     end).

(** The loop of step 4: one sound per clip, a failure leaves [None]. *)
Fixpoint sounds_loop (video_urls : list pyval) (i : VideoIdea)
    (sound_urls : list pyval) : M (list pyval) :=
  match video_urls with
  | [] => ret sound_urls
  | video_url :: rest =>
      sound_urls' <-
        try_except
          (sound_url <- generate_asmr_sound video_url i ;;
           ret (sound_urls ++ [sound_url])%list)
          any_exception
          (fun _ => ret (sound_urls ++ [PNone])%list) ;;
      sounds_loop rest i sound_urls'
  end.

Definition metadata (w : world) (t : Z) (job_id : string) (i : VideoIdea)
    (scenes : list VideoScene) (video_urls sound_urls : list pyval)
    (final_video_url : pyval) (video_filename : string) (include_sound : bool) : pyval :=
  PDict [("job_id", PStr job_id);
         ("idea", idea i);
         ("caption", caption i);
         ("environment", environment i);
         ("sound", sound i);
         ("status", status i);
         ("scenes", PList (map (fun scene => PStr (description scene)) scenes));
         ("video_urls", PList video_urls);
         ("sound_urls", PList sound_urls);
         ("final_video_url", final_video_url);
         ("local_filename", PStr video_filename);
         ("timestamp", PStr (isoformat w t));
         ("include_sound", PBool include_sound)].

(** What the [try] block of [run_video_generation] computes before the job
    is marked completed. *)
Record outcome : Type := {
  out_idea : VideoIdea;
  out_scenes : list VideoScene;
  out_video_urls : list pyval;
  out_sound_urls : list pyval;
  out_final_video_url : pyval;
  out_filename : string
}.

Definition run_stages (job_id : string) (custom_prompt : option string)
    (include_sound : bool) : M outcome :=
  set_status job_id "processing" ;;;
  set_progress job_id "Initializing AI video generator..." ;;;
  w <- get_world ;;
  (if client_init_fails w then raise ChatError else ret tt) ;;;
  set_progress job_id "Generating creative video idea..." ;;;
  i <- generate_creative_video_idea ;;
  set_progress job_id "Creating detailed video scenes..." ;;;
  scenes <- generate_detailed_video_prompts i ;;
  set_progress job_id "Generating video clips (this may take several minutes)..." ;;;
  video_urls <- generate_video_clips scenes i ;;
  sound_urls <-
    (if include_sound && truthy (PList video_urls) then
       set_progress job_id "Generating ASMR sounds..." ;;;
       sounds_loop video_urls i []
     else ret (replicate (length video_urls) PNone)) ;;
  set_progress job_id "Merging video clips into final video..." ;;;
  final_video_url <- merge_video_clips video_urls sound_urls ;;
  set_progress job_id "Downloading and saving final video..." ;;;
  video_filename <- download_and_save_video final_video_url job_id ;;
  w <- get_world ;;
  t <- time ;;
  let metadata_file := "video_metadata/" ++ job_id ++ ".json" in
  written <- call (WriteFile metadata_file
                     (metadata w t job_id i scenes video_urls sound_urls
                        final_video_url video_filename include_sound)) ;;
  match written with
  | Written =>
      ret {| out_idea := i; out_scenes := scenes; out_video_urls := video_urls;
             out_sound_urls := sound_urls; out_final_video_url := final_video_url;
             out_filename := video_filename |}
  | _ => raise OSError
  end.

Definition run_video_generation (job_id : string) (custom_prompt : option string)
    (include_sound : bool) : M unit :=
  try_except
    (o <- run_stages job_id custom_prompt include_sound ;;
     set_status job_id "completed" ;;;
     set_progress job_id "Video generation completed successfully!" ;;;
     emit (EWrite job_id (SetResult
       {| video_id := job_id;
          filename := out_filename o;
          result_idea := idea (out_idea o);
          result_caption := caption (out_idea o);
          result_final_video_url := out_final_video_url o;
          download_url := "/videos/" ++ job_id ++ "/download" |})))
    any_exception
    (fun e =>
       set_status job_id "failed" ;;;
       emit (EWrite job_id (SetProgress (GenerationFailedText e))) ;;;
       emit (EWrite job_id (SetError e))).

(** ** The job registry of [main.py] *)

Record VideoGenerationRequest : Type := {
  custom_prompt : option string;
  include_sound : bool
}.

(** One value of the dictionary [active_jobs]. *)
Record job : Type := {
  job_status : string;
  job_progress : progress;
  job_created_at : string;
  job_request : VideoGenerationRequest;
  job_result : option result_info;
  job_error : option exn
}.

(** [f"job_{datetime.now().strftime('%Y%m%d_%H%M%S')}_{len(active_jobs)}"] *)
Definition make_job_id {A : Type} (timestamp : string) (active_jobs : gmap string A)
    : string :=
  "job_" ++ timestamp ++ "_" ++ str_nat (size active_jobs).

(** The dictionary that [generate_video] makes for a new job. *)
Definition new_job (created_at : string) (request : VideoGenerationRequest) : job :=
  {| job_status := "started";
     job_progress := Text "Initializing video generation...";
     job_created_at := created_at;
     job_request := request;
     job_result := None;
     job_error := None |}.

(** [d[key] = value] on the dictionary [d] of a job. *)
Definition apply_write (w : write) (j : job) : job :=
  match w with
  | SetStatus s =>
      {| job_status := s; job_progress := job_progress j;
         job_created_at := job_created_at j; job_request := job_request j;
         job_result := job_result j; job_error := job_error j |}
  | SetProgress p =>
      {| job_status := job_status j; job_progress := p;
         job_created_at := job_created_at j; job_request := job_request j;
         job_result := job_result j; job_error := job_error j |}
  | SetResult r =>
      {| job_status := job_status j; job_progress := job_progress j;
         job_created_at := job_created_at j; job_request := job_request j;
         job_result := Some r; job_error := job_error j |}
  | SetError e =>
      {| job_status := job_status j; job_progress := job_progress j;
         job_created_at := job_created_at j; job_request := job_request j;
         job_result := job_result j; job_error := Some e |}
  end.

(** The writes of a trace, in order. *)
Definition writes_of (tr : list event) : list (string * write) :=
  omap (fun e => match e with EWrite job_id w => Some (job_id, w) | _ => None end) tr.

(** The registry writes of the background task of one job, run against the
    outside [w]. *)
Definition task_writes (w : world) (job_id : string) (request : VideoGenerationRequest)
    : list (string * write) :=
  let w0 := set_state w (now w) (calls w) [] in
  writes_of (trace (snd (run_video_generation job_id (custom_prompt request)
                           (include_sound request) w0))).

(** The process.  The dictionaries of the jobs are objects of the store
    [objects], and the address of an object is its place in the store; the
    module dictionary [active_jobs] holds for a job id the address of the
    dictionary of the job, as a Python dictionary holds references.  For
    every background task [tasks] has the writes it has not done yet. *)
Record system : Type := {
  objects : list job;
  active_jobs : gmap string nat;
  tasks : list (list (string * write))
}.

Definition initial : system := {| objects := []; active_jobs := ∅; tasks := [] |}.

(** The handler of [POST /generate]: the job id it answers with, and the
    process after it.  [timestamp] and [created_at] are the two readings of
    [datetime.now()]; the dictionary literal makes a new object; [w] is
    the outside that the added background task meets. *)
Definition generate_video (timestamp created_at : string)
    (request : VideoGenerationRequest) (w : world) (s : system) : string * system :=
  let job_id := make_job_id timestamp (active_jobs s) in
  (job_id,
   {| objects := (objects s ++ [new_job created_at request])%list;
      active_jobs := <[job_id := length (objects s)]> (active_jobs s);
      tasks := (tasks s ++ [task_writes w job_id request])%list |}).

(** [active_jobs[job_id]]: the dictionary of a job, [None] for [KeyError]. *)
Definition job_data (s : system) (job_id : string) : option job :=
  match active_jobs s !! job_id with
  | Some a => objects s !! a
  | None => None
  end.

(** [active_jobs[job_id][key] = value]: the object that the table names is
    changed in place; [None] for [KeyError]. *)
Definition update_job (job_id : string) (wr : write) (s : system) : option system :=
  match active_jobs s !! job_id with
  | Some a =>
      match objects s !! a with
      | Some j =>
          Some {| objects := <[a := apply_write wr j]> (objects s);
                  active_jobs := active_jobs s;
                  tasks := tasks s |}
      | None => None
      end
  | None => None
  end.

(** The task at place [n] does its next write. *)
Definition task_step (n : nat) (s : system) : option system :=
  match tasks s !! n with
  | Some ((job_id, wr) :: rest) =>
      match update_job job_id wr s with
      | Some s' =>
          Some {| objects := objects s'; active_jobs := active_jobs s';
                  tasks := <[n := rest]> (tasks s') |}
      | None => None
      end
  | _ => None
  end.

(** Requests come in and tasks of different jobs interleave freely. *)
Inductive step : system -> system -> Prop :=
| step_submit (s : system) (timestamp created_at : string)
    (request : VideoGenerationRequest) (w : world) :
    step s (snd (generate_video timestamp created_at request w s))
| step_write (s s' : system) (n : nat) :
    task_step n s = Some s' -> step s s'.

Inductive reachable : system -> Prop :=
| reachable_initial : reachable initial
| reachable_step s s' : reachable s -> step s s' -> reachable s'.

(** ** The reading handlers of [main.py] *)

Inductive HTTPException : Type :=
| Http (status_code : Z) (detail : string).

(** The answer of [GET /status/{job_id}]. *)
Record JobStatus : Type := {
  js_job_id : string;
  js_status : string;
  js_progress : progress;
  js_result : option result_info;
  js_error : option exn
}.

Definition get_job_status (job_id : string) (s : system) : HTTPException + JobStatus :=
  match job_data s job_id with
  | None => inl (Http 404 "Job not found")
  | Some job_data =>
      inr {| js_job_id := job_id;
             js_status := job_status job_data;
             js_progress := job_progress job_data;
             js_result := job_result job_data;
             js_error := job_error job_data |}
  end.

(** The dictionaries of the table, by job id. *)
Definition jobs (s : system) : gmap string job :=
  omap (fun a => objects s !! a) (active_jobs s).

(** The answer of [GET /jobs]: the number of jobs that are started or
    processing, the number of jobs, and the table. *)
Definition list_active_jobs (s : system) : nat * nat * gmap string job :=
  (size (filter (fun kv => in_strs (PStr (job_status (snd kv))) ["started"; "processing"])
           (jobs s)),
   size (active_jobs s),
   jobs s).

(** * Vocabulary of the properties *)

(** ** Worlds and traces *)

(** The part of the world that no computation changes. *)
Definition env (w : world) : world := set_state w 0 O [].

(** [emits P c]: whatever the world, [c] only adds events that satisfy [P]
    to the trace. *)
Definition emits {A} (P : event -> Prop) (c : M A) : Prop :=
  forall w, exists es, trace (snd (c w)) = (trace w ++ es)%list /\ Forall P es.


(** The events that a run from [w] to [w'] added. *)
Definition new_events (w w' : world) : list event :=
  drop (length (trace w)) (trace w').

(** ** Outcomes of a poller *)

(** The errors of a failed subscript, [get] or [in] on a value that has
    not the expected shape. *)
Definition lookup_error (e : exn) : Prop :=
  match e with
  | KeyError _ | IndexError | TypeError | AttributeError => True
  | _ => False
  end.

(** The errors with which a poller can end besides the timeout: the failure
    that the provider reports, the two complaints about an answer of the
    wrong shape, the errors of Python's own lookups on such an answer, and
    where [requests] does not make it a [RequestException], the error of
    decoding a body that is not JSON. *)
Definition poll_error (w : world) (item_name : string) (e : exn) : Prop :=
  match e with
  | GenerationFailed item _ | BadRequest item | NoVideoUrl item => item = item_name
  | KeyError _ | IndexError | TypeError | AttributeError => True
  | JSONDecodeError => json_error_is_request_exception w = false
  | _ => False
  end.


(** The [n]-th call, a status query of the Fal poller, is answered by a
    status that is the string ['failed'], with [msg] as the reason. *)
Definition fal_reports_failure (status_url : string) (w : world) (n : nat)
    (msg : pyval) : Prop :=
  exists latency r d,
    oracle w n (Get status_url) = (latency, Response r) /\
    (status_code r < 400 \/ 600 <= status_code r) /\
    body r = Some d /\
    py_get d "status" (PStr "unknown") = Ok (PStr "failed") /\
    py_get d "error" (PStr "Unknown error") = Ok msg.

Definition wavespeed_reports_failure (result_url : string) (w : world) (n : nat)
    (msg : pyval) : Prop :=
  exists latency r d,
    oracle w n (Get result_url) = (latency, Response r) /\
    (status_code r < 400 \/ 600 <= status_code r) /\
    body r = Some d /\
    wavespeed_status d = Ok (PStr "failed") /\
    py_get d "error" (PStr "Unknown error") = Ok msg.

(** The events of one turn of the Fal poller before it sleeps: the status
    query, and after a completed status that names a [response_url] the
    fetch of the result. *)
Inductive fal_turn_events (status_url : string) : list event -> Prop :=
| fte_status : fal_turn_events status_url [ECall (Get status_url)]
| fte_fetch u : fal_turn_events status_url [ECall (Get status_url); ECall (Get u)].

(** What one turn of a poller may do: [t] are its events before the
    sleep. *)
Definition turn_post (events_ok : list event -> Prop)
    (reported : world -> nat -> pyval -> Prop) (item_name : string) (i : Z)
    (w : world) (r : result turn) (w' : world) : Prop :=
  env w' = env w /\
  exists t, events_ok t /\
    match r with
    | Ok (Next i') =>
        trace w' = (trace w ++ t ++ [ESleep i])%list /\
        now w + i <= now w' /\ (i' = i \/ i' = Z.min (i + 2) 15)
    | Ok (Return _) => trace w' = (trace w ++ t)%list
    | Raise e =>
        trace w' = (trace w ++ t)%list /\ poll_error w item_name e /\
        match e with
        | GenerationFailed _ msg => reported w (calls w) msg
        | _ => True
        end
    end.

(** The events of a polling session that starts with the poll interval
    [i]: turns separated by sleeps; after a sleep of [i] the next interval
    is [i] again or [min (i + 2) 15]. *)
Inductive session (events_ok : list event -> Prop) : Z -> list event -> Prop :=
| session_over i : session events_ok i []
| session_last i t : events_ok t -> session events_ok i t
| session_next i i' t es :
    events_ok t -> i' = i \/ i' = Z.min (i + 2) 15 ->
    session events_ok i' es ->
    session events_ok i (t ++ ESleep i :: es).

(** What a whole session may do. *)
Definition poll_post (events_ok : list event -> Prop)
    (reported : world -> nat -> pyval -> Prop) (item_name : string)
    (start_time max_wait_time i : Z)
    (w : world) (r : result pyval) (w' : world) : Prop :=
  env w' = env w /\
  (exists es, trace w' = (trace w ++ es)%list /\ session events_ok i es) /\
  match r with
  | Ok _ => True
  | Raise e =>
      (e = TimedOut item_name max_wait_time /\ max_wait_time <= now w' - start_time) \/
      (poll_error w item_name e /\
       match e with
       | GenerationFailed _ msg => exists n, reported w n msg
       | _ => True
       end)
  end.



(** ** Worlds to run the model in *)

Definition base_world (o : nat -> request -> N * reply) : world :=
  {| oracle := o;
     json_loads := fun _ => None;
     py_repr := fun _ => "<repr>";
     strftime := fun _ => "20250101_120000";
     isoformat := fun _ => "2025-01-01T12:00:00";
     json_error_is_request_exception := true;
     client_init_fails := false;
     now := 0; calls := 0; trace := [] |}.

Definition ok_response (d : pyval) : reply :=
  Response {| status_code := 200; body := Some d |}.

(** The video provider answers every query after one second with the
    statuses of a script, then with the last one for ever. *)
Definition wavespeed_status_reply (s : string) : reply :=
  ok_response
    (PDict [("status", PStr s);
            ("data", PDict [("outputs", PList [PStr "https://cdn.example/clip.mp4"])])]).

Definition wavespeed_script (statuses : list string) (last : string) : world :=
  base_world (fun n _ => (1%N, wavespeed_status_reply (nth n statuses last))).





(** Every status query of the Fal poller is answered by a response that is
    no HTTP error and whose status is the string [s]. *)
Definition fal_always_answers (status_url : string) (w : world) (s : string) : Prop :=
  forall n, exists latency r d,
    oracle w n (Get status_url) = (latency, Response r) /\
    (status_code r < 400 \/ 600 <= status_code r) /\
    body r = Some d /\
    py_get d "status" (PStr "unknown") = Ok (PStr s).

(** ** The steps of the background task *)

(** Steps 1 and 2 of [run_video_generation], with the writes before them. *)
Definition scripting_phase (job_id : string) : M (VideoIdea * list VideoScene) :=
  set_status job_id "processing" ;;;
  set_progress job_id "Initializing AI video generator..." ;;;
  w <- get_world ;;
  (if client_init_fails w then raise ChatError else ret tt) ;;;
  set_progress job_id "Generating creative video idea..." ;;;
  i <- generate_creative_video_idea ;;
  set_progress job_id "Creating detailed video scenes..." ;;;
  scenes <- generate_detailed_video_prompts i ;;
  ret (i, scenes).

(** Step 3. *)
Definition clip_phase (job_id : string) (i : VideoIdea) (scenes : list VideoScene)
    : M (list pyval) :=
  set_progress job_id "Generating video clips (this may take several minutes)..." ;;;
  generate_video_clips scenes i.

(** Step 4. *)
Definition sound_phase (job_id : string) (include_sound : bool)
    (i : VideoIdea) (video_urls : list pyval) : M (list pyval) :=
  if include_sound && truthy (PList video_urls) then
    set_progress job_id "Generating ASMR sounds..." ;;;
    sounds_loop video_urls i []
  else ret (replicate (length video_urls) PNone).

(** Steps 5 to 7. *)
Definition final_phase (job_id : string) (include_sound : bool) (i : VideoIdea)
    (scenes : list VideoScene) (video_urls sound_urls : list pyval) : M outcome :=
  set_progress job_id "Merging video clips into final video..." ;;;
  final_video_url <- merge_video_clips video_urls sound_urls ;;
  set_progress job_id "Downloading and saving final video..." ;;;
  video_filename <- download_and_save_video final_video_url job_id ;;
  w <- get_world ;;
  t <- time ;;
  written <- call (WriteFile ("video_metadata/" ++ job_id ++ ".json")
                     (metadata w t job_id i scenes video_urls sound_urls
                        final_video_url video_filename include_sound)) ;;
  match written with
  | Written =>
      ret {| out_idea := i; out_scenes := scenes; out_video_urls := video_urls;
             out_sound_urls := sound_urls; out_final_video_url := final_video_url;
             out_filename := video_filename |}
  | _ => raise OSError
  end.

(** One run of the sound loop, clip by clip: a sound that was generated is
    kept, a failure leaves [None], and the loop goes on with the next
    clip. *)
Inductive sounds_run (i : VideoIdea) : list pyval -> world -> list pyval -> world -> Prop :=
| sounds_done w : sounds_run i [] w [] w
| sounds_ok video_url rest w sound_url w1 sounds w' :
    generate_asmr_sound video_url i w = (Ok sound_url, w1) ->
    sounds_run i rest w1 sounds w' ->
    sounds_run i (video_url :: rest) w (sound_url :: sounds) w'
| sounds_failed video_url rest w e w1 sounds w' :
    generate_asmr_sound video_url i w = (Raise e, w1) ->
    sounds_run i rest w1 sounds w' ->
    sounds_run i (video_url :: rest) w (PNone :: sounds) w'.

(** The statuses that a trace writes into the record of a job, in order. *)
Definition statuses (job_id : string) (es : list event) : list string :=
  omap (fun e => match e with
                 | EWrite j (SetStatus s) => if String.eqb j job_id then Some s else None
                 | _ => None
                 end) es.

(** The metadata records that a trace writes to files. *)
Definition metadata_written (es : list event) : list pyval :=
  omap (fun e => match e with ECall (WriteFile _ m) => Some m | _ => None end) es.

(** The payloads of the requests that a trace posts to [url]. *)
Definition posted (url : string) (es : list event) : list pyval :=
  omap (fun e => match e with
                 | ECall (Post u p) => if String.eqb u url then Some p else None
                 | _ => None
                 end) es.

(** The types of the tracks of a composition request. *)
Definition track_types (payload : pyval) : list pyval :=
  match py_get payload "tracks" PNone with
  | Ok (PList tracks) =>
      omap (fun t => match py_get t "type" PNone with Ok ty => Some ty | _ => None end)
        tracks
  | _ => []
  end.

Definition has_audio_track (payload : pyval) : bool :=
  existsb (fun ty => eq_str ty "audio") (track_types payload).

(** ** A world in which the whole pipeline runs *)

Definition idea_json : pyval :=
  PList [PDict [("Caption", PStr "so crisp #asmr");
                ("Idea", PStr "Black obsidian shaped like a chess piece");
                ("Environment", PStr "studio table, macro close-up");
                ("Sound", PStr "crisp slicing");
                ("Status", PStr "for production")]].

Definition three_scenes : string :=
  "Idea: obsidian" ++ nl ++
  "Scene 1: " ++ dq ++ "the blade meets the edge" ++ dq ++ nl ++
  "Scene 2: " ++ dq ++ "the blade splits the crown" ++ dq ++ nl ++
  "Scene 3: " ++ dq ++ "the halves fall apart" ++ dq.

Definition accepted (request_id : string) : reply :=
  ok_response (PDict [("request_id", PStr request_id)]).

Definition server_error : reply := Response {| status_code := 500; body := None |}.

(** The providers answer every call after one second.  The chat model
    answers the scripting prompt with [scenes_text]; every clip succeeds at
    the first query; [audio_post] answers the submission of a sound, given
    the ordinal of the call; [fal_status] is the body of every status
    answer of the audio and composition provider. *)
Definition studio (scenes_text : string) (audio_post : nat -> reply)
    (fal_status : string -> pyval) : world :=
  {| oracle := fun n r =>
       (1%N,
        match r with
        | Chat system_prompt _ =>
            if String.eqb system_prompt idea_system_prompt
            then Completion "[idea]" else Completion scenes_text
        | Post url payload =>
            if String.eqb url wavespeed_url then
              ok_response (PDict [("data", PDict [("id", PStr ("clip-" ++ str_nat n))])])
            else if String.eqb url fal_audio_url then audio_post n
            else accepted "render-1"
        | Get url =>
            if startswith url "https://api.wavespeed.ai/" then
              ok_response
                (PDict [("status", PStr "succeeded");
                        ("data", PDict [("outputs", PList [PStr (url ++ ".mp4")])])])
            else ok_response (fal_status url)
        | Download _ => ok_response PNone
        | SaveVideo _ => Written
        | WriteFile _ _ => Written
        end);
     json_loads := fun _ => Some idea_json;
     py_repr := fun _ => "<repr>";
     strftime := fun _ => "20250101_120000";
     isoformat := fun _ => "2025-01-01T12:00:00";
     json_error_is_request_exception := true;
     client_init_fails := false;
     now := 0; calls := 0; trace := [] |}.

(** A status answer: completed, with the result under [video_url]. *)
Definition completed_with (url : pyval) : pyval :=
  PDict [("status", PStr "completed"); ("video_url", url)].

(** The sound of the second clip (the call with ordinal 10) is refused. *)
Definition second_sound_fails : world :=
  studio three_scenes
    (fun n => if Nat.eqb n 10 then server_error else accepted ("sound-" ++ str_nat n))
    (fun url => completed_with (PStr (url ++ "/output"))).

(** The scripting response has no line that starts with "Scene ". *)
Definition no_scenes : world :=
  studio ("Idea: obsidian" ++ nl ++ "I cannot help with that.")
    (fun n => accepted ("sound-" ++ str_nat n))
    (fun url => completed_with (PStr (url ++ "/output"))).

(** Every sound task completes, and its result is the empty string. *)
Definition silent_sounds : world :=
  studio three_scenes
    (fun n => accepted ("sound-" ++ str_nat n))
    (fun url => if is_infix "/sound-" url
                then completed_with (PStr "")
                else completed_with (PStr (url ++ "/output"))).

(** An event predicate from one on the calls and one on the writes;
    sleeps are always allowed. *)
Definition ev (R : request -> Prop) (W : string -> write -> Prop) (e : event) : Prop :=
  match e with
  | ECall r => R r
  | ESleep _ => True
  | EWrite job_id w => W job_id w
  end.

(** A write that sets the progress text of the job. *)
Definition progress_of (job_id : string) (j : string) (w : write) : Prop :=
  j = job_id /\ exists p, w = SetProgress p.

(** A call that posts nothing to [url]. *)
Definition no_post_to (url : string) (r : request) : Prop :=
  match r with
  | Post u _ => u <> url
  | _ => True
  end.

(** Any event at all. *)
Definition any_event : event -> Prop := ev (fun _ => True) (fun _ _ => True).

(** The events of the stages before the job is marked completed or failed:
    calls, sleeps, and writes of the progress text of the job. *)
Definition stage_event (job_id : string) : event -> Prop :=
  ev (fun _ => True) (progress_of job_id).

(** The three writes with which the task ends. *)
Definition final_writes (job_id : string) (r : result outcome) : list event :=
  match r with
  | Ok o =>
      [EWrite job_id (SetStatus "completed");
       EWrite job_id (SetProgress (Text "Video generation completed successfully!"));
       EWrite job_id (SetResult
         {| video_id := job_id;
            filename := out_filename o;
            result_idea := idea (out_idea o);
            result_caption := caption (out_idea o);
            result_final_video_url := out_final_video_url o;
            download_url := "/videos/" ++ job_id ++ "/download" |})]
  | Raise e =>
      [EWrite job_id (SetStatus "failed");
       EWrite job_id (SetProgress (GenerationFailedText e));
       EWrite job_id (SetError e)]
  end.

(** A call that posts nothing to the sound endpoint, and to the
    composition endpoint only a payload with the video track alone. *)
Definition video_only_post (r : request) : Prop :=
  match r with
  | Post u p =>
      u <> fal_audio_url /\ (u = fal_ffmpeg_url -> track_types p = [PStr "video"])
  | _ => True
  end.

(** ** States of a job *)

(** The one-step moves of the status of a job. *)
Definition next (a b : string) : Prop :=
  (a = "started" /\ b = "processing") \/
  (a = "processing" /\ (b = "completed" \/ b = "failed")).

(** The status stays, or moves one step. *)
Definition advance (a b : string) : Prop := a = b \/ next a b.

(** The place of a status in the order started, processing, then
    completed or failed. *)
Definition rank (s : string) : nat :=
  if String.eqb s "processing" then 1
  else if String.eqb s "completed" || String.eqb s "failed" then 2
  else 0.

Definition terminal (s : string) : Prop := s = "completed" \/ s = "failed".

(** The four statuses that the code writes. *)
Definition known_status (s : string) : Prop :=
  s = "started" \/ s = "processing" \/ s = "completed" \/ s = "failed".

(** The writes that a task has still to do fit the status [st] of its
    job: every status they set is the next one. *)
Fixpoint pending_ok (st : string) (ws : list write) : Prop :=
  match ws with
  | [] => True
  | SetStatus s :: rest => next st s /\ pending_ok s rest
  | _ :: rest => pending_ok st rest
  end.

(** The pending writes [l] of the task of the job [id]. *)
Definition task_ok (s : system) (id : string) (l : list (string * write)) : Prop :=
  Forall (fun x => fst x = id) l /\
  exists j, job_data s id = Some j /\ pending_ok (job_status j) (map snd l).

(** Every key of the table was made by [make_job_id] when the table was
    smaller than it is now. *)
Definition fresh_ids {A : Type} (table : gmap string A) : Prop :=
  forall k, is_Some (table !! k) ->
    exists timestamp n,
      k = "job_" ++ timestamp ++ "_" ++ str_nat n /\ (n < size table)%nat.

(** Every reference of the table is to an object of the store, and no two
    job ids share an object. *)
Definition no_alias (s : system) : Prop :=
  (forall k a, active_jobs s !! k = Some a -> (a < length (objects s))%nat) /\
  (forall k1 k2 a,
     active_jobs s !! k1 = Some a -> active_jobs s !! k2 = Some a -> k1 = k2).

(** What holds of every state that the process can reach: [ids] names the
    job of each task. *)
Definition invariant (s : system) : Prop :=
  fresh_ids (active_jobs s) /\
  no_alias s /\
  (forall k j, job_data s k = Some j -> known_status (job_status j)) /\
  exists ids : list string,
    length ids = length (tasks s) /\ NoDup ids /\
    forall n id l,
      ids !! n = Some id -> tasks s !! n = Some l -> task_ok s id l.

Fixpoint has_char (c : ascii) (s : string) : bool :=
  match s with
  | "" => false
  | String c' rest => Ascii.eqb c' c || has_char c rest
  end.

(** The chat client cannot be reached: every call fails at once. *)
Definition offline : world := base_world (fun _ _ => (0%N, Failure)).

Definition default_request : VideoGenerationRequest :=
  {| custom_prompt := None; include_sound := true |}.

(** One job has been submitted to the empty table. *)
Definition one_job : system :=
  snd (generate_video "20250101_120000" "2025-01-01T12:00:00" default_request
         offline initial).

(** The task of that job has done its first write. *)
Definition one_job_running : system :=
  match task_step 0 one_job with Some s => s | None => one_job end.

(** The same request has been submitted a second time, in the same second. *)
Definition two_jobs : system :=
  snd (generate_video "20250101_120000" "2025-01-01T12:00:00" default_request
         offline one_job).

(** ** Answers to the Fal poller *)

(** The [n]-th call, a status query of the Fal poller, is answered by a
    response that is no HTTP error and whose status is the string [s]. *)
Definition fal_answers (status_url : string) (w : world) (n : nat) (s : string) : Prop :=
  exists latency r d,
    oracle w n (Get status_url) = (latency, Response r) /\
    (status_code r < 400 \/ 600 <= status_code r) /\
    body r = Some d /\
    py_get d "status" (PStr "unknown") = Ok (PStr s).

(** A status on which the Fal poller neither returns nor reports a
    failure: it sleeps and asks again. *)
Definition keeps_waiting (s : string) : bool :=
  negb (in_strs (PStr s) ["completed"; "COMPLETED"]) && negb (eq_str (PStr s) "failed").

(** The statuses that the Fal poller knows as "still working". *)
Definition fal_known_in_progress (s : string) : bool :=
  in_strs (PStr s) ["IN_QUEUE"; "IN_PROGRESS"; "queued"; "in_progress"; "processing"].

(** The time that the status queries with the ordinals [n], ...,
    [n + k - 1] take. *)
Fixpoint query_time (status_url : string) (w : world) (n k : nat) : Z :=
  match k with
  | O => 0
  | S k' => Z.of_N (fst (oracle w n (Get status_url))) + query_time status_url w (S n) k'
  end.

(** The audio provider answers every status query after one second with
    the statuses of a script, then with the last one for ever; every
    answer carries the same reason. *)
Definition fal_script (statuses : list string) (last : string) : world :=
  base_world (fun n _ =>
    (1%N, ok_response (PDict [("status", PStr (nth n statuses last));
                              ("error", PStr "out of memory")]))).

(** The request id that the answer [a] to the request of
    [merge_video_clips] gives, as the stage passes it to the poller;
    [None] when the stage raises before it polls: the call failed, the
    answer is an HTTP error, its body is not JSON or has no
    ["request_id"]. *)
Definition accepted_request_id (w : world) (a : reply) : option string :=
  match a with
  | Response r =>
      if (400 <=? status_code r) && (status_code r <? 600) then None
      else match body r with
           | Some d =>
               match py_item d "request_id" with
               | Ok request_id => Some (py_str w request_id)
               | Raise _ => None
               end
           | None => None
           end
  | _ => None
  end.

(** * Further vocabulary *)

(** ** A task run to its end *)

(** The writes of a task done one after the other on one dictionary. *)
Definition apply_writes (ws : list (string * write)) (j : job) : job :=
  foldl (fun j x => apply_write (snd x) j) j ws.

(** The task at place [n] does up to [k] of its writes with nothing in
    between. *)
Fixpoint run_task (k : nat) (n : nat) (s : system) : system :=
  match k with
  | O => s
  | S k' =>
      match task_step n s with
      | Some s' => run_task k' n s'
      | None => s
      end
  end.

(** A job is submitted and its task runs to the end at once. *)
Definition submit_and_run (timestamp created_at : string)
    (request : VideoGenerationRequest) (w : world) (s : system) : string * system :=
  let job_id := fst (generate_video timestamp created_at request w s) in
  (job_id,
   run_task (length (task_writes w job_id request)) (length (tasks s))
     (snd (generate_video timestamp created_at request w s))).

(** The record of a job that ended well, or badly. *)
Definition finished (job_id : string) (j : job) : Prop :=
  (job_status j = "completed" /\
   job_progress j = Text "Video generation completed successfully!" /\
   job_error j = None /\
   exists r, job_result j = Some r /\ video_id r = job_id /\
             download_url r = "/videos/" ++ job_id ++ "/download") \/
  (job_status j = "failed" /\ job_result j = None /\
   exists e, job_error j = Some e /\ job_progress j = GenerationFailedText e).

(** ** The scripting response, line by line *)

(** A line that the loop of [generate_detailed_video_prompts] takes for a
    scene. *)
Definition scene_line (line : string) : bool := startswith (strip line) "Scene ".

(** A scene line that has no colon. *)
Definition bad_scene_line (line : string) : bool :=
  scene_line line && negb (has_char ":" line).

(** The scene of a scene line: what follows the first colon, without the
    blanks and then the double quotes around it. *)
Definition scene_of (line : string) : VideoScene :=
  {| description :=
       strip_quote (strip (match after_first ":" line with
                           | Ok tail => tail
                           | Raise _ => ""
                           end)) |}.

(** The user prompt of [generate_detailed_video_prompts]. *)
Definition scenes_user_prompt (w : world) (i : VideoIdea) : string :=
  "Give me 3 video prompts based on the previous idea" ++ nl ++ nl ++
  "Idea: " ++ dq ++ py_str w (idea i) ++ dq ++ nl ++
  "Environment: " ++ dq ++ py_str w (environment i) ++ dq ++ nl ++
  "Sound: " ++ dq ++ py_str w (sound i) ++ dq ++ " ".

(** [d[k1][k2]...]: a chain of subscripts. *)
Fixpoint py_path (d : pyval) (ks : list string) : result pyval :=
  match ks with
  | [] => Ok d
  | k :: rest =>
      match py_item d k with
      | Ok v => py_path v rest
      | Raise e => Raise e
      end
  end.

(** ** Success of a poller *)

(** The [n]-th call, a result query of the video poller, is answered by a
    status that is ['succeeded'] or ['completed'], with [v] as the first
    output. *)
Definition wavespeed_reports_success (result_url : string) (w : world) (n : nat)
    (v : pyval) : Prop :=
  exists latency r d s outputs,
    oracle w n (Get result_url) = (latency, Response r) /\
    (status_code r < 400 \/ 600 <= status_code r) /\
    body r = Some d /\
    wavespeed_status d = Ok s /\ in_strs s ["succeeded"; "completed"] = true /\
    py_path d ["data"; "outputs"] = Ok outputs /\ py_item0 outputs = Ok v.

(** The [n]-th call, a status query of the Fal poller, is answered by a
    status that is ['completed'] or ['COMPLETED']. *)
Definition fal_reports_completed (status_url : string) (w : world) (n : nat) : Prop :=
  exists latency r d s,
    oracle w n (Get status_url) = (latency, Response r) /\
    (status_code r < 400 \/ 600 <= status_code r) /\
    body r = Some d /\
    py_get d "status" (PStr "unknown") = Ok s /\
    in_strs s ["completed"; "COMPLETED"] = true.

(** [keeps_env c]: whatever the world, [c] changes nothing but the clock,
    the count of the calls and the trace. *)
Definition keeps_env {A} (c : M A) : Prop :=
  forall w, env (snd (c w)) = env w.

(** ** The clips, one by one *)

(** One turn of the loop of [generate_video_clips]: the clip of [scene],
    the one with the index [n], is requested and waited for; an error is
    logged and raised again. *)
Definition generate_clip (n : nat) (scene : VideoScene) (i : VideoIdea) : M pyval :=
  logged
    (w <- get_world ;;
     response <- requests_post wavespeed_url (clip_payload w i scene) ;;
     raise_for_status response ;;;
     result <- response_json response ;;
     data <- lift (py_item result "data") ;;
     prediction_id <- lift (py_item data "id") ;;
     _poll_wavespeed_completion (py_str w prediction_id)
       ("clip " ++ str_nat (n + 1)) 300).

(** [clips_run i n scenes w r w']: the clips of [scenes], counted from
    [n], are made one after the other from the world [w] on; [r] is the
    list of their URLs when each of them was made, and the error of the
    first one that failed otherwise, and [w'] is the world after the last
    clip that was tried. *)
Inductive clips_run (i : VideoIdea) :
    nat -> list VideoScene -> world -> result (list pyval) -> world -> Prop :=
| clips_done n w : clips_run i n [] w (Ok []) w
| clips_failed n scene rest w e w' :
    generate_clip n scene i w = (Raise e, w') ->
    clips_run i n (scene :: rest) w (Raise e) w'
| clips_made n scene rest w video_url w1 video_urls w' :
    generate_clip n scene i w = (Ok video_url, w1) ->
    clips_run i (S n) rest w1 (Ok video_urls) w' ->
    clips_run i n (scene :: rest) w (Ok (video_url :: video_urls)) w'
| clips_failed_later n scene rest w video_url w1 e w' :
    generate_clip n scene i w = (Ok video_url, w1) ->
    clips_run i (S n) rest w1 (Raise e) w' ->
    clips_run i n (scene :: rest) w (Raise e) w'.

(** The video provider accepts the first request that is posted to it and
    answers the others by a server error; every query is answered by a
    clip that succeeded. *)
Definition second_clip_refused : world :=
  base_world (fun n r =>
    (1%N,
     match r with
     | Post _ _ =>
         if Nat.eqb n 0
         then ok_response (PDict [("data", PDict [("id", PStr "clip-0")])])
         else server_error
     | _ => wavespeed_status_reply "succeeded"
     end)).

(** ** The keyframes of the composition request *)

(** The keyframe of the entry [p] of an enumerated list of URLs. *)
Definition keyframe_at (p : nat * pyval) : pyval :=
  PDict [("url", snd p); ("timestamp", PInt (Z.of_nat (fst p) * 10));
         ("duration", PInt 10)].

(** [enumerate(urls)]. *)
Definition enumerate (urls : list pyval) : list (nat * pyval) := imap pair urls.

(** ** The stored videos of [main.py] *)

(** [VIDEOS_DIR / f"{video_id}.mp4"] and [METADATA_DIR / f"{video_id}.json"];
    a path parameter of a route has no slash in it. *)
Definition video_path (video_id : string) : string :=
  "generated_videos/" ++ video_id ++ ".mp4".
Definition metadata_path (video_id : string) : string :=
  "video_metadata/" ++ video_id ++ ".json".

(** [GET /videos/{video_id}/download] on the files that exist: the path
    of the file that is served. *)
Definition download_video (video_id : string) (files : gset string)
    : HTTPException + string :=
  if decide (video_path video_id ∈ files) then inr (video_path video_id)
  else inl (Http 404 "Video file not found").

(** [DELETE /videos/{video_id}]: the answer ([deleted_files]) and the
    files that are left. *)
Definition delete_video (video_id : string) (files : gset string)
    : (HTTPException + list string) * gset string :=
  let deleted_files := [] in
  let '(files, deleted_files) :=
    if decide (video_path video_id ∈ files)
    then (files ∖ {[video_path video_id]}, (deleted_files ++ ["video"])%list)
    else (files, deleted_files) in
  let '(files, deleted_files) :=
    if decide (metadata_path video_id ∈ files)
    then (files ∖ {[metadata_path video_id]}, (deleted_files ++ ["metadata"])%list)
    else (files, deleted_files) in
  match deleted_files with
  | [] => (inl (Http 404 "Video not found"), files)
  | _ => (inr deleted_files, files)
  end.

(** The first test of [GET /videos/{video_id}]: 404 unless both files
    exist. *)
Definition video_is_known (video_id : string) (files : gset string) : bool :=
  bool_decide (metadata_path video_id ∈ files) &&
  bool_decide (video_path video_id ∈ files).

(** The paths that a trace writes to. *)
Definition written_paths (es : list event) : list string :=
  omap (fun e => match e with
                 | ECall (SaveVideo p) => Some p
                 | ECall (WriteFile p _) => Some p
                 | _ => None
                 end) es.

(** The name under which the task of a job saves its video at the time
    [t]. *)
Definition saved_video_name (w : world) (t : Z) (job_id : string) : string :=
  "asmr_video_" ++ strftime w t ++ "_" ++ job_id ++ ".mp4".

(** A call of the task of a job: when it writes a file, the file is the
    video of the job under its saved name, or the metadata of the job. *)
Definition task_file (job_id : string) (r : request) : Prop :=
  match r with
  | SaveVideo p =>
      exists timestamp,
        p = "generated_videos/" ++ "asmr_video_" ++ timestamp ++ "_" ++ job_id ++ ".mp4"
  | WriteFile p _ => p = metadata_path job_id
  | _ => True
  end.

(** A call that writes no file. *)
Definition no_file (r : request) : Prop :=
  match r with
  | SaveVideo _ | WriteFile _ _ => False
  | _ => True
  end.

(** ** The command-line client of [cli.py] *)











(** ** The pipeline run from the command line, [run_pipeline] *)

Record pipeline_result : Type := {
  pr_idea : VideoIdea;
  pr_scenes : list VideoScene;
  pr_video_urls : list pyval;
  pr_sound_urls : list pyval;
  pr_final_video_url : pyval
}.

(** [AIVideoGenerator.run_pipeline]; [log_results] only logs.  The loop of
    step 4 is the loop of the background task. *)
Definition run_pipeline : M pipeline_result :=
  logged
    (i <- generate_creative_video_idea ;;
     scenes <- generate_detailed_video_prompts i ;;
     video_urls <- generate_video_clips scenes i ;;
     sound_urls <-
       (if truthy (PList video_urls) then sounds_loop video_urls i []
        else ret (replicate (length video_urls) PNone)) ;;
     final_video_url <- merge_video_clips video_urls sound_urls ;;
     ret {| pr_idea := i; pr_scenes := scenes; pr_video_urls := video_urls;
            pr_sound_urls := sound_urls; pr_final_video_url := final_video_url |}).

(** A call to one of the three providers. *)
Definition provider_call (r : request) : Prop :=
  match r with
  | Chat _ _ | Get _ => True
  | Post u _ => u = wavespeed_url \/ u = fal_audio_url \/ u = fal_ffmpeg_url
  | _ => False
  end.

(** ** Requests of the sound stage *)

(** The answer to a submission lets the stage go on: a response that is no
    HTTP error. *)
Definition refused (a : reply) : Prop :=
  match a with
  | Response r => 400 <= status_code r < 600
  | _ => True
  end.

(** A call that is a query, not a submission. *)
Definition is_query (r : request) : Prop :=
  match r with
  | Get _ => True
  | _ => False
  end.

(** ** The calls of each step *)

Definition chat_call (r : request) : Prop :=
  match r with
  | Chat _ _ => True
  | _ => False
  end.

Definition clip_call (r : request) : Prop :=
  match r with
  | Post u _ => u = wavespeed_url
  | Get _ => True
  | _ => False
  end.

Definition sound_call (r : request) : Prop :=
  match r with
  | Post u _ => u = fal_audio_url
  | Get _ => True
  | _ => False
  end.

Definition final_call (r : request) : Prop :=
  match r with
  | Post u _ => u = fal_ffmpeg_url
  | Get _ | Download _ | SaveVideo _ | WriteFile _ _ => True
  | _ => False
  end.

(** The writes of the steps: the status ["processing"] and the progress
    texts of the job. *)
Definition step_write_of (job_id : string) (j : string) (w : write) : Prop :=
  j = job_id /\ (w = SetStatus "processing" \/ exists s, w = SetProgress (Text s)).

(** ** The answer of the idea stage *)

(** The idea of a parsed answer: the five fields of the first element. *)
Definition idea_of (parsed : pyval) : result VideoIdea :=
  match py_item0 parsed with
  | Raise e => Raise e
  | Ok idea_data =>
      match py_item idea_data "Caption" with
      | Raise e => Raise e
      | Ok caption =>
      match py_item idea_data "Idea" with
      | Raise e => Raise e
      | Ok idea =>
      match py_item idea_data "Environment" with
      | Raise e => Raise e
      | Ok environment =>
      match py_item idea_data "Sound" with
      | Raise e => Raise e
      | Ok sound =>
      match py_item idea_data "Status" with
      | Raise e => Raise e
      | Ok status =>
          Ok {| caption := caption; idea := idea; environment := environment;
                sound := sound; status := status |}
      end end end end end
  end.

(** The text that is parsed: the answer without blanks around it, without
    a leading [```json] and without a trailing [```]. *)
Definition unfenced (content : string) : string :=
  let content := strip content in
  let content := if startswith content "```json" then drop_first 7 content else content in
  if endswith content "```" then drop_last 3 content else content.

(** * Properties *)

(** ** Events of a computation *)

Lemma emits_ret {A} P (a : A) : emits P (ret a).
Proof. intros w. exists []. simpl. rewrite app_nil_r. auto. Qed.

Lemma emits_raise {A} P e : emits P (@raise A e).
Proof. intros w. exists []. simpl. rewrite app_nil_r. auto. Qed.

Lemma emits_lift {A} P (r : result A) : emits P (lift r).
Proof. intros w. exists []. simpl. rewrite app_nil_r. auto. Qed.

Lemma emits_get_world P : emits P get_world.
Proof. intros w. exists []. simpl. rewrite app_nil_r. auto. Qed.

Lemma emits_time P : emits P time.
Proof. intros w. exists []. simpl. rewrite app_nil_r. auto. Qed.

Lemma emits_emit (P : event -> Prop) e : P e -> emits P (emit e).
Proof. intros H w. exists [e]. simpl. auto. Qed.

Lemma emits_sleep (P : event -> Prop) d : P (ESleep d) -> emits P (sleep d).
Proof. intros H w. exists [ESleep d]. simpl. auto. Qed.

Lemma emits_call (P : event -> Prop) r : P (ECall r) -> emits P (call r).
Proof.
  intros H w. exists [ECall r]. unfold call.
  destruct (oracle w (calls w) r) as [latency a]. simpl. auto.
Qed.

Lemma emits_bind {A B} P (c : M A) (k : A -> M B) :
  emits P c -> (forall a, emits P (k a)) -> emits P (bind c k).
Proof.
  intros Hc Hk w. unfold bind.
  destruct (Hc w) as (es & Ht & Hes).
  destruct (c w) as [[a | e] w1]; simpl in *.
  - destruct (Hk a w1) as (es' & Ht' & Hes').
    exists (es ++ es')%list. rewrite Ht', Ht, app_assoc. split; [done|].
    apply Forall_app; auto.
  - exists es. auto.
Qed.

Lemma emits_try {A} P (c : M A) catches h :
  emits P c -> (forall e, emits P (h e)) -> emits P (try_except c catches h).
Proof.
  intros Hc Hh w. unfold try_except.
  destruct (Hc w) as (es & Ht & Hes).
  destruct (c w) as [[a | e] w1]; simpl in *.
  - exists es. auto.
  - destruct (catches w1 e).
    + destruct (Hh e w1) as (es' & Ht' & Hes').
      exists (es ++ es')%list. rewrite Ht', Ht, app_assoc. split; [done|].
      apply Forall_app; auto.
    + exists es. auto.
Qed.

Lemma emits_logged {A} P (c : M A) : emits P c -> emits P (logged c).
Proof. intros H. apply emits_try; [done|]. intros e. apply emits_raise. Qed.

Lemma emits_weaken {A} (P Q : event -> Prop) (c : M A) :
  (forall e, P e -> Q e) -> emits P c -> emits Q c.
Proof.
  intros HPQ Hc w. destruct (Hc w) as (es & Ht & Hes).
  exists es. split; [done|]. eapply Forall_impl; eauto.
Qed.

(** [logged] changes nothing. *)
Lemma logged_run {A} (c : M A) w : logged c w = c w.
Proof.
  unfold logged, try_except. destruct (c w) as [[a | e] w1]; reflexivity.
Qed.

Lemma emits_raise_for_status P r : emits P (raise_for_status r).
Proof. unfold raise_for_status. destruct (_ && _); [apply emits_raise | apply emits_ret]. Qed.

Lemma emits_response_json P r : emits P (response_json r).
Proof. unfold response_json. destruct (body r); [apply emits_ret | apply emits_raise]. Qed.

Lemma emits_requests_get (P : event -> Prop) url :
  P (ECall (Get url)) -> emits P (requests_get url).
Proof.
  intros H. unfold requests_get. apply emits_bind; [by apply emits_call|].
  intros []; first [apply emits_ret | apply emits_raise].
Qed.

Lemma emits_requests_post (P : event -> Prop) url payload :
  P (ECall (Post url payload)) -> emits P (requests_post url payload).
Proof.
  intros H. unfold requests_post. apply emits_bind; [by apply emits_call|].
  intros []; first [apply emits_ret | apply emits_raise].
Qed.

(** Steps through a computation, leaving the events of its calls, sleeps
    and writes, and the stages it calls, as goals. *)
Ltac emits_step :=
  lazymatch goal with
  | |- emits _ (ret _) => apply emits_ret
  | |- emits _ (raise _) => apply emits_raise
  | |- emits _ (lift _) => apply emits_lift
  | |- emits _ get_world => apply emits_get_world
  | |- emits _ time => apply emits_time
  | |- emits _ (logged _) => apply emits_logged
  | |- emits _ (bind _ _) => apply emits_bind; [| intros ?]
  | |- emits _ (try_except _ _ _) => apply emits_try; [| intros ?]
  | |- emits _ (sleep _) => apply emits_sleep
  | |- emits _ (emit _) => apply emits_emit
  | |- emits _ (set_status _ _) => apply emits_emit
  | |- emits _ (set_progress _ _) => apply emits_emit
  | |- emits _ (call _) => apply emits_call
  | |- emits _ (raise_for_status _) => apply emits_raise_for_status
  | |- emits _ (response_json _) => apply emits_response_json
  | |- emits _ (requests_get _) => apply emits_requests_get
  | |- emits _ (requests_post _ _) => apply emits_requests_post
  | |- emits _ (if ?b then _ else _) => destruct b
  | |- emits _ (match ?x with _ => _ end) => destruct x
  | |- emits _ (let _ := _ in _) => cbv zeta
  end.
Ltac emits_auto := repeat emits_step.

Lemma new_events_app w w' es :
  trace w' = (trace w ++ es)%list -> new_events w w' = es.
Proof. intros H. unfold new_events. rewrite H. by rewrite drop_app_length. Qed.

(** ** The pollers: one turn of the loop *)

Lemma py_get_raise d k v e : py_get d k v = Raise e -> lookup_error e.
Proof. destruct d; simpl; intros; simplify_eq; done. Qed.

Lemma py_item_raise d k e : py_item d k = Raise e -> lookup_error e.
Proof. destruct d; simpl; intros; repeat case_match; simplify_eq; done. Qed.

Lemma py_item0_raise d e : py_item0 d = Raise e -> lookup_error e.
Proof. destruct d; simpl; intros; repeat case_match; simplify_eq; done. Qed.

Lemma py_contains_raise k d e : py_contains k d = Raise e -> lookup_error e.
Proof. destruct d; simpl; intros; simplify_eq; done. Qed.

Lemma wavespeed_status_raise d e : wavespeed_status d = Raise e -> lookup_error e.
Proof.
  unfold wavespeed_status. intros H.
  repeat case_match; simplify_eq; eauto using py_get_raise.
Qed.

Lemma eq_str_true v s : eq_str v s = true -> v = PStr s.
Proof.
  destruct v; simpl; try done. intros H. apply String.eqb_eq in H. by subst.
Qed.

Ltac pure_raise :=
  repeat match goal with
    | H : py_get _ _ _ = Raise _ |- _ => apply py_get_raise in H
    | H : py_item _ _ = Raise _ |- _ => apply py_item_raise in H
    | H : py_item0 _ = Raise _ |- _ => apply py_item0_raise in H
    | H : py_contains _ _ = Raise _ |- _ => apply py_contains_raise in H
    | H : wavespeed_status _ = Raise _ |- _ => apply wavespeed_status_raise in H
    end.

Lemma find_video_url_run item c w r w' :
  find_video_url item c w = (r, w') ->
  w' = w /\
  match r with
  | Ok _ => True
  | Raise e => lookup_error e \/ e = NoVideoUrl item
  end.
Proof.
  unfold find_video_url, bind, lift, ret, raise.
  intros H. repeat case_match; simplify_eq; pure_raise; auto.
Qed.

Ltac run_turn :=
  unfold requests_get, raise_for_status, response_json;
  unfold try_except, bind, call, lift, ret, raise, sleep, get_world,
    any_exception, is_request_exception.

Ltac close_turn tac :=
  split; [reflexivity|];
  eexists; split; [tac|];
  simpl; rewrite <- ?app_assoc; simpl;
  repeat split; auto; try lia;
  repeat match goal with
    | H : eq_str _ _ = true |- _ => apply eq_str_true in H; subst
    end;
  eexists _, _, _; split_and!; eauto; lia.

Lemma fal_turn_run status_url item_name i w :
  turn_post (fal_turn_events status_url) (fal_reports_failure status_url) item_name i w
    (fst (fal_turn status_url item_name i w))
    (snd (fal_turn status_url item_name i w)).
Proof.
  unfold fal_turn. run_turn.
  destruct (oracle w (calls w) (Get status_url)) as [lat a] eqn:Ho.
  repeat (case_match; simplify_eq/=);
    repeat match goal with
      | H : find_video_url _ _ _ = _ |- _ =>
          apply find_video_url_run in H; destruct H as [-> H]
      end;
    pure_raise; simpl in *; try done.
  all: unfold turn_post, fal_reports_failure; simpl.
  all: try (destruct_or?; simplify_eq/=; try done).
  all: first [ close_turn ltac:(apply fte_status) | close_turn ltac:(apply fte_fetch) ].
Qed.

Lemma wavespeed_turn_run result_url item_name i w :
  turn_post (fun t => t = [ECall (Get result_url)])
    (wavespeed_reports_failure result_url) item_name i w
    (fst (wavespeed_turn result_url item_name i w))
    (snd (wavespeed_turn result_url item_name i w)).
Proof.
  unfold wavespeed_turn. run_turn.
  destruct (oracle w (calls w) (Get result_url)) as [lat a] eqn:Ho.
  repeat (case_match; simplify_eq/=); pure_raise; simpl in *; try done.
  all: unfold turn_post, wavespeed_reports_failure; simpl.
  all: close_turn ltac:(reflexivity).
Qed.

(** ** The pollers: a whole session *)

Lemma env_oracle w w' : env w' = env w -> oracle w' = oracle w.
Proof. intros H. apply (f_equal oracle) in H. exact H. Qed.

Lemma env_json_error w w' :
  env w' = env w ->
  json_error_is_request_exception w' = json_error_is_request_exception w.
Proof. intros H. apply (f_equal json_error_is_request_exception) in H. exact H. Qed.

Lemma poll_error_env w w' item_name e :
  env w' = env w -> poll_error w' item_name e -> poll_error w item_name e.
Proof. intros Hw%env_json_error. destruct e; simpl; congruence. Qed.

Lemma poll_loop_S fuel body item_name start_time max_wait_time i w :
  poll_loop (S fuel) body item_name start_time max_wait_time i w =
  if now w - start_time <? max_wait_time then
    match body i w with
    | (Ok (Return v), w') => (Ok v, w')
    | (Ok (Next i'), w') => poll_loop fuel body item_name start_time max_wait_time i' w'
    | (Raise e, w') => (Raise e, w')
    end
  else (Raise (TimedOut item_name max_wait_time), w).
Proof.
  simpl. unfold bind, time. destruct (_ <? _); [|done].
  destruct (body i w) as [[[v | i'] | e] w1]; done.
Qed.

Lemma poll_loop_run events_ok reported body item_name start_time max_wait_time :
  (forall w w' n msg, env w' = env w -> reported w' n msg -> reported w n msg) ->
  (forall i w,
     turn_post events_ok reported item_name i w (fst (body i w)) (snd (body i w))) ->
  forall fuel i w,
    1 <= i ->
    Z.max 0 (max_wait_time - (now w - start_time)) < Z.of_nat fuel ->
    poll_post events_ok reported item_name start_time max_wait_time i w
      (fst (poll_loop fuel body item_name start_time max_wait_time i w))
      (snd (poll_loop fuel body item_name start_time max_wait_time i w)).
Proof.
  intros Hrep Hbody. unfold poll_post.
  induction fuel as [|fuel IH]; intros i w Hi Hfuel.
  - simpl in Hfuel. lia.
  - rewrite poll_loop_S.
    destruct (now w - start_time <? max_wait_time) eqn:Ht.
    + specialize (Hbody i w).
      destruct (body i w) as [[[v | i'] | e] w1]; simpl in Hbody;
        destruct Hbody as (Henv & t & Ht_ok & Hpost).
      * simpl. split; [done|]. split; [|done].
        exists t. split; [done|]. by apply session_last.
      * destruct Hpost as (Htr & Hnow & Hi').
        assert (1 <= i') by lia.
        destruct (IH i' w1) as (Henv' & (es & Htr' & Hses) & Hres); [done|lia|].
        split; [congruence|]. split.
        -- exists (t ++ ESleep i :: es)%list. split.
           ++ rewrite Htr', Htr, <- !app_assoc. reflexivity.
           ++ by eapply session_next.
        -- destruct (fst (poll_loop _ _ _ _ _ _ _)) as [|e]; [done|].
           destruct Hres as [?|[Herr Hmsg]]; [by left|right].
           split; [by eapply poll_error_env|].
           destruct e; try done. destruct Hmsg as [n Hn]. exists n. eauto.
      * simpl. destruct Hpost as (Htr & Herr & Hmsg).
        split; [done|]. split.
        -- exists t. split; [done|]. by apply session_last.
        -- right. split; [done|]. destruct e; try done. eauto.
    + simpl. split; [done|]. split.
      * exists []. rewrite app_nil_r. split; [done|]. apply session_over.
      * left. split; [done|]. lia.
Qed.

Lemma poll_fuel_enough w max_wait_time :
  Z.max 0 (max_wait_time - (now w - now w)) < Z.of_nat (poll_fuel max_wait_time).
Proof. unfold poll_fuel. lia. Qed.

Lemma poll_fal_unfold request_id item_name base_url max_wait_time w :
  _poll_fal_completion request_id item_name base_url max_wait_time w =
  poll_loop (poll_fuel max_wait_time) (fal_turn (fal_status_url request_id) item_name)
    item_name (now w) max_wait_time 5 w.
Proof. reflexivity. Qed.

Lemma poll_wavespeed_unfold prediction_id item_name max_wait_time w :
  _poll_wavespeed_completion prediction_id item_name max_wait_time w =
  poll_loop (poll_fuel max_wait_time)
    (wavespeed_turn (wavespeed_result_url prediction_id) item_name)
    item_name (now w) max_wait_time 5 w.
Proof. reflexivity. Qed.

Lemma fal_reports_failure_env url w w' n msg :
  env w' = env w -> fal_reports_failure url w' n msg -> fal_reports_failure url w n msg.
Proof. intros Hw%env_oracle. unfold fal_reports_failure. by rewrite Hw. Qed.

Lemma wavespeed_reports_failure_env url w w' n msg :
  env w' = env w ->
  wavespeed_reports_failure url w' n msg -> wavespeed_reports_failure url w n msg.
Proof. intros Hw%env_oracle. unfold wavespeed_reports_failure. by rewrite Hw. Qed.

Lemma poll_fal_run request_id item_name base_url max_wait_time w :
  poll_post (fal_turn_events (fal_status_url request_id))
    (fal_reports_failure (fal_status_url request_id)) item_name (now w) max_wait_time 5 w
    (fst (_poll_fal_completion request_id item_name base_url max_wait_time w))
    (snd (_poll_fal_completion request_id item_name base_url max_wait_time w)).
Proof.
  rewrite poll_fal_unfold.
  apply poll_loop_run;
    [apply fal_reports_failure_env | apply fal_turn_run | lia | apply poll_fuel_enough].
Qed.

Lemma poll_wavespeed_run prediction_id item_name max_wait_time w :
  poll_post (fun t => t = [ECall (Get (wavespeed_result_url prediction_id))])
    (wavespeed_reports_failure (wavespeed_result_url prediction_id))
    item_name (now w) max_wait_time 5 w
    (fst (_poll_wavespeed_completion prediction_id item_name max_wait_time w))
    (snd (_poll_wavespeed_completion prediction_id item_name max_wait_time w)).
Proof.
  rewrite poll_wavespeed_unfold.
  apply poll_loop_run;
    [apply wavespeed_reports_failure_env | apply wavespeed_turn_run | lia
    | apply poll_fuel_enough].
Qed.

(** ** The pollers: what a session ends with *)




(** ** The pollers: the poll interval *)













(** ** The Fal poller: the status URL and the status ['failed'] *)

(** A turn of the Fal poller on an answer whose status the poller does
    not know. *)
Lemma fal_turn_unrecognized status_url item_name i w latency r d s :
  oracle w (calls w) (Get status_url) = (latency, Response r) ->
  status_code r < 400 \/ 600 <= status_code r ->
  body r = Some d ->
  py_get d "status" (PStr "unknown") = Ok (PStr s) ->
  in_strs (PStr s) ["completed"; "COMPLETED"] = false ->
  eq_str (PStr s) "failed" = false ->
  in_strs (PStr s) ["IN_QUEUE"; "IN_PROGRESS"; "queued"; "in_progress"; "processing"]
    = false ->
  fal_turn status_url item_name i w =
    (Ok (Next i),
     set_state w (now w + Z.of_N latency + i) (S (calls w))
       (trace w ++ [ECall (Get status_url); ESleep i])).
Proof.
  intros Ho Hcode Hbody Hstatus H1 H2 H3.
  unfold fal_turn. run_turn. rewrite Ho. simpl in *.
  assert ((status_code r =? 400) = false) as -> by lia.
  assert ((400 <=? status_code r) && (status_code r <? 600) = false) as -> by lia.
  simpl. rewrite Hbody. simpl. rewrite Hstatus. simpl.
  rewrite H1, H2, H3. simpl.
  by rewrite <- app_assoc.
Qed.

(** A turn of the Fal poller on an answer whose status is ['failed']. *)
Lemma fal_turn_failed status_url item_name i w msg :
  fal_reports_failure status_url w (calls w) msg ->
  fst (fal_turn status_url item_name i w) = Raise (GenerationFailed item_name msg).
Proof.
  intros (latency & r & d & Ho & Hcode & Hbody & Hstatus & Hmsg).
  unfold fal_turn. run_turn. rewrite Ho. simpl.
  assert ((status_code r =? 400) = false) as -> by lia.
  assert ((400 <=? status_code r) && (status_code r <? 600) = false) as -> by lia.
  simpl. rewrite Hbody. simpl. rewrite Hstatus. simpl. rewrite Hmsg. reflexivity.
Qed.

(** A loop whose every turn sleeps and goes on ends with the timeout. *)
Lemma poll_loop_stuck (P : world -> Prop) body item_name start_time max_wait_time t :
  (forall i w, P w ->
     exists w', body i w = (Ok (Next i), w') /\ P w' /\ now w + i <= now w' /\
                trace w' = (trace w ++ t ++ [ESleep i])%list) ->
  forall fuel i w,
    1 <= i -> P w ->
    Z.max 0 (max_wait_time - (now w - start_time)) < Z.of_nat fuel ->
    exists k w',
      poll_loop fuel body item_name start_time max_wait_time i w =
        (Raise (TimedOut item_name max_wait_time), w') /\
      max_wait_time <= now w' - start_time /\
      trace w' = (trace w ++ concat (replicate k (t ++ [ESleep i])))%list.
Proof.
  intros Hbody. induction fuel as [|fuel IH]; intros i w Hi HP Hfuel.
  - simpl in Hfuel. lia.
  - rewrite poll_loop_S.
    destruct (now w - start_time <? max_wait_time) eqn:Ht.
    + destruct (Hbody i w HP) as (w1 & -> & HP1 & Hnow & Htr).
      destruct (IH i w1) as (k & w' & -> & Hend & Htr'); [done|done|lia|].
      exists (S k), w'. split; [done|]. split; [done|].
      rewrite Htr', Htr. simpl. by rewrite <- !app_assoc.
    + exists 0%nat, w. split; [done|]. split; [lia|].
      simpl. by rewrite app_nil_r.
Qed.

(** A turn of the Fal poller on an answer whose status is neither a
    completed one nor ['failed']: it sleeps and goes on, with a longer
    interval when it knows the status and the same one when it does not. *)
Lemma fal_turn_waiting status_url item_name i w latency r d s :
  oracle w (calls w) (Get status_url) = (latency, Response r) ->
  status_code r < 400 \/ 600 <= status_code r ->
  body r = Some d ->
  py_get d "status" (PStr "unknown") = Ok (PStr s) ->
  keeps_waiting s = true ->
  fal_turn status_url item_name i w =
    (Ok (Next (if fal_known_in_progress s then Z.min (i + 2) 15 else i)),
     set_state w (now w + Z.of_N latency + i) (S (calls w))
       (trace w ++ [ECall (Get status_url); ESleep i])).
Proof.
  intros Ho Hcode Hbody Hstatus Hwait.
  unfold keeps_waiting in Hwait. apply andb_true_iff in Hwait as [H1 H2].
  apply negb_true_iff in H1, H2.
  unfold fal_turn. run_turn. rewrite Ho. simpl in *.
  assert ((status_code r =? 400) = false) as -> by lia.
  assert ((400 <=? status_code r) && (status_code r <? 600) = false) as -> by lia.
  simpl. rewrite Hbody. simpl. rewrite Hstatus. simpl.
  rewrite H1, H2. unfold fal_known_in_progress. simpl.
  destruct ((s =? "IN_QUEUE")%string || _); simpl; rewrite <- ?app_assoc; reflexivity.
Qed.

(** A session whose answers are all statuses on which the poller waits
    ends with the timeout. *)
Lemma fal_loop_waits status_url item_name start_time max_wait_time w :
  (forall n, (calls w <= n)%nat ->
     exists s, fal_answers status_url w n s /\ keeps_waiting s = true) ->
  forall fuel i w0,
    1 <= i -> oracle w0 = oracle w -> (calls w <= calls w0)%nat ->
    Z.max 0 (max_wait_time - (now w0 - start_time)) < Z.of_nat fuel ->
    exists w',
      poll_loop fuel (fal_turn status_url item_name) item_name start_time
        max_wait_time i w0 = (Raise (TimedOut item_name max_wait_time), w') /\
      max_wait_time <= now w' - start_time.
Proof.
  intros Hall. induction fuel as [|fuel IH]; intros i w0 Hi Ho Hc Hfuel.
  - simpl in Hfuel. lia.
  - rewrite poll_loop_S.
    destruct (now w0 - start_time <? max_wait_time) eqn:Ht.
    + destruct (Hall (calls w0) Hc)
        as (s & (latency & r & d & Hans & Hcode & Hbody & Hs) & Hwait).
      rewrite <- Ho in Hans.
      rewrite (fal_turn_waiting _ _ _ _ _ _ _ _ Hans Hcode Hbody Hs Hwait).
      apply IH; simpl; [destruct (fal_known_in_progress s); lia|done|lia|lia].
    + exists w0. split; [done|]. lia.
Qed.

(** A session that is answered [k] times by a status on which the poller
    waits, and then by ['failed']: the failure is raised, unless the time
    is over before the poller sees it. *)
Lemma fal_loop_fails status_url item_name start_time max_wait_time w msg :
  forall k fuel i w0,
    1 <= i <= 15 -> oracle w0 = oracle w ->
    (forall j, (j < k)%nat ->
       exists s, fal_answers status_url w (calls w0 + j) s /\ keeps_waiting s = true) ->
    fal_reports_failure status_url w (calls w0 + k) msg ->
    Z.max 0 (max_wait_time - (now w0 - start_time)) < Z.of_nat fuel ->
    let run := poll_loop fuel (fal_turn status_url item_name) item_name start_time
                 max_wait_time i w0 in
    (now w0 - start_time + query_time status_url w (calls w0) k + 15 * Z.of_nat k
       < max_wait_time ->
     fst run = Raise (GenerationFailed item_name msg)) /\
    (fst run = Raise (GenerationFailed item_name msg) \/
     (fst run = Raise (TimedOut item_name max_wait_time) /\
      max_wait_time <= now (snd run) - start_time)).
Proof.
  induction k as [|k IH]; intros fuel i w0 Hi Ho Hpre Hfail Hfuel;
    (destruct fuel as [|fuel]; [simpl in Hfuel; lia|]);
    cbv zeta; rewrite poll_loop_S;
    destruct (now w0 - start_time <? max_wait_time) eqn:Ht.
  - rewrite Nat.add_0_r in Hfail.
    assert (fal_reports_failure status_url w0 (calls w0) msg) as Hfail0.
    { unfold fal_reports_failure. by rewrite Ho. }
    pose proof (fal_turn_failed _ item_name i w0 msg Hfail0) as Hturn.
    destruct (fal_turn _ _ _ _) as [[[v | i'] | e] w1]; simpl in Hturn; simplify_eq.
    simpl. auto.
  - simpl. split; [lia|]. right. split; [done|lia].
  - destruct (Hpre 0%nat ltac:(lia))
      as (s & (latency & r & d & Hans & Hcode & Hbody & Hs) & Hwait).
    rewrite Nat.add_0_r, <- Ho in Hans.
    rewrite (fal_turn_waiting _ _ _ _ _ _ _ _ Hans Hcode Hbody Hs Hwait).
    match goal with
    | |- context [poll_loop fuel _ _ _ _ ?i' ?w1] =>
        destruct (IH fuel i' w1) as [IH1 IH2]
    end.
    + destruct (fal_known_in_progress s); lia.
    + done.
    + intros j Hj. cbn [calls set_state].
      replace (S (calls w0) + j)%nat with (calls w0 + S j)%nat by lia.
      apply Hpre. lia.
    + cbn [calls set_state].
      replace (S (calls w0) + k)%nat with (calls w0 + S k)%nat by lia. done.
    + simpl. lia.
    + split; [|exact IH2].
      intros Htime. apply IH1. simpl.
      change (query_time status_url w (calls w0) (S k))
        with (Z.of_N (fst (oracle w (calls w0) (Get status_url)))
              + query_time status_url w (S (calls w0)) k) in Htime.
      rewrite <- Ho, Hans in Htime. simpl in Htime. lia.
  - cbn [fst snd]. split; [|right; split; [done|lia]].
    intros Htime.
    assert (0 <= query_time status_url w (calls w0) (S k)).
    { generalize (calls w0) (S k). intros n m. revert n.
      induction m as [|m IHm]; intros n; simpl; [lia|]. specialize (IHm (S n)). lia. }
    lia.
Qed.

(** Every session of the Fal poller that is given some time starts with a
    query of the status URL. *)
Lemma poll_fal_first request_id item_name base_url max_wait_time w :
  0 < max_wait_time ->
  exists es,
    trace (snd (_poll_fal_completion request_id item_name base_url max_wait_time w)) =
      (trace w ++ ECall (Get (fal_status_url request_id)) :: es)%list.
Proof.
  intros Hmax. rewrite poll_fal_unfold. unfold poll_fuel. rewrite poll_loop_S.
  assert ((now w - now w <? max_wait_time) = true) as -> by lia.
  pose proof (fal_turn_run (fal_status_url request_id) item_name 5 w) as Hturn.
  destruct (fal_turn _ _ _ _) as [[[v | i'] | e] w1]; simpl in Hturn;
    destruct Hturn as (Henv & t & Ht & Hpost).
  - simpl. rewrite Hpost. destruct Ht; eexists; reflexivity.
  - destruct Hpost as (Htr & Hnow & Hi').
    destruct (poll_loop_run (fal_turn_events (fal_status_url request_id))
                (fal_reports_failure (fal_status_url request_id))
                (fal_turn (fal_status_url request_id) item_name) item_name
                (now w) max_wait_time (fal_reports_failure_env _)
                (fal_turn_run (fal_status_url request_id) item_name)
                (Z.to_nat max_wait_time) i' w1)
      as (_ & (es & Htr' & _) & _); [lia|lia|].
    rewrite Htr', Htr. destruct Ht; simpl; rewrite <- ?app_assoc; eexists; reflexivity.
  - simpl. destruct Hpost as (Htr & _). rewrite Htr.
    destruct Ht; eexists; reflexivity.
Qed.

(** A session that is given no time makes no call. *)
Lemma poll_fal_no_time request_id item_name base_url max_wait_time w :
  max_wait_time <= 0 ->
  _poll_fal_completion request_id item_name base_url max_wait_time w =
    (Raise (TimedOut item_name max_wait_time), w).
Proof.
  intros Hmax. rewrite poll_fal_unfold. unfold poll_fuel. rewrite poll_loop_S.
  by assert ((now w - now w <? max_wait_time) = false) as -> by lia.
Qed.

(** C9.  The Fal poller takes the status ['failed'], and that string
    only, as the provider's failure, at whatever turn of a session it
    comes.
    - After [k] answers with statuses on which the poller waits (those it
      knows as in progress, and those it does not know, ['FAILED'] among
      them), an answer ['failed'] makes the poller raise the failure with
      the reason of that answer, unless [max_wait_time] is over before,
      and then it raises the timeout; the failure it is when the [k]
      queries and [k] sleeps of fifteen seconds fit into
      [max_wait_time].
    - Whenever the poller raises the failure, some answer had exactly the
      status ['failed'].
    - ['FAILED'] is a status on which the poller waits, ['failed'] is
      not; a turn answered by a status on which it waits sleeps for the
      poll interval and goes on, with the same interval when the status
      is not one of the five known ones, as for ['FAILED'].
    - When every answer from the start of the session on is a status on
      which the poller waits (say some that are in progress, then
      ['FAILED'] for ever), the session never raises the failure: it ends
      with the timeout once [max_wait_time] has elapsed.
    - When the provider answers ['FAILED'] from the start, every turn is
      a status query followed by a sleep of five seconds. *)
Theorem fal_failed_is_case_sensitive (w : world)
    (request_id item_name base_url : string) (max_wait_time : Z) :
  let status_url := fal_status_url request_id in
  let run := _poll_fal_completion request_id item_name base_url max_wait_time w in
  (forall k msg,
     (forall j, (j < k)%nat ->
        exists s, fal_answers status_url w (calls w + j) s /\ keeps_waiting s = true) ->
     fal_reports_failure status_url w (calls w + k) msg ->
     (query_time status_url w (calls w) k + 15 * Z.of_nat k < max_wait_time ->
      fst run = Raise (GenerationFailed item_name msg)) /\
     (fst run = Raise (GenerationFailed item_name msg) \/
      (fst run = Raise (TimedOut item_name max_wait_time) /\
       max_wait_time <= now (snd run) - now w))) /\
  (forall msg,
     fst run = Raise (GenerationFailed item_name msg) ->
     exists n, fal_reports_failure status_url w n msg) /\
  (keeps_waiting "FAILED" = true /\ fal_known_in_progress "FAILED" = false /\
   keeps_waiting "failed" = false) /\
  (forall i w0 s,
     fal_answers status_url w0 (calls w0) s -> keeps_waiting s = true ->
     fst (fal_turn status_url item_name i w0) =
       Ok (Next (if fal_known_in_progress s then Z.min (i + 2) 15 else i)) /\
     new_events w0 (snd (fal_turn status_url item_name i w0)) =
       [ECall (Get status_url); ESleep i]) /\
  (forall i w0 msg,
     fal_reports_failure status_url w0 (calls w0) msg ->
     fst (fal_turn status_url item_name i w0) = Raise (GenerationFailed item_name msg)) /\
  ((forall n, (calls w <= n)%nat ->
      exists s, fal_answers status_url w n s /\ keeps_waiting s = true) ->
   fst run = Raise (TimedOut item_name max_wait_time) /\
   max_wait_time <= now (snd run) - now w) /\
  (fal_always_answers status_url w "FAILED" ->
     fst run = Raise (TimedOut item_name max_wait_time) /\
     max_wait_time <= now (snd run) - now w /\
     exists k, new_events w (snd run) =
               concat (replicate k [ECall (Get status_url); ESleep 5])).
Proof.
  simpl. split_and!; try reflexivity.
  - intros k msg Hpre Hfail. rewrite poll_fal_unfold.
    destruct (fal_loop_fails (fal_status_url request_id) item_name (now w)
                max_wait_time w msg k (poll_fuel max_wait_time) 5 w)
      as [H1 H2]; [lia|done|done|done|apply poll_fuel_enough|].
    split; [|exact H2]. intros Htime. apply H1. lia.
  - intros msg Hrun.
    destruct (poll_fal_run request_id item_name base_url max_wait_time w)
      as (_ & _ & Hres).
    rewrite Hrun in Hres. destruct Hres as [[? _] | [_ Hmsg]]; done.
  - intros i w0 s (latency & r & d & Hans & Hcode & Hbody & Hs) Hwait.
    rewrite (fal_turn_waiting _ _ _ _ _ _ _ _ Hans Hcode Hbody Hs Hwait).
    split; [done|]. by apply new_events_app.
  - intros i w0 msg. apply fal_turn_failed.
  - intros Hall. rewrite poll_fal_unfold.
    destruct (fal_loop_waits (fal_status_url request_id) item_name (now w)
                max_wait_time w Hall (poll_fuel max_wait_time) 5 w)
      as (w' & -> & Hend); [lia|done|lia|apply poll_fuel_enough|done].
  - intros Halways. rewrite poll_fal_unfold.
    destruct (poll_loop_stuck (fun w' => oracle w' = oracle w)
                (fal_turn (fal_status_url request_id) item_name) item_name
                (now w) max_wait_time [ECall (Get (fal_status_url request_id))]
                ) with (fuel := poll_fuel max_wait_time) (i := 5) (w := w)
      as (k & w' & Hrun & Hend & Htr).
    + intros i w1 Hw1.
      destruct (Halways (calls w1)) as (latency & r & d & Ho & Hcode & Hbody & Hs).
      rewrite <- Hw1 in Ho.
      eexists. split; [|split_and!].
      * eapply fal_turn_unrecognized; eauto.
      * done.
      * simpl. lia.
      * simpl. by rewrite <- ?app_assoc.
    + lia.
    + done.
    + apply poll_fuel_enough.
    + rewrite Hrun. simpl. split; [done|]. split; [done|].
      exists k. by apply new_events_app.
Qed.

(** Two sessions of five minutes.  In the first the provider answers
    ['IN_PROGRESS'], ['IN_QUEUE'] and then ['failed']: the poller raises
    the failure with the provider's reason.  In the second it answers
    ['IN_PROGRESS'] and then ['FAILED'] for ever: the poller raises the
    timeout. *)
Lemma fal_failed_is_case_sensitive_witness :
  fst (_poll_fal_completion "req-1" "ASMR sound"
         "https://queue.fal.run/fal-ai/mmaudio-v2/requests/" 300
         (fal_script ["IN_PROGRESS"; "IN_QUEUE"] "failed"))
    = Raise (GenerationFailed "ASMR sound" (PStr "out of memory")) /\
  fst (_poll_fal_completion "req-1" "ASMR sound"
         "https://queue.fal.run/fal-ai/mmaudio-v2/requests/" 300
         (fal_script ["IN_PROGRESS"] "FAILED"))
    = Raise (TimedOut "ASMR sound" 300) /\
  300 <= now (snd (_poll_fal_completion "req-1" "ASMR sound"
                     "https://queue.fal.run/fal-ai/mmaudio-v2/requests/" 300
                     (fal_script ["IN_PROGRESS"] "FAILED")))
         - now (fal_script ["IN_PROGRESS"] "FAILED").
Proof.
  split.
  - pose proof (fal_failed_is_case_sensitive
                  (fal_script ["IN_PROGRESS"; "IN_QUEUE"] "failed") "req-1" "ASMR sound"
                  "https://queue.fal.run/fal-ai/mmaudio-v2/requests/" 300) as H.
    cbv zeta in H. destruct H as (H & _).
    destruct (H 2%nat (PStr "out of memory")) as [Hfailed _].
    + intros j Hj. exists (nth j ["IN_PROGRESS"; "IN_QUEUE"] "failed").
      split.
      * eexists _, _, _. split; [reflexivity|]. split; [left; simpl; lia|].
        split; reflexivity.
      * destruct j as [|[|j]]; [reflexivity|reflexivity|lia].
    + eexists _, _, _. split; [reflexivity|]. split; [left; simpl; lia|].
      split; [reflexivity|]. split; reflexivity.
    + apply Hfailed. vm_compute. reflexivity.
  - pose proof (fal_failed_is_case_sensitive
                  (fal_script ["IN_PROGRESS"] "FAILED") "req-1" "ASMR sound"
                  "https://queue.fal.run/fal-ai/mmaudio-v2/requests/" 300) as H.
    cbv zeta in H. destruct H as (_ & _ & _ & _ & _ & H & _).
    apply H.
    intros n _. exists (nth n ["IN_PROGRESS"] "FAILED").
    split.
    + eexists _, _, _. split; [reflexivity|]. split; [left; simpl; lia|].
      split; reflexivity.
    + destruct n as [|[|n]]; reflexivity.
Defined.

(** A session that is not empty starts with a query of the status URL. *)
Lemma session_first status_url i es :
  session (fal_turn_events status_url) i es ->
  es = [] \/ exists es', es = ECall (Get status_url) :: es'.
Proof.
  intros [? | ? t Ht | ? ? t ? Ht _ _]; [by left | right; destruct Ht; eauto ..].
Qed.

(** C8.  The Fal poller ignores [base_url]: its result does not depend
    on it, and whatever [base_url] is, the events of a session are turns
    that each start with a query of the status URL of the mmaudio-v2
    endpoint, built from the request id alone; a session that is given
    some time starts with that query, one that is given none makes no
    call.  So for the composition stage: its request is posted to the
    ffmpeg-api endpoint, and when the answer gives a request id, the call
    that follows is the query of the mmaudio-v2 status URL of that very
    request id, which is not the status URL below the ffmpeg-api base
    that the stage passes, and the rest of the stage is a session on
    that URL; when the answer gives none, the stage makes no other
    call. *)
Theorem fal_status_url_ignores_base_url (w : world)
    (request_id item_name base_url base_url' : string) (max_wait_time : Z)
    (video_urls sound_urls : list pyval) :
  let status_url :=
    "https://queue.fal.run/fal-ai/mmaudio-v2/requests/" ++ request_id ++ "/status" in
  let run := _poll_fal_completion request_id item_name base_url max_wait_time w in
  let compose :=
    Post "https://queue.fal.run/fal-ai/ffmpeg-api/compose"
      (merge_payload video_urls sound_urls) in
  let merge := merge_video_clips video_urls sound_urls w in
  _poll_fal_completion request_id item_name base_url' max_wait_time w = run /\
  session (fal_turn_events status_url) 5 (new_events w (snd run)) /\
  (0 < max_wait_time ->
   exists es, new_events w (snd run) = ECall (Get status_url) :: es) /\
  (max_wait_time <= 0 -> new_events w (snd run) = []) /\
  exists es,
    new_events w (snd merge) = ECall compose :: es /\
    match accepted_request_id w (snd (oracle w (calls w) compose)) with
    | Some composition_id =>
        let composition_url :=
          "https://queue.fal.run/fal-ai/mmaudio-v2/requests/" ++ composition_id
            ++ "/status" in
        (exists es', es = ECall (Get composition_url) :: es') /\
        session (fal_turn_events composition_url) 5 es /\
        composition_url <>
          "https://queue.fal.run/fal-ai/ffmpeg-api/requests/" ++ composition_id
            ++ "/status"
    | None => es = []
    end.
Proof.
  cbv zeta. split_and!.
  - reflexivity.
  - destruct (poll_fal_run request_id item_name base_url max_wait_time w)
      as (_ & (es & Htr & Hses) & _).
    by rewrite (new_events_app _ _ _ Htr).
  - intros Hmax.
    destruct (poll_fal_first request_id item_name base_url max_wait_time w Hmax)
      as (es & Htr).
    exists es. by apply new_events_app.
  - intros Hmax. rewrite poll_fal_no_time by done.
    apply new_events_app. simpl. by rewrite app_nil_r.
  - unfold merge_video_clips. rewrite logged_run.
    pose proof poll_fal_run as Hpoll. pose proof poll_fal_first as Hfirst.
    set (poll := _poll_fal_completion) in *. clearbody poll.
    unfold requests_post, raise_for_status, response_json.
    unfold bind, get_world, call, lift, ret, raise.
    change fal_ffmpeg_url with "https://queue.fal.run/fal-ai/ffmpeg-api/compose".
    destruct (oracle w (calls w)
                (Post "https://queue.fal.run/fal-ai/ffmpeg-api/compose"
                   (merge_payload video_urls sound_urls)))
      as [latency a].
    cbn beta iota. cbn [snd]. unfold accepted_request_id.
    remember (set_state w (now w + Z.of_N latency) (S (calls w))
                (trace w ++ [ECall (Post "https://queue.fal.run/fal-ai/ffmpeg-api/compose"
                                      (merge_payload video_urls sound_urls))]))
      as w1 eqn:Ew1.
    assert (trace w1 = (trace w ++ [ECall (Post "https://queue.fal.run/fal-ai/ffmpeg-api/compose"
                          (merge_payload video_urls sound_urls))])%list) as Hw1
      by (by subst w1).
    clear Ew1.
    destruct a as [| r | |]; try (eexists; split; [by apply new_events_app|done]).
    destruct ((400 <=? status_code r) && (status_code r <? 600));
      [eexists; split; [by apply new_events_app|done]|].
    destruct (body r) as [d|]; [|eexists; split; [by apply new_events_app|done]].
    destruct (py_item d "request_id") as [rid|e];
      [|eexists; split; [by apply new_events_app|done]].
    destruct (Hpoll (py_str w rid) "video rendering"
                "https://queue.fal.run/fal-ai/ffmpeg-api/requests/" 300 w1)
      as (_ & (es & Htr & Hses) & _).
    destruct (Hfirst (py_str w rid) "video rendering"
                "https://queue.fal.run/fal-ai/ffmpeg-api/requests/" 300 w1)
      as (es' & Htr'); [lia|].
    exists es. split; [|split_and!].
    + apply new_events_app. rewrite Htr, Hw1, <- app_assoc. done.
    + exists es'. rewrite Htr in Htr'. by apply app_inv_head in Htr'.
    + exact Hses.
    + intros H. apply (f_equal (String.get 29)) in H. vm_compute in H. discriminate H.
Qed.

(** A composition whose request is accepted under the id ["render-1"]:
    the stage posts to the ffmpeg-api endpoint and then queries the
    mmaudio-v2 status URL of ["render-1"]. *)
Lemma fal_status_url_ignores_base_url_witness :
  exists es,
    new_events second_sound_fails
      (snd (merge_video_clips [PStr "https://cdn.example/clip.mp4"] []
              second_sound_fails)) =
    ECall (Post "https://queue.fal.run/fal-ai/ffmpeg-api/compose"
             (merge_payload [PStr "https://cdn.example/clip.mp4"] []))
      :: ECall (Get "https://queue.fal.run/fal-ai/mmaudio-v2/requests/render-1/status")
      :: es.
Proof.
  pose proof (fal_status_url_ignores_base_url second_sound_fails "" "" "" "" 0
                [PStr "https://cdn.example/clip.mp4"] []) as H.
  cbv zeta in H. destruct H as (_ & _ & _ & _ & es & Hes & H).
  change (accepted_request_id _ _) with (Some "render-1") in H.
  destruct H as ((es' & ->) & _). exists es'. exact Hes.
Defined.

(** ** The stages: the events they add *)

Section StageEvents.
Variable R : request -> Prop.
Variable W : string -> write -> Prop.
Hypothesis R_get : forall u, R (Get u).

Lemma emits_find_video_url item_name c : emits (ev R W) (find_video_url item_name c).
Proof. unfold find_video_url. emits_auto. Qed.

Lemma emits_fal_turn status_url item_name i :
  emits (ev R W) (fal_turn status_url item_name i).
Proof.
  unfold fal_turn.
  emits_auto; try apply emits_find_video_url; simpl; auto.
Qed.

Lemma emits_wavespeed_turn result_url item_name i :
  emits (ev R W) (wavespeed_turn result_url item_name i).
Proof.
  unfold wavespeed_turn.
  emits_auto; simpl; auto.
Qed.

Lemma emits_poll_loop fuel body item_name start_time max_wait_time i :
  (forall i, emits (ev R W) (body i)) ->
  emits (ev R W) (poll_loop fuel body item_name start_time max_wait_time i).
Proof.
  intros Hbody. revert i. induction fuel as [|fuel IH]; intros i; simpl.
  - apply emits_raise.
  - emits_auto; auto.
Qed.

Lemma emits_poll_fal request_id item_name base_url max_wait_time :
  emits (ev R W) (_poll_fal_completion request_id item_name base_url max_wait_time).
Proof.
  unfold _poll_fal_completion. apply emits_bind; [apply emits_time|]. intros t.
  apply emits_poll_loop. intros. apply emits_fal_turn.
Qed.

Lemma emits_poll_wavespeed prediction_id item_name max_wait_time :
  emits (ev R W) (_poll_wavespeed_completion prediction_id item_name max_wait_time).
Proof.
  unfold _poll_wavespeed_completion. apply emits_bind; [apply emits_time|]. intros t.
  apply emits_poll_loop. intros. apply emits_wavespeed_turn.
Qed.

Lemma emits_idea :
  (forall s u, R (Chat s u)) -> emits (ev R W) generate_creative_video_idea.
Proof.
  intros Hchat. unfold generate_creative_video_idea, chat_completion.
  emits_auto; simpl; auto.
Qed.

Lemma emits_scripting i :
  (forall s u, R (Chat s u)) -> emits (ev R W) (generate_detailed_video_prompts i).
Proof.
  intros Hchat. unfold generate_detailed_video_prompts, chat_completion.
  emits_auto; simpl; auto.
Qed.

Lemma emits_clips_loop n scenes i video_urls :
  (forall p, R (Post wavespeed_url p)) ->
  emits (ev R W) (clips_loop n scenes i video_urls).
Proof.
  intros Hpost. revert n video_urls.
  induction scenes as [|scene rest IH]; intros n video_urls; simpl.
  - apply emits_ret.
  - emits_auto; try apply emits_poll_wavespeed; simpl; auto.
Qed.

Lemma emits_asmr_sound video_url i :
  (forall p, R (Post fal_audio_url p)) ->
  emits (ev R W) (generate_asmr_sound video_url i).
Proof.
  intros Hpost. unfold generate_asmr_sound.
  emits_auto; try apply emits_poll_fal; simpl; auto.
Qed.

Lemma emits_sounds_loop video_urls i sound_urls :
  (forall p, R (Post fal_audio_url p)) ->
  emits (ev R W) (sounds_loop video_urls i sound_urls).
Proof.
  intros Hpost. revert sound_urls.
  induction video_urls as [|video_url rest IH]; intros sound_urls; simpl.
  - apply emits_ret.
  - emits_auto; try apply emits_asmr_sound; auto.
Qed.

Lemma emits_merge video_urls sound_urls :
  R (Post fal_ffmpeg_url (merge_payload video_urls sound_urls)) ->
  emits (ev R W) (merge_video_clips video_urls sound_urls).
Proof.
  intros Hpost. unfold merge_video_clips.
  emits_auto; try apply emits_poll_fal; simpl; auto.
Qed.

Lemma emits_download video_url job_id :
  (forall u, R (Download u)) -> (forall p, R (SaveVideo p)) ->
  emits (ev R W) (download_and_save_video video_url job_id).
Proof.
  intros Hd Hs. unfold download_and_save_video.
  emits_auto; simpl; auto.
Qed.
End StageEvents.

(** ** The background task, step by step *)

Lemma run_stages_phases job_id custom_prompt include_sound w :
  run_stages job_id custom_prompt include_sound w =
  (p <- scripting_phase job_id ;;
   video_urls <- clip_phase job_id (fst p) (snd p) ;;
   sound_urls <- sound_phase job_id include_sound (fst p) video_urls ;;
   final_phase job_id include_sound (fst p) (snd p) video_urls sound_urls) w.
Proof.
  unfold run_stages, scripting_phase, clip_phase, sound_phase, final_phase.
  unfold bind, ret, raise, get_world, time. cbn beta.
  repeat (case_match; simplify_eq; cbn [fst snd] in *); reflexivity.
Qed.

Lemma sounds_loop_run video_urls i sound_urls w :
  exists sounds w',
    sounds_loop video_urls i sound_urls w = (Ok (sound_urls ++ sounds)%list, w') /\
    sounds_run i video_urls w sounds w'.
Proof.
  revert sound_urls w.
  induction video_urls as [|video_url rest IH]; intros sound_urls w; simpl.
  - exists [], w. rewrite app_nil_r. split; [done|]. constructor.
  - unfold bind at 1. unfold try_except, bind, ret, any_exception.
    destruct (generate_asmr_sound video_url i w) as [[sound_url | e] w1] eqn:E.
    + destruct (IH (sound_urls ++ [sound_url])%list w1) as (sounds & w' & -> & Hrun).
      exists (sound_url :: sounds), w'.
      rewrite <- app_assoc. split; [done|]. by eapply sounds_ok.
    + destruct (IH (sound_urls ++ [PNone])%list w1) as (sounds & w' & -> & Hrun).
      exists (PNone :: sounds), w'.
      rewrite <- app_assoc. split; [done|]. by eapply sounds_failed.
Qed.

Lemma sounds_run_length i video_urls w sounds w' :
  sounds_run i video_urls w sounds w' -> length sounds = length video_urls.
Proof. induction 1; simpl; congruence. Qed.

Lemma sound_phase_run job_id include_sound i video_urls w :
  exists sound_urls w',
    sound_phase job_id include_sound i video_urls w = (Ok sound_urls, w') /\
    length sound_urls = length video_urls /\
    if include_sound then
      exists w0, sounds_run i video_urls w0 sound_urls w' /\
                 (video_urls = [] -> w' = w)
    else sound_urls = replicate (length video_urls) PNone /\ w' = w.
Proof.
  unfold sound_phase. destruct include_sound; simpl.
  - destruct video_urls as [|video_url rest].
    + exists [], w. split; [done|]. split; [done|].
      exists w. split; [constructor|done].
    + unfold bind at 1. unfold set_progress, emit.
      match goal with
      | |- context [sounds_loop ?vs i [] ?w0] =>
          destruct (sounds_loop_run vs i [] w0) as (sounds & w' & Hloop & Hrun)
      end.
      exists sounds, w'. split; [exact Hloop|].
      split; [by eapply sounds_run_length|]. eexists. split; [exact Hrun|done].
  - eexists _, w. split; [reflexivity|]. by rewrite length_replicate.
Qed.

Lemma run_video_generation_ok job_id custom_prompt include_sound w o w' :
  run_stages job_id custom_prompt include_sound w = (Ok o, w') ->
  new_events w' (snd (run_video_generation job_id custom_prompt include_sound w)) =
    [EWrite job_id (SetStatus "completed");
     EWrite job_id (SetProgress (Text "Video generation completed successfully!"));
     EWrite job_id (SetResult
       {| video_id := job_id;
          filename := out_filename o;
          result_idea := idea (out_idea o);
          result_caption := caption (out_idea o);
          result_final_video_url := out_final_video_url o;
          download_url := "/videos/" ++ job_id ++ "/download" |})].
Proof.
  intros H. unfold run_video_generation, try_except. unfold bind at 1. rewrite H.
  unfold bind, set_status, set_progress, emit. simpl.
  apply new_events_app. by rewrite <- !app_assoc.
Qed.

Lemma run_video_generation_failed job_id custom_prompt include_sound w e w' :
  run_stages job_id custom_prompt include_sound w = (Raise e, w') ->
  new_events w' (snd (run_video_generation job_id custom_prompt include_sound w)) =
    [EWrite job_id (SetStatus "failed");
     EWrite job_id (SetProgress (GenerationFailedText e));
     EWrite job_id (SetError e)].
Proof.
  intros H. unfold run_video_generation, try_except. unfold bind at 1. rewrite H.
  unfold any_exception, bind, set_status, set_progress, emit. simpl.
  apply new_events_app. by rewrite <- !app_assoc.
Qed.

(** ** Events of the steps *)

Lemma statuses_app job_id es1 es2 :
  statuses job_id (es1 ++ es2) = (statuses job_id es1 ++ statuses job_id es2)%list.
Proof. unfold statuses. apply omap_app. Qed.

Lemma posted_app url es1 es2 :
  posted url (es1 ++ es2) = (posted url es1 ++ posted url es2)%list.
Proof. unfold posted. apply omap_app. Qed.

Lemma metadata_written_app es1 es2 :
  metadata_written (es1 ++ es2) = (metadata_written es1 ++ metadata_written es2)%list.
Proof. unfold metadata_written. apply omap_app. Qed.

Lemma statuses_progress R job_id es :
  Forall (ev R (progress_of job_id)) es -> statuses job_id es = [].
Proof.
  induction 1 as [|e es He Hes IH]; [done|].
  change (e :: es) with ([e] ++ es)%list. rewrite statuses_app, IH, app_nil_r.
  destruct e as [r | d | j wr]; try done.
  destruct He as (_ & p & ->). done.
Qed.

Lemma posted_none url W es :
  Forall (ev (no_post_to url) W) es -> posted url es = [].
Proof.
  induction 1 as [|e es He Hes IH]; [done|].
  change (e :: es) with ([e] ++ es)%list. rewrite posted_app, IH, app_nil_r.
  destruct e as [[] | d | j wr]; try done.
  simpl in He. apply String.eqb_neq in He. unfold posted. simpl. by rewrite He.
Qed.

Lemma emits_events {A} P (c : M A) w :
  emits P c -> Forall P (new_events w (snd (c w))).
Proof.
  intros H. destruct (H w) as (es & Htr & Hes).
  by rewrite (new_events_app _ _ _ Htr).
Qed.

Lemma emits_trace {A} P (c : M A) w :
  emits P c -> trace (snd (c w)) = (trace w ++ new_events w (snd (c w)))%list.
Proof.
  intros H. destruct (H w) as (es & Htr & Hes).
  by rewrite (new_events_app _ _ _ Htr).
Qed.

(** ** Events of the whole task *)

Lemma emits_video_clips R W scenes i :
  (forall u, R (Get u)) -> (forall p, R (Post wavespeed_url p)) ->
  emits (ev R W) (generate_video_clips scenes i).
Proof. intros. by apply emits_clips_loop. Qed.

(** Closes the goals that [emits_auto] leaves: the stages, and the events
    themselves. *)
Ltac emits_stage :=
  first
    [ apply emits_idea | apply emits_scripting | apply emits_video_clips
    | apply emits_clips_loop | apply emits_asmr_sound | apply emits_sounds_loop
    | apply emits_merge | apply emits_download
    | apply emits_poll_fal | apply emits_poll_wavespeed ].

Lemma progress_of_text job_id s : progress_of job_id job_id (SetProgress s).
Proof. split; eauto. Qed.

Lemma any_event_all e : any_event e.
Proof. by destruct e. Qed.

Lemma emits_run_stages_rest job_id include_sound (u : unit) :
  emits (stage_event job_id)
    (set_progress job_id "Initializing AI video generator..." ;;;
     w <- get_world ;;
     (if client_init_fails w then raise ChatError else ret tt) ;;;
     set_progress job_id "Generating creative video idea..." ;;;
     i <- generate_creative_video_idea ;;
     set_progress job_id "Creating detailed video scenes..." ;;;
     scenes <- generate_detailed_video_prompts i ;;
     set_progress job_id "Generating video clips (this may take several minutes)..." ;;;
     video_urls <- generate_video_clips scenes i ;;
     sound_urls <-
       (if include_sound && truthy (PList video_urls) then
          set_progress job_id "Generating ASMR sounds..." ;;;
          sounds_loop video_urls i []
        else ret (replicate (length video_urls) PNone)) ;;
     set_progress job_id "Merging video clips into final video..." ;;;
     final_video_url <- merge_video_clips video_urls sound_urls ;;
     set_progress job_id "Downloading and saving final video..." ;;;
     video_filename <- download_and_save_video final_video_url job_id ;;
     w <- get_world ;;
     t <- time ;;
     let metadata_file := "video_metadata/" ++ job_id ++ ".json" in
     written <- call (WriteFile metadata_file
                        (metadata w t job_id i scenes video_urls sound_urls
                           final_video_url video_filename include_sound)) ;;
     match written with
     | Written =>
         ret {| out_idea := i; out_scenes := scenes; out_video_urls := video_urls;
                out_sound_urls := sound_urls; out_final_video_url := final_video_url;
                out_filename := video_filename |}
     | _ => raise OSError
     end).
Proof.
  unfold stage_event.
  emits_auto; try emits_stage; try apply progress_of_text; try done.
Qed.

(** The stages write the status ["processing"] first, and then only the
    progress text. *)
Lemma run_stages_events job_id custom_prompt include_sound w :
  exists es,
    trace (snd (run_stages job_id custom_prompt include_sound w)) =
      (trace w ++ EWrite job_id (SetStatus "processing") :: es)%list /\
    Forall (stage_event job_id) es.
Proof.
  unfold run_stages. unfold bind at 1. unfold set_status at 1. unfold emit at 1.
  cbn beta iota.
  match goal with
  | |- context [snd (?k ?w0)] =>
      destruct (emits_run_stages_rest job_id include_sound tt w0) as (es & Htr & Hes)
  end.
  exists es. split; [|done].
  etransitivity; [exact Htr|]. simpl. by rewrite <- app_assoc.
Qed.

(** The whole task: the stages, and then the three final writes. *)
Lemma run_video_generation_events job_id custom_prompt include_sound w :
  exists es,
    Forall (stage_event job_id) es /\
    trace (snd (run_stages job_id custom_prompt include_sound w)) =
      (trace w ++ EWrite job_id (SetStatus "processing") :: es)%list /\
    new_events w (snd (run_video_generation job_id custom_prompt include_sound w)) =
      (EWrite job_id (SetStatus "processing") :: es ++
       final_writes job_id (fst (run_stages job_id custom_prompt include_sound w)))%list.
Proof.
  destruct (run_stages_events job_id custom_prompt include_sound w) as (es & Htr & Hes).
  exists es. split; [done|]. split; [done|].
  apply new_events_app.
  unfold run_video_generation, try_except. unfold bind at 1.
  destruct (run_stages job_id custom_prompt include_sound w) as [[o | e] w'];
    simpl in Htr |- *.
  - unfold bind, set_status, set_progress, emit. simpl.
    rewrite Htr. rewrite <- ?app_assoc. simpl. by rewrite <- ?app_assoc.
  - unfold any_exception, bind, set_status, set_progress, emit. simpl.
    rewrite Htr. rewrite <- ?app_assoc. simpl. by rewrite <- ?app_assoc.
Qed.

(** The statuses that the task writes: ["processing"], and then
    ["completed"] when the stages return and ["failed"] when one raises. *)
Lemma run_video_generation_statuses job_id custom_prompt include_sound w :
  statuses job_id
    (new_events w (snd (run_video_generation job_id custom_prompt include_sound w))) =
  ["processing";
   match fst (run_stages job_id custom_prompt include_sound w) with
   | Ok _ => "completed"
   | Raise _ => "failed"
   end].
Proof.
  destruct (run_video_generation_events job_id custom_prompt include_sound w)
    as (es & Hes & _ & ->).
  change (EWrite job_id (SetStatus "processing") :: es ++ ?l)%list
    with ([EWrite job_id (SetStatus "processing")] ++ es ++ l)%list.
  rewrite !statuses_app, (statuses_progress _ _ _ Hes).
  destruct (fst (run_stages _ _ _ _)); unfold statuses; simpl;
    by rewrite String.eqb_refl.
Qed.

(** ** Events of each step *)

Section PhaseEvents.
Variable R : request -> Prop.
Variable W : string -> write -> Prop.
Variable job_id : string.
Hypothesis R_get : forall u, R (Get u).
Hypothesis W_progress : forall s, W job_id (SetProgress (Text s)).

Lemma emits_scripting_phase :
  (forall s u, R (Chat s u)) -> W job_id (SetStatus "processing") ->
  emits (ev R W) (scripting_phase job_id).
Proof.
  intros Hchat Hstatus. unfold scripting_phase.
  emits_auto; try emits_stage; simpl; auto.
Qed.

Lemma emits_clip_phase i scenes :
  scenes = [] \/ (forall p, R (Post wavespeed_url p)) ->
  emits (ev R W) (clip_phase job_id i scenes).
Proof.
  intros Hpost. unfold clip_phase.
  emits_auto; simpl; auto.
  destruct Hpost as [-> | Hpost]; [apply emits_ret | by apply emits_video_clips].
Qed.

Lemma emits_sound_phase include_sound i video_urls :
  include_sound && truthy (PList video_urls) = false \/
    (forall p, R (Post fal_audio_url p)) ->
  emits (ev R W) (sound_phase job_id include_sound i video_urls).
Proof.
  intros Hpost. unfold sound_phase.
  destruct (include_sound && truthy (PList video_urls)).
  - destruct Hpost as [? | Hpost]; [done|].
    emits_auto; simpl; auto. by apply emits_sounds_loop.
  - apply emits_ret.
Qed.

Lemma emits_final_phase include_sound i scenes video_urls sound_urls :
  R (Post fal_ffmpeg_url (merge_payload video_urls sound_urls)) ->
  (forall u, R (Download u)) -> (forall p, R (SaveVideo p)) ->
  (forall p m, R (WriteFile p m)) ->
  emits (ev R W) (final_phase job_id include_sound i scenes video_urls sound_urls).
Proof.
  intros Hpost Hd Hs Hw. unfold final_phase.
  emits_auto; try emits_stage; simpl; auto.
Qed.
End PhaseEvents.

(** The trace only grows. *)
Lemma grows_scripting_phase job_id : emits any_event (scripting_phase job_id).
Proof. by apply emits_scripting_phase. Qed.

Lemma grows_clip_phase job_id i scenes : emits any_event (clip_phase job_id i scenes).
Proof. apply emits_clip_phase; try done. by right. Qed.

Lemma grows_sound_phase job_id include_sound i video_urls :
  emits any_event (sound_phase job_id include_sound i video_urls).
Proof. apply emits_sound_phase; try done. by right. Qed.

Lemma grows_final_phase job_id include_sound i scenes video_urls sound_urls :
  emits any_event (final_phase job_id include_sound i scenes video_urls sound_urls).
Proof. by apply emits_final_phase. Qed.

Lemma new_events_trans w1 w2 w3 :
  trace w2 = (trace w1 ++ new_events w1 w2)%list ->
  trace w3 = (trace w2 ++ new_events w2 w3)%list ->
  new_events w1 w3 = (new_events w1 w2 ++ new_events w2 w3)%list /\
  trace w3 = (trace w1 ++ new_events w1 w3)%list.
Proof.
  intros H12 H23.
  assert (trace w3 = (trace w1 ++ new_events w1 w2 ++ new_events w2 w3)%list) as H13.
  { rewrite H23, H12 at 1. by rewrite <- app_assoc. }
  rewrite (new_events_app _ _ _ H13). done.
Qed.

(** The task ends with its three final writes. *)
Lemma run_video_generation_split job_id custom_prompt include_sound w :
  new_events w (snd (run_video_generation job_id custom_prompt include_sound w)) =
    (new_events w (snd (run_stages job_id custom_prompt include_sound w)) ++
     final_writes job_id (fst (run_stages job_id custom_prompt include_sound w)))%list.
Proof.
  destruct (run_video_generation_events job_id custom_prompt include_sound w)
    as (es & _ & Htr & ->).
  by rewrite (new_events_app _ _ _ Htr).
Qed.

(** The stages chained by hand. *)
Lemma run_stages_chain job_id custom_prompt include_sound w i scenes w1
    video_urls w2 sound_urls w3 :
  scripting_phase job_id w = (Ok (i, scenes), w1) ->
  clip_phase job_id i scenes w1 = (Ok video_urls, w2) ->
  sound_phase job_id include_sound i video_urls w2 = (Ok sound_urls, w3) ->
  run_stages job_id custom_prompt include_sound w =
    final_phase job_id include_sound i scenes video_urls sound_urls w3 /\
  new_events w (snd (final_phase job_id include_sound i scenes video_urls sound_urls w3)) =
    (new_events w w1 ++ new_events w1 w2 ++ new_events w2 w3 ++
     new_events w3 (snd (final_phase job_id include_sound i scenes video_urls
                           sound_urls w3)))%list.
Proof.
  intros H1 H2 H3. split.
  - rewrite run_stages_phases. unfold bind. rewrite H1. cbn [fst snd].
    rewrite H2, H3. done.
  - pose proof (emits_trace _ _ w (grows_scripting_phase job_id)) as T1.
    pose proof (emits_trace _ _ w1 (grows_clip_phase job_id i scenes)) as T2.
    pose proof (emits_trace _ _ w2 (grows_sound_phase job_id include_sound i video_urls))
      as T3.
    pose proof (emits_trace _ _ w3
                  (grows_final_phase job_id include_sound i scenes video_urls sound_urls))
      as T4.
    rewrite H1 in T1. rewrite H2 in T2. rewrite H3 in T3. simpl in T1, T2, T3.
    destruct (new_events_trans _ _ _ T1 T2) as [E12 T12].
    destruct (new_events_trans _ _ _ T12 T3) as [E13 T13].
    destruct (new_events_trans _ _ _ T13 T4) as [E14 T14].
    rewrite E14, E13, E12. by rewrite <- !app_assoc.
Qed.

(** When the stages return, each step has returned. *)
Lemma run_stages_ok job_id custom_prompt include_sound w o w' :
  run_stages job_id custom_prompt include_sound w = (Ok o, w') ->
  exists i scenes w1 video_urls w2 sound_urls w3,
    scripting_phase job_id w = (Ok (i, scenes), w1) /\
    clip_phase job_id i scenes w1 = (Ok video_urls, w2) /\
    sound_phase job_id include_sound i video_urls w2 = (Ok sound_urls, w3) /\
    final_phase job_id include_sound i scenes video_urls sound_urls w3 = (Ok o, w').
Proof.
  rewrite run_stages_phases. unfold bind. intros H.
  destruct (scripting_phase job_id w) as [[[i scenes] | e] w1] eqn:H1; [|done].
  cbn [fst snd] in H.
  destruct (clip_phase job_id i scenes w1) as [[video_urls | e] w2] eqn:H2; [|done].
  destruct (sound_phase job_id include_sound i video_urls w2)
    as [[sound_urls | e] w3] eqn:H3; [|done].
  exists i, scenes, w1, video_urls, w2, sound_urls, w3. auto.
Qed.

(** ** The composition request *)

Lemma keyframes_nil keep n urls :
  keyframes keep n urls = [] <-> existsb keep urls = false.
Proof.
  revert n. induction urls as [|url rest IH]; intros n; simpl; [done|].
  destruct (keep url); simpl; [done|]. apply IH.
Qed.

Lemma merge_tracks_audio video_urls sound_urls :
  merge_tracks video_urls sound_urls =
    if existsb truthy sound_urls
    then [video_track video_urls; audio_track (keyframes truthy 0 sound_urls)]
    else [video_track video_urls].
Proof.
  unfold merge_tracks.
  destruct (existsb truthy sound_urls) eqn:E.
  - destruct sound_urls as [|s rest]; [done|].
    cbn [truthy andb].
    destruct (keyframes truthy 0 (s :: rest)) as [|k ks] eqn:K.
    + apply keyframes_nil in K. congruence.
    + done.
  - by rewrite andb_false_r.
Qed.

Lemma track_types_merge video_urls sound_urls :
  track_types (merge_payload video_urls sound_urls) =
    if existsb truthy sound_urls then [PStr "video"; PStr "audio"] else [PStr "video"].
Proof.
  unfold merge_payload, track_types. cbn [py_get assoc String.eqb Ascii.eqb Bool.eqb].
  simpl. rewrite merge_tracks_audio. by destruct (existsb truthy sound_urls).
Qed.

Lemma has_audio_track_merge video_urls sound_urls :
  has_audio_track (merge_payload video_urls sound_urls) = existsb truthy sound_urls.
Proof.
  unfold has_audio_track. rewrite track_types_merge.
  by destruct (existsb truthy sound_urls).
Qed.

Lemma existsb_replicate_none n : existsb truthy (replicate n PNone) = false.
Proof. induction n; simpl; auto. Qed.

(** The composition stage posts its payload, and nothing else, to the
    composition endpoint. *)
Lemma merge_video_clips_events video_urls sound_urls w :
  exists es,
    trace (snd (merge_video_clips video_urls sound_urls w)) =
      (trace w ++ ECall (Post fal_ffmpeg_url (merge_payload video_urls sound_urls)) :: es)%list /\
    Forall (ev (no_post_to fal_ffmpeg_url) (fun _ _ => True)) es.
Proof.
  assert (forall w1 response,
    emits (ev (no_post_to fal_ffmpeg_url) (fun _ _ => True))
      (raise_for_status response ;;;
       result <- response_json response ;;
       request_id <- lift (py_item result "request_id") ;;
       _poll_fal_completion (py_str w1 request_id) "video rendering"
         "https://queue.fal.run/fal-ai/ffmpeg-api/requests/" 300)) as Hrest.
  { intros w1 response. emits_auto; try emits_stage; simpl; auto. }
  unfold merge_video_clips. cbv zeta. rewrite logged_run.
  unfold bind at 1. unfold get_world at 1. cbn beta iota.
  unfold bind at 1. unfold requests_post at 1.
  unfold bind at 1. unfold call at 1.
  destruct (oracle w (calls w) (Post fal_ffmpeg_url (merge_payload video_urls sound_urls)))
    as [latency a].
  cbn beta iota.
  remember (set_state w (now w + Z.of_N latency) (S (calls w))
              (trace w ++ [ECall (Post fal_ffmpeg_url
                                    (merge_payload video_urls sound_urls))]))
    as w1 eqn:Ew1.
  assert (trace w1 = (trace w ++ [ECall (Post fal_ffmpeg_url
                        (merge_payload video_urls sound_urls))])%list) as Hw1
    by (by subst w1).
  clear Ew1.
  destruct a as [| response | |]; cbn beta iota;
    first [unfold raise at 1 | unfold ret at 1]; cbn beta iota;
    try (exists []; split; [cbn [snd]; by rewrite Hw1 | constructor]).
  destruct (Hrest w response w1) as (es & Htr & Hes).
  exists es. split; [|done].
  etransitivity; [exact Htr|]. by rewrite Hw1, <- app_assoc.
Qed.

Lemma merge_video_clips_posted video_urls sound_urls w :
  trace (snd (merge_video_clips video_urls sound_urls w)) =
    (trace w ++ new_events w (snd (merge_video_clips video_urls sound_urls w)))%list /\
  posted fal_ffmpeg_url (new_events w (snd (merge_video_clips video_urls sound_urls w))) =
    [merge_payload video_urls sound_urls].
Proof.
  destruct (merge_video_clips_events video_urls sound_urls w) as (es & Htr & Hes).
  rewrite (new_events_app _ _ _ Htr). split; [done|].
  change (?e :: es) with ([e] ++ es)%list.
  rewrite posted_app, (posted_none _ _ _ Hes). reflexivity.
Qed.

(** ** The last step *)

Lemma final_phase_posted job_id include_sound i scenes video_urls sound_urls w :
  posted fal_ffmpeg_url
    (new_events w (snd (final_phase job_id include_sound i scenes video_urls sound_urls w)))
  = [merge_payload video_urls sound_urls].
Proof.
  assert (forall final_video_url,
    emits (ev (no_post_to fal_ffmpeg_url) (fun _ _ => True))
      (set_progress job_id "Downloading and saving final video..." ;;;
       video_filename <- download_and_save_video final_video_url job_id ;;
       w <- get_world ;;
       t <- time ;;
       written <- call (WriteFile ("video_metadata/" ++ job_id ++ ".json")
                          (metadata w t job_id i scenes video_urls sound_urls
                             final_video_url video_filename include_sound)) ;;
       match written with
       | Written =>
           ret {| out_idea := i; out_scenes := scenes; out_video_urls := video_urls;
                  out_sound_urls := sound_urls; out_final_video_url := final_video_url;
                  out_filename := video_filename |}
       | _ => raise OSError
       end)) as Hrest.
  { intros final_video_url. emits_auto; try emits_stage; simpl; auto. }
  unfold final_phase. unfold bind at 1. unfold set_progress at 1. unfold emit at 1.
  cbn beta iota. unfold bind at 1.
  match goal with
  | |- context [merge_video_clips video_urls sound_urls ?w0] =>
      destruct (merge_video_clips_events video_urls sound_urls w0) as (es & Htr & Hes);
      destruct (merge_video_clips video_urls sound_urls w0) as [[final_video_url | e] w1]
  end; cbn [snd] in Htr; simpl in Htr.
  - destruct (Hrest final_video_url w1) as (es' & Htr' & Hes').
    erewrite new_events_app;
      [|etransitivity; [exact Htr'|]; rewrite Htr, <- !app_assoc; reflexivity].
    simpl.
    rewrite !posted_app, (posted_none _ _ _ Hes), (posted_none _ _ _ Hes').
    reflexivity.
  - cbn [snd]. erewrite new_events_app; [|rewrite Htr, <- !app_assoc; reflexivity].
    simpl. rewrite (posted_none _ _ _ Hes). reflexivity.
Qed.

Lemma final_phase_ok job_id include_sound i scenes video_urls sound_urls w o w' :
  final_phase job_id include_sound i scenes video_urls sound_urls w = (Ok o, w') ->
  out_idea o = i /\ out_scenes o = scenes /\
  out_video_urls o = video_urls /\ out_sound_urls o = sound_urls /\
  exists w0 t,
    last (trace w') =
      Some (ECall (WriteFile ("video_metadata/" ++ job_id ++ ".json")
                     (metadata w0 t job_id i scenes video_urls sound_urls
                        (out_final_video_url o) (out_filename o) include_sound))).
Proof.
  unfold final_phase.
  set (merge := merge_video_clips). set (download := download_and_save_video).
  clearbody merge download.
  unfold bind, set_progress, emit, get_world, time, call, ret, raise.
  intros H. repeat (case_match; simplify_eq). simpl.
  split_and!; try done. eexists _, _. apply last_snoc.
Qed.

(** ** The partial-failure policy of the sound stage *)

(** C1.  Once the clips exist, the sound stage always returns: it leaves
    one entry per clip, the sound where [generate_asmr_sound] returned one
    and [None] where it raised, and goes on with the next clip.  The job
    then ends as the remaining stages decide: it is marked completed, with
    exactly these sounds in its outcome, when composition, download and the
    writing of the metadata succeed, and failed only when one of those
    raises. *)
Theorem audio_failure_is_tolerated (w : world) (job_id : string)
    (custom_prompt : option string) (i : VideoIdea) (scenes : list VideoScene)
    (video_urls : list pyval) (w1 w2 : world) :
  scripting_phase job_id w = (Ok (i, scenes), w1) ->
  clip_phase job_id i scenes w1 = (Ok video_urls, w2) ->
  exists sound_urls w3,
    sound_phase job_id true i video_urls w2 = (Ok sound_urls, w3) /\
    length sound_urls = length video_urls /\
    (exists w2', sounds_run i video_urls w2' sound_urls w3) /\
    statuses job_id
      (new_events w (snd (run_video_generation job_id custom_prompt true w))) =
      ["processing";
       match fst (final_phase job_id true i scenes video_urls sound_urls w3) with
       | Ok _ => "completed"
       | Raise _ => "failed"
       end] /\
    forall o w4,
      final_phase job_id true i scenes video_urls sound_urls w3 = (Ok o, w4) ->
      out_sound_urls o = sound_urls /\
      exists w0 t,
        last (trace w4) =
          Some (ECall (WriteFile ("video_metadata/" ++ job_id ++ ".json")
                         (metadata w0 t job_id i scenes video_urls sound_urls
                            (out_final_video_url o) (out_filename o) true))).
Proof.
  intros H1 H2.
  destruct (sound_phase_run job_id true i video_urls w2)
    as (sound_urls & w3 & H3 & Hlen & w2' & Hrun & _).
  exists sound_urls, w3. split_and!; [done | done | by exists w2' | |].
  - rewrite run_video_generation_statuses.
    destruct (run_stages_chain job_id custom_prompt true w _ _ _ _ _ _ _ H1 H2 H3)
      as [-> _].
    done.
  - intros o w4 Hfinal.
    destruct (final_phase_ok _ _ _ _ _ _ _ _ _ Hfinal) as (_ & _ & _ & Hs & Hmeta).
    done.
Qed.

(** The sound of the second of three clips is refused: the job is marked
    completed and its metadata has the sounds of the first and the third
    clip and [None] for the second. *)
Lemma audio_failure_is_tolerated_witness :
  exists i scenes video_urls w1 w2 sound_1 sound_3 w3,
    scripting_phase "job_1" second_sound_fails = (Ok (i, scenes), w1) /\
    clip_phase "job_1" i scenes w1 = (Ok video_urls, w2) /\
    sound_phase "job_1" true i video_urls w2 =
      (Ok [PStr sound_1; PNone; PStr sound_3], w3) /\
    length video_urls = 3%nat /\
    statuses "job_1"
      (new_events second_sound_fails
         (snd (run_video_generation "job_1" None true second_sound_fails))) =
      ["processing"; "completed"].
Proof.
  edestruct (audio_failure_is_tolerated second_sound_fails "job_1" None)
    as (sound_urls & w3 & H3 & Hlen & _ & Hst & _);
    [vm_compute; reflexivity | vm_compute; reflexivity |].
  vm_compute in H3. injection H3 as <- <-.
  do 8 eexists.
  split; [vm_compute; reflexivity|].
  split; [vm_compute; reflexivity|].
  split; [vm_compute; reflexivity|].
  split; [vm_compute; reflexivity|].
  rewrite Hst. vm_compute. reflexivity.
Defined.

(** ** The composition request and the sounds *)

Lemma existsb_truthy_elem (sound_urls : list pyval) :
  existsb truthy sound_urls = true <-> exists s, s ∈ sound_urls /\ truthy s = true.
Proof.
  rewrite existsb_exists. split; intros (s & Hs & Ht); exists s; split; try done.
  - by apply list_elem_of_In.
  - by apply list_elem_of_In.
Qed.

(** C2, as the code has it.  When the stages of a job return, the sound
    list has one entry per clip, the composition endpoint has received one
    request, the payload built from the clips and the sounds, and that
    payload has an audio track exactly when some entry of the sound list is
    true in Python's sense (neither [None] nor an empty value such as the
    empty string); otherwise it has the video track only. *)
Theorem composition_audio_track (w : world) (job_id : string)
    (custom_prompt : option string) (include_sound : bool) (o : outcome) (w' : world) :
  run_stages job_id custom_prompt include_sound w = (Ok o, w') ->
  let payload := merge_payload (out_video_urls o) (out_sound_urls o) in
  length (out_sound_urls o) = length (out_video_urls o) /\
  posted fal_ffmpeg_url (new_events w w') = [payload] /\
  (has_audio_track payload = true <->
   exists s, s ∈ out_sound_urls o /\ truthy s = true) /\
  track_types payload =
    if has_audio_track payload then [PStr "video"; PStr "audio"] else [PStr "video"].
Proof.
  intros Hrun. cbv zeta.
  destruct (run_stages_ok _ _ _ _ _ _ Hrun)
    as (i & scenes & w1 & video_urls & w2 & sound_urls & w3 & H1 & H2 & H3 & H4).
  destruct (final_phase_ok _ _ _ _ _ _ _ _ _ H4) as (_ & _ & -> & -> & _).
  split_and!.
  - destruct (sound_phase_run job_id include_sound i video_urls w2)
      as (ss & w3' & H3' & Hlen & _).
    rewrite H3 in H3'. by simplify_eq.
  - destruct (run_stages_chain job_id custom_prompt include_sound w _ _ _ _ _ _ _
                H1 H2 H3) as [_ Hev].
    rewrite H4 in Hev. cbn [snd] in Hev. rewrite Hev.
    pose proof (final_phase_posted job_id include_sound i scenes video_urls sound_urls w3)
      as Hfinal.
    rewrite H4 in Hfinal. cbn [snd] in Hfinal.
    rewrite !posted_app, Hfinal.
    pose proof (emits_events _ _ w
      (emits_scripting_phase (no_post_to fal_ffmpeg_url) (fun _ _ => True) job_id
         ltac:(done) ltac:(done) ltac:(done))) as E1.
    pose proof (emits_events _ _ w1
      (emits_clip_phase (no_post_to fal_ffmpeg_url) (fun _ _ => True) job_id
         ltac:(done) ltac:(done) i scenes ltac:(right; done))) as E2.
    pose proof (emits_events _ _ w2
      (emits_sound_phase (no_post_to fal_ffmpeg_url) (fun _ _ => True) job_id
         ltac:(done) ltac:(done) include_sound i video_urls ltac:(right; done))) as E3.
    rewrite H1 in E1. rewrite H2 in E2. rewrite H3 in E3. cbn [snd] in E1, E2, E3.
    by rewrite (posted_none _ _ _ E1), (posted_none _ _ _ E2), (posted_none _ _ _ E3).
  - rewrite has_audio_track_merge. apply existsb_truthy_elem.
  - rewrite has_audio_track_merge. apply track_types_merge.
Qed.

(** A job with three clips and two sounds completes. *)
Lemma composition_audio_track_witness :
  exists o w',
    run_stages "job_1" None true second_sound_fails = (Ok o, w') /\
    length (out_sound_urls o) = 3%nat /\
    has_audio_track (merge_payload (out_video_urls o) (out_sound_urls o)) = true /\
    posted fal_ffmpeg_url (new_events second_sound_fails w') =
      [merge_payload (out_video_urls o) (out_sound_urls o)].
Proof.
  destruct (run_stages "job_1" None true second_sound_fails) as [[o | e] w'] eqn:Hrun;
    [|vm_compute in Hrun; discriminate Hrun].
  destruct (composition_audio_track _ _ _ _ _ _ Hrun) as (Hlen & Hposted & Haudio & _).
  exists o, w'. split; [done|].
  vm_compute in Hrun. injection Hrun as <- <-.
  split; [reflexivity|]. split; [vm_compute; reflexivity|]. exact Hposted.
Defined.

(** C2, as stated, fails: every sound task completes with an empty URL, so
    no entry of the sound list is [None], and yet the composition request
    has the video track only. *)
Lemma composition_audio_track_counterexample :
  exists o,
    fst (run_stages "job_1" None true silent_sounds) = Ok o /\
    out_sound_urls o = [PStr ""; PStr ""; PStr ""] /\
    length (out_video_urls o) = 3%nat /\
    posted fal_ffmpeg_url (trace (snd (run_stages "job_1" None true silent_sounds))) =
      [merge_payload (out_video_urls o) (out_sound_urls o)] /\
    track_types (merge_payload (out_video_urls o) (out_sound_urls o)) = [PStr "video"] /\
    ~ (has_audio_track (merge_payload (out_video_urls o) (out_sound_urls o)) = true <->
       exists s, s ∈ out_sound_urls o /\ s <> PNone).
Proof.
  destruct (run_stages "job_1" None true silent_sounds) as [[o | e] w'] eqn:Hrun;
    [|vm_compute in Hrun; discriminate Hrun].
  exists o. vm_compute in Hrun. injection Hrun as <- <-.
  split; [reflexivity|]. split; [reflexivity|]. split; [reflexivity|].
  split; [vm_compute; reflexivity|]. split; [vm_compute; reflexivity|].
  intros [_ H].
  assert (has_audio_track
            (merge_payload
               [PStr "https://api.wavespeed.ai/api/v3/predictions/clip-2/result.mp4";
                PStr "https://api.wavespeed.ai/api/v3/predictions/clip-4/result.mp4";
                PStr "https://api.wavespeed.ai/api/v3/predictions/clip-6/result.mp4"]
               [PStr ""; PStr ""; PStr ""]) = false) as Hno by (vm_compute; reflexivity).
  simpl in H. rewrite Hno in H.
  assert (false = true) as Habs; [|discriminate Habs].
  apply H. exists (PStr ""). split; [constructor|discriminate].
Qed.

(** ** A scripting response without scenes *)

Lemma clip_phase_nil job_id i w :
  clip_phase job_id i [] w =
    (Ok [],
     set_state w (now w) (calls w)
       (trace w ++ [EWrite job_id (SetProgress
          (Text "Generating video clips (this may take several minutes)..."))])).
Proof. reflexivity. Qed.

Lemma sound_phase_nil job_id include_sound i w :
  sound_phase job_id include_sound i [] w = (Ok [], w).
Proof. unfold sound_phase. simpl. by rewrite andb_false_r. Qed.

Lemma posted_final_writes url job_id r : posted url (final_writes job_id r) = [].
Proof. by destruct r. Qed.

(** C3, as the code has it.  When scripting yields no scene, nothing is
    submitted to the video provider nor to the sound provider; the job does
    not fail at that point: it goes on to the composition stage, where one
    request with a video track without keyframes is posted, and it is
    marked completed or failed as composition, download and the writing of
    the metadata decide. *)
Theorem no_scene_goes_on_to_composition (w : world) (job_id : string)
    (custom_prompt : option string) (include_sound : bool) (i : VideoIdea) (w1 : world) :
  scripting_phase job_id w = (Ok (i, []), w1) ->
  let run := run_video_generation job_id custom_prompt include_sound w in
  exists w2,
    new_events w1 w2 =
      [EWrite job_id (SetProgress
         (Text "Generating video clips (this may take several minutes)..."))] /\
    run_stages job_id custom_prompt include_sound w =
      final_phase job_id include_sound i [] [] [] w2 /\
    posted wavespeed_url (new_events w (snd run)) = [] /\
    posted fal_audio_url (new_events w (snd run)) = [] /\
    posted fal_ffmpeg_url (new_events w (snd run)) =
      [PDict [("tracks", PList [PDict [("id", PStr "1"); ("type", PStr "video");
                                       ("keyframes", PList [])]])]] /\
    statuses job_id (new_events w (snd run)) =
      ["processing";
       match fst (final_phase job_id include_sound i [] [] [] w2) with
       | Ok _ => "completed"
       | Raise _ => "failed"
       end].
Proof.
  intros H1. cbv zeta.
  pose proof (clip_phase_nil job_id i w1) as H2.
  set (w2 := set_state w1 _ _ _) in H2.
  pose proof (sound_phase_nil job_id include_sound i w2) as H3.
  destruct (run_stages_chain job_id custom_prompt include_sound w _ _ _ _ _ _ _ H1 H2 H3)
    as [Hrun Hev].
  assert (new_events w1 w2 =
            [EWrite job_id (SetProgress
               (Text "Generating video clips (this may take several minutes)..."))])
    as E2 by (by apply new_events_app).
  assert (new_events w2 w2 = []) as E3
    by (apply new_events_app; by rewrite app_nil_r).
  exists w2. split; [exact E2|]. split; [exact Hrun|].
  rewrite run_video_generation_statuses.
  rewrite run_video_generation_split, Hrun, Hev, E2, E3.
  rewrite !posted_app, !posted_final_writes, !app_nil_r.
  assert (forall url,
            posted url (new_events w w1) = []) as Hscript.
  { intros url.
    pose proof (emits_events _ _ w
      (emits_scripting_phase (no_post_to url) (fun _ _ => True) job_id
         ltac:(done) ltac:(done) ltac:(done))) as E1.
    rewrite H1 in E1. cbn [snd] in E1. by rewrite (posted_none _ _ _ E1). }
  rewrite !Hscript.
  assert (forall url,
            url <> fal_ffmpeg_url ->
            posted url (new_events w2
              (snd (final_phase job_id include_sound i [] [] [] w2))) = []) as Hfinal.
  { intros url Hurl.
    pose proof (emits_events _ _ w2
      (emits_final_phase (no_post_to url) (fun _ _ => True) job_id
         ltac:(done) ltac:(done) include_sound i [] [] []
         ltac:(simpl; congruence) ltac:(done) ltac:(done) ltac:(done))) as E4.
    by rewrite (posted_none _ _ _ E4). }
  rewrite !Hfinal by done.
  rewrite final_phase_posted.
  split_and!; reflexivity.
Qed.

(** The chat model answers the scripting prompt with a refusal. *)
Lemma no_scene_goes_on_to_composition_witness :
  exists i w1 w2,
    scripting_phase "job_1" no_scenes = (Ok (i, []), w1) /\
    run_stages "job_1" None true no_scenes = final_phase "job_1" true i [] [] [] w2 /\
    posted wavespeed_url
      (new_events no_scenes (snd (run_video_generation "job_1" None true no_scenes))) = [].
Proof.
  edestruct (no_scene_goes_on_to_composition no_scenes "job_1" None true)
    as (w2 & _ & Hrun & Hclips & _); [vm_compute; reflexivity|].
  eexists _, _, w2. split; [vm_compute; reflexivity|]. split; [exact Hrun|exact Hclips].
Defined.

(** C3, as stated, fails: the scripting response has no scene, and the job
    is not marked failed but completed. *)
Lemma no_scene_counterexample :
  (exists i w1, scripting_phase "job_1" no_scenes = (Ok (i, []), w1)) /\
  statuses "job_1" (trace (snd (run_video_generation "job_1" None true no_scenes))) =
    ["processing"; "completed"] /\
  "failed" ∉ statuses "job_1"
    (trace (snd (run_video_generation "job_1" None true no_scenes))).
Proof.
  split; [eexists _, _; vm_compute; reflexivity|].
  assert (statuses "job_1"
            (trace (snd (run_video_generation "job_1" None true no_scenes))) =
          ["processing"; "completed"]) as E by (vm_compute; reflexivity).
  split; [exact E|]. rewrite E. intros H.
  apply list_elem_of_In in H. simpl in H. destruct H as [H | [H | []]]; discriminate H.
Qed.

(** ** A job without sound *)

Lemma run_stages_no_sound job_id custom_prompt w :
  run_stages job_id custom_prompt false w =
  (p <- scripting_phase job_id ;;
   video_urls <- clip_phase job_id (fst p) (snd p) ;;
   final_phase job_id false (fst p) (snd p) video_urls
     (replicate (length video_urls) PNone)) w.
Proof.
  rewrite run_stages_phases. unfold bind.
  destruct (scripting_phase job_id w) as [[p | e] w1]; [|done].
  destruct (clip_phase job_id p.1 p.2 w1) as [[video_urls | e] w2]; done.
Qed.

Lemma video_only_posts W es :
  Forall (ev video_only_post W) es ->
  posted fal_audio_url es = [] /\
  forall p, p ∈ posted fal_ffmpeg_url es -> track_types p = [PStr "video"].
Proof.
  induction 1 as [|e es He Hes [IH1 IH2]]; [split; [done|]; by intros p H%elem_of_nil|].
  change (e :: es) with ([e] ++ es)%list. rewrite !posted_app, IH1.
  destruct e as [[u | u p | s1 s2 | u | f | f c] | d | j wr];
    try (split; [done|exact IH2]).
  simpl in He. destruct He as [Hu Hp]. unfold posted at 1 3. simpl.
  apply String.eqb_neq in Hu. rewrite Hu. split; [done|].
  destruct (String.eqb_spec u fal_ffmpeg_url) as [-> | Hne]; [|exact IH2].
  intros q [-> | Hq]%elem_of_cons; auto.
Qed.

(** C10.  With [include_sound] false, whatever the providers answer:
    nothing is ever posted to the sound endpoint, and every request posted
    to the composition endpoint has the video track only.  When the stages
    return, the sound list is one [None] per clip, it is the list written
    to the metadata, and the one composition request is the video track of
    the clips. *)
Theorem no_sound_when_not_requested (w : world) (job_id : string)
    (custom_prompt : option string) :
  let run := run_video_generation job_id custom_prompt false w in
  posted fal_audio_url (new_events w (snd run)) = [] /\
  (forall p, p ∈ posted fal_ffmpeg_url (new_events w (snd run)) ->
             track_types p = [PStr "video"]) /\
  forall o w',
    run_stages job_id custom_prompt false w = (Ok o, w') ->
    out_sound_urls o = replicate (length (out_video_urls o)) PNone /\
    posted fal_ffmpeg_url (new_events w w') =
      [PDict [("tracks", PList [video_track (out_video_urls o)])]] /\
    exists w0 t,
      last (trace w') =
        Some (ECall (WriteFile ("video_metadata/" ++ job_id ++ ".json")
                       (metadata w0 t job_id (out_idea o) (out_scenes o)
                          (out_video_urls o)
                          (replicate (length (out_video_urls o)) PNone)
                          (out_final_video_url o) (out_filename o) false))).
Proof.
  cbv zeta.
  assert (Forall (ev video_only_post (fun _ _ => True))
            (new_events w (snd (run_video_generation job_id custom_prompt false w))))
    as Hall.
  { rewrite run_video_generation_split. apply Forall_app. split.
    - rewrite run_stages_no_sound. apply emits_events.
      apply emits_bind;
        [apply emits_scripting_phase; done|intros [i scenes]].
      apply emits_bind;
        [apply emits_clip_phase; try done; right; intros p; split; done|intros video_urls].
      apply emits_final_phase; try done.
      split; [done|]. intros _.
      by rewrite track_types_merge, existsb_replicate_none.
    - destruct (fst (run_stages _ _ _ _)); repeat constructor. }
  destruct (video_only_posts _ _ Hall) as [Hsound Hvideo].
  split; [exact Hsound|]. split; [exact Hvideo|].
  intros o w' Hrun.
  destruct (run_stages_ok _ _ _ _ _ _ Hrun)
    as (i & scenes & w1 & video_urls & w2 & sound_urls & w3 & H1 & H2 & H3 & H4).
  destruct (final_phase_ok _ _ _ _ _ _ _ _ _ H4) as (Hi & Hsc & Hv & Hs & Hmeta).
  destruct (sound_phase_run job_id false i video_urls w2)
    as (ss & w3' & H3' & _ & Hss & _).
  rewrite H3 in H3'. injection H3' as <- <-.
  destruct (composition_audio_track _ _ _ _ _ _ Hrun) as (_ & Hposted & _).
  rewrite Hposted, Hi, Hsc, Hv, Hs, Hss.
  split; [done|]. split; [|by rewrite <- Hss].
  unfold merge_payload. by rewrite merge_tracks_audio, existsb_replicate_none.
Qed.

Lemma no_sound_when_not_requested_witness :
  exists o w',
    run_stages "job_1" None false second_sound_fails = (Ok o, w') /\
    out_sound_urls o = replicate (length (out_video_urls o)) PNone /\
    posted fal_audio_url
      (new_events second_sound_fails
         (snd (run_video_generation "job_1" None false second_sound_fails))) = [].
Proof.
  destruct (no_sound_when_not_requested second_sound_fails "job_1" None)
    as (Hnone & _ & Hrun).
  assert (exists o w', run_stages "job_1" None false second_sound_fails = (Ok o, w'))
    as (o & w' & E) by (vm_compute; eexists _, _; reflexivity).
  exists o, w'. split; [exact E|]. split; [|exact Hnone].
  exact (proj1 (Hrun o w' E)).
Defined.

(** ** Job identifiers *)

Lemma to_uint_not_nil n : Nat.to_uint n <> Decimal.Nil.
Proof.
  intros H. pose proof (DecimalNat.Unsigned.of_to n) as Hn. rewrite H in Hn.
  simpl in Hn. subst n. discriminate H.
Qed.

Lemma str_nat_inj n m : str_nat n = str_nat m -> n = m.
Proof.
  unfold str_nat. intros H.
  apply DecimalNat.Unsigned.to_uint_inj.
  pose proof (NilZero.usu _ (to_uint_not_nil n)) as Hn.
  pose proof (NilZero.usu _ (to_uint_not_nil m)) as Hm.
  rewrite H in Hn. congruence.
Qed.

Lemma digits_no_underscore d : has_char "_" (NilEmpty.string_of_uint d) = false.
Proof. induction d; simpl; auto. Qed.

Lemma str_nat_no_underscore n : has_char "_" (str_nat n) = false.
Proof.
  unfold str_nat, NilZero.string_of_uint.
  destruct (Nat.to_uint n); try apply digits_no_underscore. reflexivity.
Qed.

Lemma has_char_app c a b : has_char c (a ++ String c b) = true.
Proof.
  induction a as [|c' a IH]; simpl.
  - by rewrite Ascii.eqb_refl.
  - rewrite IH. apply orb_true_r.
Qed.

(** The number at the end of a job id is determined by the id. *)
Lemma underscore_suffix_inj a b d1 d2 :
  has_char "_" d1 = false -> has_char "_" d2 = false ->
  a ++ "_" ++ d1 = b ++ "_" ++ d2 -> d1 = d2.
Proof.
  intros H1 H2. revert b.
  change ("_" ++ d1) with (String "_" d1). change ("_" ++ d2) with (String "_" d2).
  induction a as [|c a IH]; intros [|c' b] H.
  - by injection H.
  - change (String "_" d1 = String c' (b ++ String "_" d2)) in H.
    injection H as _ H. subst d1. by rewrite has_char_app in H1.
  - change (String c (a ++ String "_" d1) = String "_" d2) in H.
    injection H as _ H. subst d2. by rewrite has_char_app in H2.
  - change (String c (a ++ String "_" d1) = String c' (b ++ String "_" d2)) in H.
    injection H as _ H. by apply IH in H.
Qed.

Lemma make_job_id_fresh {A : Type} timestamp (jobs : gmap string A) :
  fresh_ids jobs -> jobs !! make_job_id timestamp jobs = None.
Proof.
  intros Hfresh. destruct (jobs !! make_job_id timestamp jobs) as [j|] eqn:E; [|done].
  destruct (Hfresh _ (mk_is_Some _ _ E)) as (ts & n & Hid & Hn).
  unfold make_job_id in Hid.
  pose proof (str_nat_no_underscore (size jobs)) as H1.
  pose proof (str_nat_no_underscore n) as H2.
  assert (str_nat (size jobs) = str_nat n) as Heq.
  { revert Hid H1 H2. generalize (str_nat (size jobs)) (str_nat n).
    intros d1 d2 Hid H1 H2.
    exact (underscore_suffix_inj ("job_" ++ timestamp) ("job_" ++ ts) d1 d2 H1 H2 Hid). }
  apply str_nat_inj in Heq. lia.
Qed.

(** ** The writes of a task *)

Lemma writes_of_app es1 es2 :
  writes_of (es1 ++ es2) = (writes_of es1 ++ writes_of es2)%list.
Proof. unfold writes_of. apply omap_app. Qed.

Lemma writes_of_stage job_id es :
  Forall (stage_event job_id) es ->
  Forall (fun x => fst x = job_id /\ exists p, snd x = SetProgress p) (writes_of es).
Proof.
  induction 1 as [|e es He Hes IH]; [constructor|].
  change (e :: es) with ([e] ++ es)%list. rewrite writes_of_app.
  apply Forall_app. split; [|done].
  destruct e as [r | d | j wr]; try constructor; [|constructor].
  destruct He as [-> Hp]. done.
Qed.

Lemma pending_ok_progress st ps rest :
  Forall (fun x : string * write => exists p, snd x = SetProgress p) ps ->
  pending_ok st (map snd rest) -> pending_ok st (map snd (ps ++ rest)).
Proof.
  induction 1 as [|[j wr] ps [p Hp] Hps IH]; [done|].
  intros Hrest. simpl in *. subst wr. auto.
Qed.

Lemma new_events_from_nil w w' : trace w = [] -> new_events w w' = trace w'.
Proof. unfold new_events. by intros ->. Qed.

Lemma final_writes_ok job_id r :
  Forall (fun x => fst x = job_id) (writes_of (final_writes job_id r)) /\
  pending_ok "processing" (map snd (writes_of (final_writes job_id r))).
Proof.
  destruct r; split; try (by repeat constructor);
    cbn; (split; [|done]); right; auto.
Qed.

Lemma task_writes_ok w job_id request :
  Forall (fun x => fst x = job_id) (task_writes w job_id request) /\
  pending_ok "started" (map snd (task_writes w job_id request)).
Proof.
  unfold task_writes. cbv zeta.
  rewrite <- (new_events_from_nil (set_state w (now w) (calls w) [])) by reflexivity.
  destruct (run_video_generation_events job_id (custom_prompt request)
              (include_sound request) (set_state w (now w) (calls w) []))
    as (es & Hes & _ & ->).
  generalize (fst (run_stages job_id (custom_prompt request) (include_sound request)
                     (set_state w (now w) (calls w) []))).
  intros r.
  change (?e :: es ++ ?f)%list with ([e] ++ es ++ f)%list.
  rewrite !writes_of_app.
  pose proof (writes_of_stage _ _ Hes) as Hps.
  destruct (final_writes_ok job_id r) as [Hf1 Hf2].
  revert Hf1 Hf2 Hps. generalize (writes_of (final_writes job_id r)) (writes_of es).
  intros fs ps Hf1 Hf2 Hps.
  split.
  - apply Forall_app. split; [by repeat constructor|].
    apply Forall_app. split; [|done].
    eapply Forall_impl; [exact Hps|]. by intros x [? _].
  - cbn. split; [left; done|].
    apply pending_ok_progress; [|done].
    eapply Forall_impl; [exact Hps|]. by intros x [_ ?].
Qed.

(** ** Reading and writing the dictionary of a job *)

Lemma update_job_inv job_id wr s s' :
  update_job job_id wr s = Some s' ->
  exists a j, active_jobs s !! job_id = Some a /\ objects s !! a = Some j /\
    s' = {| objects := <[a := apply_write wr j]> (objects s);
            active_jobs := active_jobs s; tasks := tasks s |}.
Proof.
  unfold update_job. intros H.
  destruct (active_jobs s !! job_id) as [a|]; [|done].
  destruct (objects s !! a) as [j|] eqn:Hj; [|done].
  injection H as <-. by exists a, j.
Qed.

Lemma task_step_inv n s s' :
  task_step n s = Some s' ->
  exists job_id wr rest a j,
    tasks s !! n = Some ((job_id, wr) :: rest) /\
    active_jobs s !! job_id = Some a /\ objects s !! a = Some j /\
    s' = {| objects := <[a := apply_write wr j]> (objects s);
            active_jobs := active_jobs s; tasks := <[n := rest]> (tasks s) |}.
Proof.
  unfold task_step. intros H.
  destruct (tasks s !! n) as [[|[job_id wr] rest]|]; try done.
  destruct (update_job job_id wr s) as [s1|] eqn:E; [|done].
  apply update_job_inv in E as (a & j & Ha & Hj & ->).
  injection H as <-. cbn. exists job_id, wr, rest, a, j. done.
Qed.

(** A write changes the dictionary of its job and of no other job. *)
Lemma job_data_write s job_id wr a j ts other :
  no_alias s ->
  active_jobs s !! job_id = Some a -> objects s !! a = Some j ->
  job_data {| objects := <[a := apply_write wr j]> (objects s);
              active_jobs := active_jobs s; tasks := ts |} other =
    if decide (other = job_id) then Some (apply_write wr j) else job_data s other.
Proof.
  intros [Hbound Hinj] Ha Hj. unfold job_data. cbn.
  destruct (decide (other = job_id)) as [-> | Hne].
  - rewrite Ha. apply list_lookup_insert_eq. by eapply lookup_lt_Some.
  - destruct (active_jobs s !! other) as [b|] eqn:Hb; [|done].
    apply list_lookup_insert_ne. intros <-. apply Hne. by eapply Hinj.
Qed.

(** A submission adds the dictionary of the new job and changes no other. *)
Lemma job_data_submit timestamp created_at request w s k :
  no_alias s ->
  job_data (snd (generate_video timestamp created_at request w s)) k =
    if decide (k = make_job_id timestamp (active_jobs s))
    then Some (new_job created_at request) else job_data s k.
Proof.
  intros [Hbound _]. unfold job_data, generate_video. cbn.
  destruct (decide (k = make_job_id timestamp (active_jobs s))) as [-> | Hne].
  - rewrite lookup_insert_eq. by apply list_lookup_middle.
  - rewrite lookup_insert_ne by done.
    destruct (active_jobs s !! k) as [a|] eqn:Ha; [|done].
    apply lookup_app_l. by eapply Hbound.
Qed.

Lemma job_data_active s k j :
  job_data s k = Some j -> is_Some (active_jobs s !! k).
Proof. unfold job_data. destruct (active_jobs s !! k); [eauto | done]. Qed.

(** ** The order of the statuses *)

Lemma next_rank a b : next a b -> (rank a < rank b)%nat.
Proof. intros [[-> ->] | [-> [-> | ->]]]; cbn; lia. Qed.

Lemma next_known a b : next a b -> known_status b.
Proof. unfold known_status. intros [[_ ->] | [_ [-> | ->]]]; auto. Qed.

Lemma terminal_no_next a b : terminal a -> next a b -> False.
Proof. intros [-> | ->] [[? _] | [? _]]; discriminate. Qed.

Lemma rtc_next_rank a b : rtc next a b -> (rank a <= rank b)%nat.
Proof.
  induction 1 as [|a b c Hab _ IH]; [lia|]. apply next_rank in Hab. lia.
Qed.

Lemma rtc_next_terminal a b : terminal a -> rtc next a b -> b = a.
Proof.
  intros Ha Hab. destruct Hab as [|a b c Hab _]; [done|].
  by destruct (terminal_no_next _ _ Ha Hab).
Qed.

Lemma apply_write_status wr j :
  job_status (apply_write wr j) =
    match wr with SetStatus s => s | _ => job_status j end.
Proof. by destruct wr. Qed.

Lemma pending_ok_cons st wr rest :
  pending_ok st (wr :: rest) ->
  advance st (match wr with SetStatus s => s | _ => st end) /\
  pending_ok (match wr with SetStatus s => s | _ => st end) rest.
Proof.
  destruct wr; simpl; intros H; [split; [right|]; tauto | split; [by left|done]..].
Qed.

(** ** The invariant of the process *)

Lemma invariant_initial : invariant initial.
Proof.
  split; [|split; [|split]].
  - intros k [j Hk]. cbn in Hk. by rewrite lookup_empty in Hk.
  - split; intros k; cbn; intros; by rewrite lookup_empty in *.
  - intros k j. unfold job_data. cbn. by rewrite lookup_empty.
  - exists []. split; [done|]. split; [constructor|].
    intros n id l Hn. by rewrite lookup_nil in Hn.
Qed.

Lemma invariant_submit s timestamp created_at request w :
  invariant s -> invariant (snd (generate_video timestamp created_at request w s)).
Proof.
  intros (Hfresh & Halias & Hknown & ids & Hlen & Hnodup & Htasks).
  pose proof (make_job_id_fresh timestamp _ Hfresh) as Hnew.
  pose proof (job_data_submit timestamp created_at request w s) as Hdata.
  destruct Halias as [Hbound Hinj].
  assert (no_alias (snd (generate_video timestamp created_at request w s))) as Halias'.
  { split; cbn.
    - intros k a Hk. rewrite length_app. cbn.
      destruct (decide (k = make_job_id timestamp (active_jobs s))) as [-> | Hne].
      + rewrite lookup_insert_eq in Hk. injection Hk as <-. lia.
      + rewrite lookup_insert_ne in Hk by done. apply Hbound in Hk. lia.
    - intros k1 k2 a H1 H2.
      destruct (decide (k1 = make_job_id timestamp (active_jobs s))) as [-> | Hne1];
        destruct (decide (k2 = make_job_id timestamp (active_jobs s))) as [-> | Hne2];
        try done.
      + rewrite lookup_insert_eq in H1. injection H1 as <-.
        rewrite lookup_insert_ne in H2 by done. apply Hbound in H2. lia.
      + rewrite lookup_insert_eq in H2. injection H2 as <-.
        rewrite lookup_insert_ne in H1 by done. apply Hbound in H1. lia.
      + rewrite lookup_insert_ne in H1 by done.
        rewrite lookup_insert_ne in H2 by done. by eapply Hinj. }
  split; [|split; [done|split]].
  - cbn. intros k Hk. rewrite map_size_insert_None by done.
    destruct (decide (k = make_job_id timestamp (active_jobs s))) as [-> | Hne].
    + exists timestamp, (size (active_jobs s)). split; [done|lia].
    + rewrite lookup_insert_ne in Hk by done.
      destruct (Hfresh k Hk) as (ts & m & -> & Hm). exists ts, m. split; [done|lia].
  - intros k j. rewrite Hdata by done.
    destruct (decide _); [|by apply Hknown].
    intros [= <-]. by left.
  - exists (ids ++ [make_job_id timestamp (active_jobs s)])%list.
    split; [by cbn; rewrite !length_app, Hlen|]. split.
    + apply NoDup_app. split; [done|]. split; [|apply NoDup_singleton].
      intros x Hx ->%list_elem_of_singleton.
      apply list_elem_of_lookup in Hx as [m Hm].
      destruct (lookup_lt_is_Some_2 (tasks s) m) as [l Hl].
      { rewrite <- Hlen. by eapply lookup_lt_Some. }
      destruct (Htasks m _ l Hm Hl) as (_ & j & Hj & _).
      apply job_data_active in Hj as [a Ha]. congruence.
    + intros m k l Hk Hl. cbn in Hl.
      destruct (decide (m < length ids)%nat) as [Hlt | Hge].
      * rewrite lookup_app_l in Hk by done.
        rewrite lookup_app_l in Hl by lia.
        destruct (Htasks m k l Hk Hl) as (Hall & j & Hj & Hpend).
        split; [done|]. exists j. split; [|done].
        rewrite Hdata by done. destruct (decide _) as [-> | _]; [|done].
        apply job_data_active in Hj as [a Ha]. congruence.
      * rewrite lookup_app_r in Hk by lia.
        rewrite lookup_app_r in Hl by lia.
        rewrite Hlen in Hk.
        destruct (m - length (tasks s))%nat as [|?] eqn:E; [|done].
        cbn in Hk, Hl. injection Hk as <-. injection Hl as <-.
        destruct (task_writes_ok w (make_job_id timestamp (active_jobs s)) request)
          as [Hall Hpend].
        split; [done|]. exists (new_job created_at request). split; [|exact Hpend].
        rewrite Hdata by done. by destruct (decide _).
Qed.

Lemma invariant_write s s' n : invariant s -> task_step n s = Some s' -> invariant s'.
Proof.
  intros (Hfresh & Halias & Hknown & ids & Hlen & Hnodup & Htasks) Hstep.
  apply task_step_inv in Hstep as (job_id & wr & rest & a & j & Hn & Ha & Hj & ->).
  pose proof (fun other => job_data_write s job_id wr a j (<[n := rest]> (tasks s))
                             other Halias Ha Hj) as Hdata.
  destruct (lookup_lt_is_Some_2 ids n) as [id Hid].
  { rewrite Hlen. by eapply lookup_lt_Some. }
  destruct (Htasks n id _ Hid Hn) as (Hall & j0 & Hj0 & Hpend).
  apply Forall_cons in Hall as [Hhead Hall]. cbn in Hhead. subst id.
  assert (j0 = j) as ->.
  { unfold job_data in Hj0. rewrite Ha in Hj0. congruence. }
  cbn in Hpend. apply pending_ok_cons in Hpend as [Hadv Hpend].
  rewrite <- apply_write_status with (j := j) in Hadv, Hpend.
  split; [done|split; [|split]].
  - destruct Halias as [Hbound Hinj]. split; cbn; [|done].
    intros k b Hk. rewrite length_insert. by eapply Hbound.
  - intros k j'. rewrite Hdata. destruct (decide _) as [-> | _]; [|by apply Hknown].
    intros [= <-]. destruct Hadv as [<- | Hnext]; [by eapply Hknown|].
    by eapply next_known.
  - exists ids. split; [by cbn; rewrite length_insert|]. split; [done|].
    intros m k l Hk Hl. cbn in Hl.
    destruct (decide (m = n)) as [-> | Hne].
    + rewrite list_lookup_insert_eq in Hl by (by eapply lookup_lt_Some).
      injection Hl as <-. assert (k = job_id) as -> by congruence.
      split; [done|]. exists (apply_write wr j). split; [|done].
      rewrite Hdata. by destruct (decide _).
    + rewrite list_lookup_insert_ne in Hl by done.
      destruct (Htasks m k l Hk Hl) as (Hall' & j' & Hj' & Hpend').
      split; [done|]. exists j'. split; [|done].
      rewrite Hdata. destruct (decide _) as [-> | _]; [|done].
      destruct Hne. eapply NoDup_lookup; eauto.
Qed.

Lemma invariant_step s s' : invariant s -> step s s' -> invariant s'.
Proof.
  intros Hinv Hstep. destruct Hstep as [s timestamp created_at request w | s s' n Hn].
  - by apply invariant_submit.
  - by eapply invariant_write.
Qed.

Lemma reachable_invariant s : reachable s -> invariant s.
Proof.
  induction 1 as [|s s' _ IH Hstep]; [apply invariant_initial|].
  by eapply invariant_step.
Qed.

Lemma reachable_steps s s' : reachable s -> rtc step s s' -> reachable s'.
Proof.
  intros Hs Hsteps. induction Hsteps as [|s s1 s2 Hstep _ IH]; [done|].
  apply IH. by eapply reachable_step.
Qed.

(** ** One step of the process, seen from one job *)

Lemma step_advance s s' job_id j :
  invariant s -> step s s' -> job_data s job_id = Some j ->
  exists j', job_data s' job_id = Some j' /\
             advance (job_status j) (job_status j').
Proof.
  intros (Hfresh & Halias & Hknown & ids & Hlen & Hnodup & Htasks) Hstep Hj.
  destruct Hstep as [s timestamp created_at request w | s s' n Hn].
  - exists j. split; [|by left].
    rewrite job_data_submit by done. destruct (decide _) as [-> | _]; [|done].
    apply job_data_active in Hj as [a Ha].
    by rewrite (make_job_id_fresh timestamp _ Hfresh) in Ha.
  - apply task_step_inv in Hn as (id & wr & rest & a & j0 & Hn & Ha & Hj0 & ->).
    rewrite (job_data_write s id wr a j0 _ job_id Halias Ha Hj0).
    destruct (decide _) as [-> | _]; [|exists j; split; [done|by left]].
    assert (j0 = j) as ->.
    { unfold job_data in Hj. rewrite Ha in Hj. congruence. }
    exists (apply_write wr j). split; [done|].
    destruct (lookup_lt_is_Some_2 ids n) as [id' Hid].
    { rewrite Hlen. by eapply lookup_lt_Some. }
    destruct (Htasks n id' _ Hid Hn) as (Hall & j1 & Hj1 & Hpend).
    apply Forall_cons in Hall as [Hhead _]. cbn in Hhead. subst id'.
    assert (j1 = j) as -> by congruence.
    cbn in Hpend. apply pending_ok_cons in Hpend as [Hadv _].
    by rewrite apply_write_status.
Qed.

Lemma steps_advance s s' job_id j :
  reachable s -> rtc step s s' -> job_data s job_id = Some j ->
  exists j', job_data s' job_id = Some j' /\
             rtc next (job_status j) (job_status j').
Proof.
  intros Hs Hsteps. revert j Hs.
  induction Hsteps as [s|s s1 s2 Hstep _ IH]; intros j Hs Hj.
  - exists j. split; [done|apply rtc_refl].
  - destruct (step_advance s s1 job_id j (reachable_invariant s Hs) Hstep Hj)
      as (j1 & Hj1 & Hadv).
    destruct (IH j1 (reachable_step s s1 Hs Hstep) Hj1) as (j2 & Hj2 & Hrtc).
    exists j2. split; [done|].
    destruct Hadv as [-> | Hnext]; [done|]. by eapply rtc_l.
Qed.

(** C6: the status of a job only advances along started, processing, then
    completed or failed.  From any state that the process reaches, and
    after any further interleaving of submissions and writes of tasks, a
    job that was in the table is still there, its status was reached from
    the old one by the moves started to processing and processing to
    completed or failed alone, so its place in that order has not gone
    down, and a status that was completed or failed is the same. *)
Theorem job_state_is_monotonic s s' job_id j :
  reachable s -> rtc step s s' -> job_data s job_id = Some j ->
  exists j', job_data s' job_id = Some j' /\
    rtc next (job_status j) (job_status j') /\
    (rank (job_status j) <= rank (job_status j'))%nat /\
    (terminal (job_status j) -> job_status j' = job_status j) /\
    known_status (job_status j').
Proof.
  intros Hs Hsteps Hj.
  destruct (steps_advance s s' job_id j Hs Hsteps Hj) as (j' & Hj' & Hrtc).
  exists j'. split; [done|]. split; [done|]. split; [by apply rtc_next_rank|].
  split; [intros Hterm; by apply rtc_next_terminal|].
  destruct (reachable_invariant s' (reachable_steps s s' Hs Hsteps))
    as (_ & _ & Hknown & _).
  by eapply Hknown.
Qed.

Lemma job_state_is_monotonic_witness :
  exists j', job_data one_job_running "job_20250101_120000_0" = Some j' /\
    rtc next "started" (job_status j') /\
    (rank "started" <= rank (job_status j'))%nat /\
    (terminal "started" -> job_status j' = "started") /\
    known_status (job_status j').
Proof.
  apply (job_state_is_monotonic one_job one_job_running "job_20250101_120000_0"
           (new_job "2025-01-01T12:00:00" default_request)).
  - apply (reachable_step initial); [apply reachable_initial | apply step_submit].
  - apply rtc_once. apply (step_write _ _ 0). vm_compute. reflexivity.
  - vm_compute. reflexivity.
Defined.

(** C7: the same request submitted twice, with anything happening in
    between and whatever the clock says, gets two different job ids; the
    second job gets a dictionary of its own, and from then on the table
    names two different objects for the two ids, so that a write to the
    dictionary of one job leaves what the table holds for the other job
    as it was. *)
Theorem jobs_are_isolated s ts1 ca1 w1 ts2 ca2 w2 request s2 :
  reachable s ->
  rtc step (snd (generate_video ts1 ca1 request w1 s)) s2 ->
  let id1 := fst (generate_video ts1 ca1 request w1 s) in
  let id2 := fst (generate_video ts2 ca2 request w2 s2) in
  id1 <> id2 /\
  job_data (snd (generate_video ts2 ca2 request w2 s2)) id2 = Some (new_job ca2 request) /\
  forall s3, rtc step (snd (generate_video ts2 ca2 request w2 s2)) s3 ->
    (exists a1 a2 j1 j2,
       active_jobs s3 !! id1 = Some a1 /\ active_jobs s3 !! id2 = Some a2 /\
       a1 <> a2 /\ objects s3 !! a1 = Some j1 /\ objects s3 !! a2 = Some j2) /\
    forall wr s4,
      (update_job id1 wr s3 = Some s4 -> job_data s4 id2 = job_data s3 id2) /\
      (update_job id2 wr s3 = Some s4 -> job_data s4 id1 = job_data s3 id1).
Proof.
  intros Hs Hsteps id1 id2.
  pose proof (reachable_invariant s Hs) as Hinv.
  pose proof (reachable_step _ _ Hs (step_submit s ts1 ca1 request w1)) as Hs1.
  pose proof (reachable_steps _ _ Hs1 Hsteps) as Hs2.
  pose proof (reachable_invariant _ Hs2) as Hinv2.
  pose proof (reachable_step _ _ Hs2 (step_submit s2 ts2 ca2 request w2)) as Hs2'.
  assert (job_data (snd (generate_video ts1 ca1 request w1 s)) id1 =
            Some (new_job ca1 request)) as Hj1.
  { rewrite job_data_submit by apply Hinv. subst id1. cbn. by destruct (decide _). }
  destruct (steps_advance _ _ id1 _ Hs1 Hsteps Hj1) as (j1 & Hj1' & _).
  assert (id1 <> id2) as Hne.
  { intros Heq. apply job_data_active in Hj1' as [a Ha]. rewrite Heq in Ha.
    subst id2. cbn in Ha.
    by rewrite (make_job_id_fresh ts2 _ (proj1 Hinv2)) in Ha. }
  assert (job_data (snd (generate_video ts2 ca2 request w2 s2)) id2 =
            Some (new_job ca2 request)) as Hj2.
  { rewrite job_data_submit by apply Hinv2. subst id2. cbn. by destruct (decide _). }
  assert (job_data (snd (generate_video ts2 ca2 request w2 s2)) id1 = Some j1) as Hj12.
  { rewrite job_data_submit by apply Hinv2. destruct (decide _) as [Heq | _]; [|done].
    by destruct Hne. }
  split; [done|]. split; [done|].
  intros s3 Hsteps3.
  pose proof (reachable_invariant _ (reachable_steps _ _ Hs2' Hsteps3))
    as (_ & Halias & _).
  destruct (steps_advance _ _ id1 _ Hs2' Hsteps3 Hj12) as (k1 & Hk1 & _).
  destruct (steps_advance _ _ id2 _ Hs2' Hsteps3 Hj2) as (k2 & Hk2 & _).
  split.
  - unfold job_data in Hk1, Hk2.
    destruct (active_jobs s3 !! id1) as [a1|] eqn:Ha1; [|done].
    destruct (active_jobs s3 !! id2) as [a2|] eqn:Ha2; [|done].
    exists a1, a2, k1, k2. repeat split; try done.
    intros <-. apply Hne. by eapply (proj2 Halias).
  - intros wr s4. split; intros Hup;
      apply update_job_inv in Hup as (a & j & Ha & Hj & ->);
      rewrite (job_data_write s3 _ wr a j _ _ Halias Ha Hj);
      destruct (decide _) as [Heq | _]; try done; by destruct Hne.
Qed.

Lemma jobs_are_isolated_witness :
  "job_20250101_120000_0" <> "job_20250101_120000_1" /\
  job_data two_jobs "job_20250101_120000_1" =
    Some (new_job "2025-01-01T12:00:00" default_request) /\
  forall s3, rtc step two_jobs s3 ->
    (exists a1 a2 j1 j2,
       active_jobs s3 !! "job_20250101_120000_0" = Some a1 /\
       active_jobs s3 !! "job_20250101_120000_1" = Some a2 /\
       a1 <> a2 /\ objects s3 !! a1 = Some j1 /\ objects s3 !! a2 = Some j2) /\
    forall wr s4,
      (update_job "job_20250101_120000_0" wr s3 = Some s4 ->
       job_data s4 "job_20250101_120000_1" = job_data s3 "job_20250101_120000_1") /\
      (update_job "job_20250101_120000_1" wr s3 = Some s4 ->
       job_data s4 "job_20250101_120000_0" = job_data s3 "job_20250101_120000_0").
Proof.
  apply (jobs_are_isolated initial "20250101_120000" "2025-01-01T12:00:00" offline
           "20250101_120000" "2025-01-01T12:00:00" offline default_request one_job).
  - apply reachable_initial.
  - apply rtc_refl.
Defined.

(** ** The registry: what the handlers answer *)

Lemma reachable_no_alias s : reachable s -> no_alias s.
Proof. intros Hs. by destruct (reachable_invariant s Hs) as (_ & ? & _). Qed.

Lemma job_data_Some s k :
  no_alias s -> is_Some (active_jobs s !! k) -> is_Some (job_data s k).
Proof.
  intros [Hbound _] [a Ha]. unfold job_data. rewrite Ha.
  apply lookup_lt_is_Some_2. by eapply Hbound.
Qed.

(** X1.  A write of a task never meets a missing key. *)
Theorem pending_write_is_enabled s n job_id wr rest :
  reachable s -> tasks s !! n = Some ((job_id, wr) :: rest) ->
  exists j s',
    job_data s job_id = Some j /\
    task_step n s = Some s' /\
    job_data s' job_id = Some (apply_write wr j) /\
    tasks s' = <[n := rest]> (tasks s).
Proof.
  intros Hs Hn.
  destruct (reachable_invariant s Hs) as (_ & Halias & _ & ids & Hlen & _ & Htasks).
  destruct (lookup_lt_is_Some_2 ids n) as [id Hid].
  { rewrite Hlen. by eapply lookup_lt_Some. }
  destruct (Htasks n id _ Hid Hn) as (Hall & j & Hj & _).
  apply Forall_cons in Hall as [Hhead _]. cbn in Hhead. subst id.
  exists j. unfold task_step, update_job. rewrite Hn.
  unfold job_data in Hj.
  destruct (active_jobs s !! job_id) as [a|] eqn:Ha; [|done].
  rewrite Hj. eexists. split; [by unfold job_data; rewrite Ha|]. split; [done|].
  split; [|done].
  rewrite (job_data_write s job_id wr a j _ job_id Halias Ha Hj).
  by destruct (decide _).
Qed.

Lemma pending_write_is_enabled_witness :
  exists j s',
    job_data one_job "job_20250101_120000_0" = Some j /\
    task_step 0 one_job = Some s' /\
    job_data s' "job_20250101_120000_0" = Some (apply_write (SetStatus "processing") j) /\
    tasks s' = <[0%nat := tl (task_writes offline "job_20250101_120000_0" default_request)]>
                 (tasks one_job).
Proof.
  apply (pending_write_is_enabled one_job 0 "job_20250101_120000_0"
           (SetStatus "processing")).
  - apply (reachable_step initial); [apply reachable_initial | apply step_submit].
  - vm_compute. reflexivity.
Defined.

Lemma map_size_omap_total {A B} (f : A -> option B) (m : gmap string A) :
  (forall k a, m !! k = Some a -> is_Some (f a)) -> size (omap f m) = size m.
Proof.
  induction m as [|k a m Hk _ IH] using map_first_key_ind; intros Hf.
  - by rewrite omap_empty, !map_size_empty.
  - destruct (Hf k a) as [b Hb]; [by rewrite lookup_insert_eq|].
    rewrite (omap_insert_Some f m k a b Hb).
    rewrite !map_size_insert_None; [|done|by rewrite lookup_omap, Hk].
    f_equal. apply IH. intros k' a' Hk'. apply (Hf k').
    rewrite lookup_insert_ne; [done|]. intros <-. congruence.
Qed.

Lemma jobs_lookup s job_id : jobs s !! job_id = job_data s job_id.
Proof.
  unfold jobs, job_data. rewrite lookup_omap.
  by destruct (active_jobs s !! job_id).
Qed.

(** The table has one entry and the store one object for every task. *)
Lemma counts_step s s' :
  invariant s -> step s s' ->
  size (active_jobs s) = length (tasks s) /\ length (objects s) = length (tasks s) ->
  size (active_jobs s') = length (tasks s') /\ length (objects s') = length (tasks s').
Proof.
  intros (Hfresh & _) Hstep [H1 H2].
  destruct Hstep as [s timestamp created_at request w | s s' n Hn].
  - cbn. rewrite map_size_insert_None by (by apply make_job_id_fresh).
    rewrite !length_app. cbn. lia.
  - apply task_step_inv in Hn as (id & wr & rest & a & j & _ & _ & _ & ->).
    cbn. by rewrite !length_insert.
Qed.

Lemma reachable_counts s :
  reachable s ->
  size (active_jobs s) = length (tasks s) /\ length (objects s) = length (tasks s).
Proof.
  induction 1 as [|s s' Hs IH Hstep]; [done|].
  eapply counts_step; [by apply reachable_invariant|done|done].
Qed.

(** X2.  What [GET /jobs] answers.  The number of jobs is the number of
    requests accepted so far, no entry is ever lost or overwritten, the
    jobs that count as active are among them, and the table answered has
    the dictionary of every job. *)
Theorem every_submission_is_counted s :
  reachable s ->
  let '(active, total, table) := list_active_jobs s in
  total = length (tasks s) /\ total = length (objects s) /\
  (active <= total)%nat /\ size table = total /\
  forall job_id, table !! job_id = job_data s job_id.
Proof.
  intros Hs. unfold list_active_jobs.
  destruct (reachable_counts s Hs) as [H1 H2].
  assert (size (jobs s) = size (active_jobs s)) as Hsize.
  { apply map_size_omap_total. intros k a Hk.
    apply lookup_lt_is_Some_2. by eapply (proj1 (reachable_no_alias s Hs)). }
  split; [done|]. split; [lia|]. split; [|split; [done|apply jobs_lookup]].
  rewrite <- Hsize. apply map_subseteq_size, map_filter_subseteq.
Qed.

Lemma every_submission_is_counted_witness :
  let '(active, total, table) := list_active_jobs two_jobs in
  total = length (tasks two_jobs) /\ total = length (objects two_jobs) /\
  (active <= total)%nat /\ size table = total /\
  forall job_id, table !! job_id = job_data two_jobs job_id.
Proof.
  apply (every_submission_is_counted two_jobs).
  apply (reachable_step one_job); [|apply step_submit].
  apply (reachable_step initial); [apply reachable_initial | apply step_submit].
Defined.

(** X3.  What [GET /status/{job_id}] answers.  It is 404 exactly for an id
    that is not in the table; the id that a submission answers with gets
    the record of a job just started; and an id that was answered once is
    answered for ever, with the same id. *)
Theorem status_of_a_job s :
  reachable s ->
  (forall job_id,
     get_job_status job_id s = inl (Http 404 "Job not found") <->
     active_jobs s !! job_id = None) /\
  (forall timestamp created_at request w,
     let (job_id, s') := generate_video timestamp created_at request w s in
     get_job_status job_id s = inl (Http 404 "Job not found") /\
     get_job_status job_id s' =
       inr {| js_job_id := job_id; js_status := "started";
              js_progress := Text "Initializing video generation...";
              js_result := None; js_error := None |}) /\
  (forall job_id answer s',
     get_job_status job_id s = inr answer -> rtc step s s' ->
     exists answer',
       get_job_status job_id s' = inr answer' /\ js_job_id answer' = job_id /\
       rtc next (js_status answer) (js_status answer')).
Proof.
  intros Hs. pose proof (reachable_invariant s Hs) as (Hfresh & Halias & _).
  assert (forall job_id,
            get_job_status job_id s = inl (Http 404 "Job not found") <->
            active_jobs s !! job_id = None) as H404.
  { intros job_id. unfold get_job_status. split.
    - destruct (job_data s job_id) as [j|] eqn:Hj; [done|]. intros _.
      destruct (active_jobs s !! job_id) as [a|] eqn:Ha; [|done].
      destruct (job_data_Some s job_id Halias) as [j Hj']; [by eexists|]. congruence.
    - intros Hnone. unfold job_data. by rewrite Hnone. }
  split; [done|]. split.
  - intros timestamp created_at request w.
    pose proof (job_data_submit timestamp created_at request w s
                  (make_job_id timestamp (active_jobs s)) Halias) as Hnew.
    unfold generate_video in *. cbn in *. split.
    + apply H404. by apply make_job_id_fresh.
    + unfold get_job_status. rewrite Hnew. by destruct (decide _).
  - intros job_id answer s' Hanswer Hsteps. unfold get_job_status in *.
    destruct (job_data s job_id) as [j|] eqn:Hj; [|done].
    destruct (steps_advance s s' job_id j Hs Hsteps Hj) as (j' & -> & Hnext).
    injection Hanswer as <-. eexists. split; [done|]. cbn. done.
Qed.

Lemma status_of_a_job_witness :
  get_job_status "job_20250101_120000_1" one_job = inl (Http 404 "Job not found") /\
  exists answer',
    get_job_status "job_20250101_120000_0" one_job_running = inr answer' /\
    js_job_id answer' = "job_20250101_120000_0" /\
    rtc next "started" (js_status answer').
Proof.
  assert (reachable one_job) as Hs.
  { apply (reachable_step initial); [apply reachable_initial | apply step_submit]. }
  destruct (status_of_a_job one_job Hs) as (H404 & _ & Hkeep).
  split.
  - apply H404. vm_compute. reflexivity.
  - apply (Hkeep "job_20250101_120000_0"
             {| js_job_id := "job_20250101_120000_0"; js_status := "started";
                js_progress := Text "Initializing video generation...";
                js_result := None; js_error := None |}).
    + vm_compute. reflexivity.
    + apply rtc_once. apply (step_write _ _ 0). vm_compute. reflexivity.
Defined.

(** ** A task run to its end *)

Lemma apply_writes_app ws1 ws2 j :
  apply_writes (ws1 ++ ws2) j = apply_writes ws2 (apply_writes ws1 j).
Proof. apply foldl_app. Qed.

Lemma apply_writes_progress ps j :
  Forall (fun x : string * write => exists p, snd x = SetProgress p) ps ->
  job_status (apply_writes ps j) = job_status j /\
  job_result (apply_writes ps j) = job_result j /\
  job_error (apply_writes ps j) = job_error j /\
  job_created_at (apply_writes ps j) = job_created_at j /\
  job_request (apply_writes ps j) = job_request j.
Proof.
  intros Hps. revert j. induction Hps as [|[id wr] ps [p Hp] _ IH]; intros j; [done|].
  cbn in Hp. subst wr.
  change (apply_writes ((id, SetProgress p) :: ps) j)
    with (apply_writes ps (apply_write (SetProgress p) j)).
  destruct (IH (apply_write (SetProgress p) j)) as (-> & -> & -> & -> & ->). done.
Qed.

(** The writes of a task: processing, progress texts, and the three last
    writes. *)
Lemma task_writes_shape w job_id request :
  exists ps r,
    task_writes w job_id request =
      ((job_id, SetStatus "processing") :: ps ++ writes_of (final_writes job_id r))%list /\
    Forall (fun x => fst x = job_id /\ exists p, snd x = SetProgress p) ps.
Proof.
  unfold task_writes. cbv zeta.
  rewrite <- (new_events_from_nil (set_state w (now w) (calls w) [])) by reflexivity.
  destruct (run_video_generation_events job_id (custom_prompt request)
              (include_sound request) (set_state w (now w) (calls w) []))
    as (es & Hes & _ & ->).
  exists (writes_of es),
    (fst (run_stages job_id (custom_prompt request) (include_sound request)
            (set_state w (now w) (calls w) []))).
  split; [|by apply writes_of_stage].
  change (?e :: es ++ ?f)%list with ([e] ++ es ++ f)%list.
  by rewrite !writes_of_app.
Qed.

Lemma task_writes_finished w job_id request created_at :
  finished job_id (apply_writes (task_writes w job_id request) (new_job created_at request)) /\
  job_created_at (apply_writes (task_writes w job_id request) (new_job created_at request))
    = created_at /\
  job_request (apply_writes (task_writes w job_id request) (new_job created_at request))
    = request.
Proof.
  destruct (task_writes_shape w job_id request) as (ps & r & -> & Hps).
  change (?x :: ps ++ ?f)%list with ([x] ++ ps ++ f)%list.
  rewrite !apply_writes_app.
  set (j1 := apply_writes [(job_id, SetStatus "processing")] (new_job created_at request)).
  destruct (apply_writes_progress ps j1) as (_ & Hr & He & Hc & Hq).
  { eapply Forall_impl; [exact Hps|]. by intros x [_ ?]. }
  revert Hr He Hc Hq. generalize (apply_writes ps j1). intros j2 Hr He Hc Hq.
  destruct r as [o | e]; cbn.
  - split; [|done]. left. split; [done|]. split; [done|]. split; [done|].
    eexists. split; [done|]. done.
  - split; [|done]. right. split; [done|]. split; [done|]. by exists e.
Qed.

Lemma run_task_all ws : forall s n id j,
  no_alias s -> tasks s !! n = Some ws -> Forall (fun x => fst x = id) ws ->
  job_data s id = Some j ->
  job_data (run_task (length ws) n s) id = Some (apply_writes ws j) /\
  tasks (run_task (length ws) n s) = <[n := []]> (tasks s) /\
  rtc step s (run_task (length ws) n s) /\
  forall other, other <> id ->
    job_data (run_task (length ws) n s) other = job_data s other.
Proof.
  induction ws as [|[id' wr] rest IH]; intros s n id j Halias Hn Hall Hj.
  - cbn. split; [done|]. split; [by rewrite list_insert_id|]. split; [apply rtc_refl|done].
  - apply Forall_cons in Hall as [Hhead Hall]. cbn in Hhead. subst id'.
    assert (exists a, active_jobs s !! id = Some a /\ objects s !! a = Some j)
      as (a & Ha & Hobj).
    { unfold job_data in Hj. destruct (active_jobs s !! id) as [a|]; [|done]. by exists a. }
    assert (task_step n s =
              Some {| objects := <[a := apply_write wr j]> (objects s);
                      active_jobs := active_jobs s;
                      tasks := <[n := rest]> (tasks s) |}) as Hstep.
    { unfold task_step, update_job. by rewrite Hn, Ha, Hobj. }
    cbn [length run_task]. rewrite Hstep.
    set (s1 := {| objects := <[a := apply_write wr j]> (objects s);
                  active_jobs := active_jobs s;
                  tasks := <[n := rest]> (tasks s) |}) in *.
    pose proof (fun other => job_data_write s id wr a j (<[n := rest]> (tasks s))
                               other Halias Ha Hobj) as Hdata.
    fold s1 in Hdata.
    assert (no_alias s1) as Halias1.
    { destruct Halias as [Hbound Hinj]. split; [|done].
      intros k b Hk. cbn. rewrite length_insert. by eapply Hbound. }
    assert (tasks s1 !! n = Some rest) as Hn1.
    { cbn. apply list_lookup_insert_eq. by eapply lookup_lt_Some. }
    assert (job_data s1 id = Some (apply_write wr j)) as Hj1.
    { rewrite Hdata. by destruct (decide _). }
    destruct (IH s1 n id _ Halias1 Hn1 Hall Hj1) as (H1 & H2 & H3 & H4).
    split; [done|]. split; [|split].
    + rewrite H2. cbn. by rewrite list_insert_insert_eq.
    + eapply rtc_l; [|exact H3]. by apply (step_write s s1 n).
    + intros other Hne. rewrite H4 by done. rewrite Hdata.
      by destruct (decide _).
Qed.

(** X4.  A job that is submitted and whose task runs to its end is left
    completed, with a result that names the job and no error, or failed,
    with the error and no result; its task has nothing left to write, and
    the dictionary of no other job has changed. *)
Theorem submitted_job_runs_to_the_end s timestamp created_at request w :
  reachable s ->
  let job_id := fst (submit_and_run timestamp created_at request w s) in
  let s' := snd (submit_and_run timestamp created_at request w s) in
  reachable s' /\
  (exists j, job_data s' job_id = Some j /\ finished job_id j /\
             job_created_at j = created_at /\ job_request j = request) /\
  tasks s' !! length (tasks s) = Some [] /\
  forall other, other <> job_id -> job_data s' other = job_data s other.
Proof.
  intros Hs. cbv zeta. unfold submit_and_run. cbn [fst snd].
  set (job_id := fst (generate_video timestamp created_at request w s)).
  pose proof (reachable_invariant s Hs) as (Hfresh & Halias & _).
  pose proof (reachable_step _ _ Hs (step_submit s timestamp created_at request w)) as Hs1.
  pose proof (job_data_submit timestamp created_at request w s) as Hdata.
  assert (job_id = make_job_id timestamp (active_jobs s)) as Hid by reflexivity.
  assert (job_data (snd (generate_video timestamp created_at request w s)) job_id =
            Some (new_job created_at request)) as Hj.
  { rewrite Hdata by done. rewrite Hid. by destruct (decide _). }
  assert (tasks (snd (generate_video timestamp created_at request w s)) !! length (tasks s)
            = Some (task_writes w job_id request)) as Hn.
  { cbn. by apply list_lookup_middle. }
  destruct (task_writes_ok w job_id request) as [Hall _].
  destruct (run_task_all _ _ _ _ _ (reachable_no_alias _ Hs1) Hn Hall Hj)
    as (H1 & H2 & H3 & H4).
  destruct (task_writes_finished w job_id request created_at) as (Hfin & Hc & Hq).
  split; [by eapply reachable_steps|]. split; [|split].
  - eexists. split; [exact H1|]. done.
  - rewrite H2. apply list_lookup_insert_eq. by eapply lookup_lt_Some.
  - intros other Hne. rewrite H4 by done. rewrite Hdata by done.
    destruct (decide _) as [Heq | _]; [|done]. by rewrite <- Hid in Heq.
Qed.

Lemma submitted_job_runs_to_the_end_witness :
  reachable (snd (submit_and_run "20250101_120000" "2025-01-01T12:00:00"
                    default_request offline one_job)) /\
  (exists j,
     job_data (snd (submit_and_run "20250101_120000" "2025-01-01T12:00:00"
                      default_request offline one_job))
       "job_20250101_120000_1" = Some j /\
     finished "job_20250101_120000_1" j).
Proof.
  assert (reachable one_job) as Hs.
  { apply (reachable_step initial); [apply reachable_initial | apply step_submit]. }
  destruct (submitted_job_runs_to_the_end one_job "20250101_120000"
              "2025-01-01T12:00:00" default_request offline Hs)
    as (Hr & (j & Hj & Hfin & _) & _).
  split; [exact Hr|]. exists j. split; [exact Hj | exact Hfin].
Defined.

(** ** The scripting response, line by line *)

Lemma after_first_has_char sep s :
  after_first sep s =
    if has_char sep s
    then Ok (match after_first sep s with Ok tail => tail | Raise _ => "" end)
    else Raise IndexError.
Proof.
  induction s as [|c s IH]; [done|]. cbn.
  destruct (Ascii.eqb c sep); [done|]. cbn. exact IH.
Qed.

(** The loop over the lines: it fails exactly when some scene line has no
    colon, and otherwise adds one scene for every scene line, in order. *)
Lemma parse_scenes_run lines scenes :
  parse_scenes lines scenes =
    if existsb bad_scene_line lines then Raise IndexError
    else Ok (scenes ++ map scene_of (List.filter scene_line lines))%list.
Proof.
  revert scenes. induction lines as [|line rest IH]; intros scenes.
  - cbn. by rewrite app_nil_r.
  - cbn [parse_scenes existsb List.filter]. unfold bad_scene_line at 1.
    fold (scene_line line). destruct (scene_line line); cbn [andb orb].
    + rewrite after_first_has_char. destruct (has_char ":" line) eqn:Hc; cbn [negb].
      * rewrite IH. destruct (existsb bad_scene_line rest); [done|].
        cbn [map]. rewrite <- app_assoc. reflexivity.
      * reflexivity.
    + apply IH.
Qed.

Lemma scripting_run i w :
  generate_detailed_video_prompts i w =
    (match snd (oracle w (calls w) (Chat scenes_system_prompt (scenes_user_prompt w i)))
     with
     | Completion content =>
         if existsb bad_scene_line (split_char "010" (strip content))
         then Raise IndexError
         else Ok (take 3 (map scene_of
                    (List.filter scene_line (split_char "010" (strip content)))))
     | _ => Raise ChatError
     end,
     set_state w
       (now w + Z.of_N
          (fst (oracle w (calls w)
                  (Chat scenes_system_prompt (scenes_user_prompt w i)))))
       (S (calls w))
       (trace w ++ [ECall (Chat scenes_system_prompt (scenes_user_prompt w i))])).
Proof.
  unfold generate_detailed_video_prompts. rewrite logged_run.
  unfold bind at 1. unfold get_world at 1. cbn beta iota zeta.
  fold (scenes_user_prompt w i).
  unfold chat_completion, bind, call, lift, ret, raise.
  destruct (oracle w (calls w) (Chat scenes_system_prompt (scenes_user_prompt w i)))
    as [latency a].
  cbn [fst snd]. destruct a; try reflexivity.
  rewrite parse_scenes_run.
  destruct (existsb bad_scene_line _); reflexivity.
Qed.

Lemma scripting_length i w scenes :
  fst (generate_detailed_video_prompts i w) = Ok scenes -> (length scenes <= 3)%nat.
Proof.
  rewrite scripting_run. cbn [fst]. intros Hok.
  destruct (snd (oracle _ _ _)); try discriminate Hok.
  destruct (existsb bad_scene_line _); [discriminate Hok|].
  injection Hok as <-. rewrite length_take. lia.
Qed.

(** X5.  The scripting stage makes one call, to the chat model, and nothing
    else.  When the model answers, the stage returns the first three of
    the scenes of the answer, and fails when any scene line of the answer
    has no colon, be it after the third scene. *)
Theorem scripting_stage_run i w :
  let ask := Chat scenes_system_prompt (scenes_user_prompt w i) in
  let answer := oracle w (calls w) ask in
  snd (generate_detailed_video_prompts i w) =
    set_state w (now w + Z.of_N (fst answer)) (S (calls w)) (trace w ++ [ECall ask]) /\
  fst (generate_detailed_video_prompts i w) =
    match snd answer with
    | Completion content =>
        let lines := split_char "010" (strip content) in
        if existsb bad_scene_line lines then Raise IndexError
        else Ok (take 3 (map scene_of (List.filter scene_line lines)))
    | _ => Raise ChatError
    end /\
  forall scenes,
    fst (generate_detailed_video_prompts i w) = Ok scenes -> (length scenes <= 3)%nat.
Proof.
  cbv zeta. split; [by rewrite scripting_run|]. split; [by rewrite scripting_run|].
  apply scripting_length.
Qed.

Lemma scripting_stage_run_witness :
  fst (generate_detailed_video_prompts
         {| caption := PNone; idea := PNone; environment := PNone; sound := PNone;
            status := PNone |} second_sound_fails) =
    Ok [ {| description := "the blade meets the edge" |};
         {| description := "the blade splits the crown" |};
         {| description := "the halves fall apart" |} ].
Proof.
  destruct (scripting_stage_run
              {| caption := PNone; idea := PNone; environment := PNone; sound := PNone;
                 status := PNone |} second_sound_fails) as (_ & -> & _).
  vm_compute. reflexivity.
Defined.

(** ** The composition request *)

Lemma keyframes_elem keep n urls k :
  k ∈ keyframes keep n urls <->
  exists m u, urls !! m = Some u /\ keep u = true /\ k = keyframe u (n + m).
Proof.
  revert n. induction urls as [|u rest IH]; intros n.
  - cbn. split; [by intros ?%elem_of_nil|]. by intros (m & u & ? & _).
  - cbn [keyframes]. rewrite elem_of_app, IH. split.
    + intros [Hhead | (m & u' & Hm & Hkeep & ->)].
      * destruct (keep u) eqn:Hk; [|by apply elem_of_nil in Hhead].
        apply list_elem_of_singleton in Hhead as ->.
        exists 0%nat, u. by rewrite Nat.add_0_r.
      * exists (S m), u'. split; [done|]. split; [done|]. f_equal. lia.
    + intros ([|m] & u' & Hm & Hkeep & ->).
      * cbn in Hm. injection Hm as <-. left. rewrite Hkeep, Nat.add_0_r.
        by apply list_elem_of_singleton.
      * right. exists m, u'. split; [done|]. split; [done|]. f_equal. lia.
Qed.

Lemma keyframes_enumerate keep n urls :
  keyframes keep n urls =
    map keyframe_at
      (List.filter (fun p => keep (snd p)) (imap (fun k u => ((n + k)%nat, u)) urls)).
Proof.
  revert n. induction urls as [|u rest IH]; intros n; [done|].
  cbn [keyframes imap List.filter snd]. rewrite IH, Nat.add_0_r.
  assert (imap (fun k u0 => ((S n + k)%nat, u0)) rest =
          imap ((fun k u0 => ((n + k)%nat, u0)) ∘ S) rest) as ->.
  { apply imap_ext. intros k x _. cbn. f_equal. lia. }
  by destruct (keep u).
Qed.

Lemma filter_true {A} (l : list A) : List.filter (fun _ => true) l = l.
Proof. induction l as [|x l IH]; [done|]. cbn. by rewrite IH. Qed.

(** X6.  The request that the composition stage posts, and where its
    keyframes come from.  The stage posts one request to the composition
    endpoint, its first call.  The video track of that request has one
    keyframe per clip, in the order of the clips, the clip with the index
    [n] at [n * 10] seconds.  When some sound is true in Python's sense
    the request has a second track, the audio track, whose keyframes are
    those of the sounds that are true, in the order of the sounds, each at
    the time of the clip with the same index, whatever the entries before
    it are; otherwise the request has the video track only. *)
Theorem keyframes_follow_the_clips video_urls sound_urls w :
  let video_keyframes := map keyframe_at (enumerate video_urls) in
  let audio_keyframes :=
    map keyframe_at (List.filter (fun p => truthy (snd p)) (enumerate sound_urls)) in
  let video :=
    PDict [("id", PStr "1"); ("type", PStr "video");
           ("keyframes", PList video_keyframes)] in
  let audio :=
    PDict [("id", PStr "2"); ("type", PStr "audio");
           ("keyframes", PList audio_keyframes)] in
  let request :=
    PDict [("tracks",
            PList (if existsb truthy sound_urls then [video; audio] else [video]))] in
  merge_payload video_urls sound_urls = request /\
  posted fal_ffmpeg_url
    (new_events w (snd (merge_video_clips video_urls sound_urls w))) = [request] /\
  (exists es,
     new_events w (snd (merge_video_clips video_urls sound_urls w)) =
       ECall (Post fal_ffmpeg_url request) :: es) /\
  (forall n u,
     video_urls !! n = Some u -> video_keyframes !! n = Some (keyframe_at (n, u))) /\
  length video_keyframes = length video_urls /\
  (forall k,
     k ∈ audio_keyframes <->
     exists n u, sound_urls !! n = Some u /\ truthy u = true /\ k = keyframe_at (n, u)).
Proof.
  cbv zeta.
  assert (merge_payload video_urls sound_urls =
          PDict [("tracks",
            PList (if existsb truthy sound_urls
                   then [PDict [("id", PStr "1"); ("type", PStr "video");
                                ("keyframes",
                                 PList (map keyframe_at (enumerate video_urls)))];
                         PDict [("id", PStr "2"); ("type", PStr "audio");
                                ("keyframes",
                                 PList (map keyframe_at
                                          (List.filter (fun p => truthy (snd p))
                                             (enumerate sound_urls))))]]
                   else [PDict [("id", PStr "1"); ("type", PStr "video");
                                ("keyframes",
                                 PList (map keyframe_at (enumerate video_urls)))]]))])
    as Hpayload.
  { unfold merge_payload. rewrite merge_tracks_audio.
    unfold video_track, audio_track. rewrite !keyframes_enumerate, filter_true.
    reflexivity. }
  split_and!.
  - exact Hpayload.
  - rewrite <- Hpayload. apply merge_video_clips_posted.
  - rewrite <- Hpayload.
    destruct (merge_video_clips_events video_urls sound_urls w) as (es & Htr & _).
    exists es. by apply new_events_app.
  - intros n u Hn. unfold enumerate.
    rewrite list_lookup_fmap, list_lookup_imap, Hn. reflexivity.
  - unfold enumerate. by rewrite length_map, length_imap.
  - intros k.
    change (map keyframe_at (List.filter (fun p => truthy (snd p)) (enumerate sound_urls)))
      with (map keyframe_at
              (List.filter (fun p => truthy (snd p))
                 (imap (fun k u => ((0 + k)%nat, u)) sound_urls))).
    rewrite <- keyframes_enumerate, keyframes_elem. reflexivity.
Qed.

(** Two clips, of which the first has no sound: the audio track has one
    keyframe, the sound of the second clip at ten seconds. *)
Lemma keyframes_follow_the_clips_witness :
  posted fal_ffmpeg_url
    (new_events second_sound_fails
       (snd (merge_video_clips [PStr "clip-1.mp4"; PStr "clip-2.mp4"]
               [PNone; PStr "sound-2.mp4"] second_sound_fails))) =
    [PDict [("tracks",
       PList [PDict [("id", PStr "1"); ("type", PStr "video");
                     ("keyframes",
                      PList [PDict [("url", PStr "clip-1.mp4"); ("timestamp", PInt 0);
                                    ("duration", PInt 10)];
                             PDict [("url", PStr "clip-2.mp4"); ("timestamp", PInt 10);
                                    ("duration", PInt 10)]])];
              PDict [("id", PStr "2"); ("type", PStr "audio");
                     ("keyframes",
                      PList [PDict [("url", PStr "sound-2.mp4"); ("timestamp", PInt 10);
                                    ("duration", PInt 10)]])]])]].
Proof.
  exact (proj1 (proj2 (keyframes_follow_the_clips
                         [PStr "clip-1.mp4"; PStr "clip-2.mp4"]
                         [PNone; PStr "sound-2.mp4"] second_sound_fails))).
Defined.

(** ** Where the result of a Fal task is looked for *)

(** X7.  [find_video_url] reads its argument and does nothing else.  A URL
    under ["video"]["url"] is taken whatever else the answer holds; without
    a ["video"] entry the one under ["video_url"] is taken; what is
    returned is always the value at one of the three places
    ["video"]["url"], ["video_url"] and ["output"]["video"]["url"]; and a
    ["video"] entry that is a string with "url" inside it is a
    [TypeError], not a missing URL. *)
Theorem find_video_url_sources item_name c w :
  snd (find_video_url item_name c w) = w /\
  (forall kvs video u,
     c = PDict kvs -> assoc "video" kvs = Some (PDict video) ->
     assoc "url" video = Some u ->
     fst (find_video_url item_name c w) = Ok u) /\
  (forall kvs u,
     c = PDict kvs -> assoc "video" kvs = None -> assoc "video_url" kvs = Some u ->
     fst (find_video_url item_name c w) = Ok u) /\
  (forall v,
     fst (find_video_url item_name c w) = Ok v ->
     py_path c ["video"; "url"] = Ok v \/ py_path c ["video_url"] = Ok v \/
     py_path c ["output"; "video"; "url"] = Ok v) /\
  (forall kvs s,
     c = PDict kvs -> assoc "video" kvs = Some (PStr s) -> is_infix "url" s = true ->
     fst (find_video_url item_name c w) = Raise TypeError).
Proof.
  split_and!.
  - destruct (find_video_url item_name c w) as [r w'] eqn:E.
    by apply find_video_url_run in E as [-> _].
  - intros kvs video u -> Hv Hu.
    unfold find_video_url, bind, lift, ret, raise. cbn. by rewrite Hv; cbn; rewrite Hu.
  - intros kvs u -> Hv Hu.
    unfold find_video_url, bind, lift, ret, raise. cbn. by rewrite Hv, Hu.
  - intros v. unfold find_video_url, bind, lift, ret, raise, py_path.
    intros H. repeat (case_match; simplify_eq/=); auto.
  - intros kvs s -> Hv Hs.
    unfold find_video_url, bind, lift, ret, raise. cbn. by rewrite Hv; cbn; rewrite Hs.
Qed.

(** ** Success of a poller *)

Lemma poll_loop_return body item_name start_time max_wait_time
    (Q : world -> nat -> pyval -> Prop) :
  (forall i w,
     env (snd (body i w)) = env w /\
     (calls w <= calls (snd (body i w)))%nat /\
     forall v, fst (body i w) = Ok (Return v) ->
               (calls w < calls (snd (body i w)))%nat /\ Q (env w) (calls w) v) ->
  forall fuel i w v w',
    poll_loop fuel body item_name start_time max_wait_time i w = (Ok v, w') ->
    env w' = env w /\
    exists n, (calls w <= n < calls w')%nat /\ Q (env w) n v.
Proof.
  intros Hbody. induction fuel as [|fuel IH]; intros i w v w' Hrun; [done|].
  rewrite poll_loop_S in Hrun.
  destruct (now w - start_time <? max_wait_time); [|done].
  destruct (Hbody i w) as (Henv & Hcalls & Hret).
  destruct (body i w) as [[[v1 | i'] | e] w1]; cbn [fst snd] in *; [| |done].
  - injection Hrun as <- <-. split; [done|].
    destruct (Hret v1 eq_refl) as [Hlt HQ]. exists (calls w). split; [lia|done].
  - destruct (IH i' w1 v w' Hrun) as (Henv' & n & Hn & HQ).
    split; [congruence|]. exists n. split; [lia|]. by rewrite <- Henv.
Qed.

Lemma wavespeed_turn_return result_url item_name i w :
  env (snd (wavespeed_turn result_url item_name i w)) = env w /\
  (calls w <= calls (snd (wavespeed_turn result_url item_name i w)))%nat /\
  forall v, fst (wavespeed_turn result_url item_name i w) = Ok (Return v) ->
    (calls w < calls (snd (wavespeed_turn result_url item_name i w)))%nat /\
    wavespeed_reports_success result_url (env w) (calls w) v.
Proof.
  unfold wavespeed_turn. run_turn.
  change (oracle (env w)) with (oracle w).
  unfold wavespeed_reports_success. change (oracle (env w)) with (oracle w).
  destruct (oracle w (calls w) (Get result_url)) as [lat a] eqn:Ho.
  repeat (case_match; simplify_eq/=); (split; [reflexivity|]); (split; [lia|]);
    intros v Hv; simplify_eq/=.
  all: split; [lia|].
  all: eexists _, _, _, _, _; split_and!; eauto; try lia.
  all: unfold py_path; by repeat (case_match; simplify_eq/=).
Qed.

Lemma fal_turn_return status_url item_name i w :
  env (snd (fal_turn status_url item_name i w)) = env w /\
  (calls w <= calls (snd (fal_turn status_url item_name i w)))%nat /\
  forall v, fst (fal_turn status_url item_name i w) = Ok (Return v) ->
    (calls w < calls (snd (fal_turn status_url item_name i w)))%nat /\
    fal_reports_completed status_url (env w) (calls w).
Proof.
  unfold fal_turn. run_turn.
  unfold fal_reports_completed. change (oracle (env w)) with (oracle w).
  destruct (oracle w (calls w) (Get status_url)) as [lat a] eqn:Ho.
  repeat (case_match; simplify_eq/=);
    repeat match goal with
      | H : find_video_url _ _ _ = _ |- _ =>
          apply find_video_url_run in H; destruct H as [-> H]
      end;
    (split; [reflexivity|]); (split; [cbn; lia|]);
    intros v Hv; simplify_eq/=.
  all: split; [lia|].
  all: eexists _, _, _, _; split_and!; eauto; try lia.
Qed.

(** X8.  A poller reports success only when the provider did.  The video
    poller returns a URL only if one of the result queries of this session
    was answered, without an HTTP error, by a status ['succeeded'] or
    ['completed'], and the URL is the first output of that answer; the Fal
    poller returns only if one of its status queries was answered by a
    status ['completed'] or ['COMPLETED']. *)
Theorem pollers_return_what_was_reported w v w' :
  (forall prediction_id item_name max_wait_time,
     _poll_wavespeed_completion prediction_id item_name max_wait_time w = (Ok v, w') ->
     exists n, (calls w <= n < calls w')%nat /\
       wavespeed_reports_success (wavespeed_result_url prediction_id) (env w) n v) /\
  (forall request_id item_name base_url max_wait_time,
     _poll_fal_completion request_id item_name base_url max_wait_time w = (Ok v, w') ->
     exists n, (calls w <= n < calls w')%nat /\
       fal_reports_completed (fal_status_url request_id) (env w) n).
Proof.
  split.
  - intros prediction_id item_name max_wait_time Hrun.
    rewrite poll_wavespeed_unfold in Hrun.
    eapply (poll_loop_return _ _ _ _
              (wavespeed_reports_success (wavespeed_result_url prediction_id)));
      [|exact Hrun].
    intros i w0. apply wavespeed_turn_return.
  - intros request_id item_name base_url max_wait_time Hrun.
    rewrite poll_fal_unfold in Hrun.
    eapply (poll_loop_return _ _ _ _
              (fun w0 n _ => fal_reports_completed (fal_status_url request_id) w0 n));
      [|exact Hrun].
    intros i w0. apply fal_turn_return.
Qed.

Lemma pollers_return_what_was_reported_witness :
  exists n,
    (0 <= n < calls (snd (_poll_wavespeed_completion "p1" "clip 1" 300
                            (wavespeed_script ["pending"; "pending"] "succeeded"))))%nat /\
    wavespeed_reports_success (wavespeed_result_url "p1")
      (env (wavespeed_script ["pending"; "pending"] "succeeded")) n
      (PStr "https://cdn.example/clip.mp4").
Proof.
  apply (proj1 (pollers_return_what_was_reported
                  (wavespeed_script ["pending"; "pending"] "succeeded")
                  (PStr "https://cdn.example/clip.mp4")
                  (snd (_poll_wavespeed_completion "p1" "clip 1" 300
                          (wavespeed_script ["pending"; "pending"] "succeeded"))))
           "p1" "clip 1" 300).
  vm_compute. reflexivity.
Defined.

(** ** What a computation leaves as it is *)

Lemma keeps_ret {A} (a : A) : keeps_env (ret a).
Proof. by intros w. Qed.
Lemma keeps_raise {A} e : keeps_env (@raise A e).
Proof. by intros w. Qed.
Lemma keeps_lift {A} (r : result A) : keeps_env (lift r).
Proof. by intros w. Qed.
Lemma keeps_get_world : keeps_env get_world.
Proof. by intros w. Qed.
Lemma keeps_time : keeps_env time.
Proof. by intros w. Qed.
Lemma keeps_emit e : keeps_env (emit e).
Proof. by intros w. Qed.
Lemma keeps_sleep d : keeps_env (sleep d).
Proof. by intros w. Qed.
Lemma keeps_call r : keeps_env (call r).
Proof. intros w. unfold call. by destruct (oracle w (calls w) r). Qed.

Lemma keeps_bind {A B} (c : M A) (k : A -> M B) :
  keeps_env c -> (forall a, keeps_env (k a)) -> keeps_env (bind c k).
Proof.
  intros Hc Hk w. unfold bind. specialize (Hc w).
  destruct (c w) as [[a | e] w1]; cbn [snd] in *; [|done].
  by rewrite Hk.
Qed.

Lemma keeps_try {A} (c : M A) catches h :
  keeps_env c -> (forall e, keeps_env (h e)) -> keeps_env (try_except c catches h).
Proof.
  intros Hc Hh w. unfold try_except. specialize (Hc w).
  destruct (c w) as [[a | e] w1]; cbn [snd] in *; [done|].
  destruct (catches w1 e); [|done]. by rewrite Hh.
Qed.

Ltac keeps_step :=
  lazymatch goal with
  | |- keeps_env (ret _) => apply keeps_ret
  | |- keeps_env (raise _) => apply keeps_raise
  | |- keeps_env (lift _) => apply keeps_lift
  | |- keeps_env get_world => apply keeps_get_world
  | |- keeps_env time => apply keeps_time
  | |- keeps_env (logged _) => unfold logged
  | |- keeps_env (bind _ _) => apply keeps_bind; [| intros ?]
  | |- keeps_env (try_except _ _ _) => apply keeps_try; [| intros ?]
  | |- keeps_env (sleep _) => apply keeps_sleep
  | |- keeps_env (emit _) => apply keeps_emit
  | |- keeps_env (set_status _ _) => apply keeps_emit
  | |- keeps_env (set_progress _ _) => apply keeps_emit
  | |- keeps_env (call _) => apply keeps_call
  | |- keeps_env (raise_for_status _) => unfold raise_for_status
  | |- keeps_env (response_json _) => unfold response_json
  | |- keeps_env (requests_get _) => unfold requests_get
  | |- keeps_env (requests_post _ _) => unfold requests_post
  | |- keeps_env (if ?b then _ else _) => destruct b
  | |- keeps_env (match ?x with _ => _ end) => destruct x
  | |- keeps_env (let _ := _ in _) => cbv zeta
  end.
Ltac keeps_auto := repeat keeps_step.

Lemma keeps_poll_wavespeed prediction_id item_name max_wait_time :
  keeps_env (_poll_wavespeed_completion prediction_id item_name max_wait_time).
Proof. intros w. by destruct (poll_wavespeed_run prediction_id item_name max_wait_time w). Qed.

Lemma keeps_poll_fal request_id item_name base_url max_wait_time :
  keeps_env (_poll_fal_completion request_id item_name base_url max_wait_time).
Proof.
  intros w. by destruct (poll_fal_run request_id item_name base_url max_wait_time w).
Qed.

Lemma clip_payload_env w w' i scene :
  env w' = env w -> clip_payload w' i scene = clip_payload w i scene.
Proof.
  intros H. apply (f_equal py_repr) in H. cbn in H.
  unfold clip_payload, py_str. by rewrite H.
Qed.

(** ** The clips *)

(** One turn of the loop of [generate_video_clips]: the clip is requested,
    and nothing else is posted to the video endpoint. *)
Lemma clip_request_events n scene i w :
  let c := logged
             (w0 <- get_world ;;
              response <- requests_post wavespeed_url (clip_payload w0 i scene) ;;
              raise_for_status response ;;;
              result <- response_json response ;;
              data <- lift (py_item result "data") ;;
              prediction_id <- lift (py_item data "id") ;;
              _poll_wavespeed_completion (py_str w0 prediction_id)
                ("clip " ++ str_nat (n + 1)) 300) in
  env (snd (c w)) = env w /\
  exists es,
    trace (snd (c w)) =
      (trace w ++ ECall (Post wavespeed_url (clip_payload w i scene)) :: es)%list /\
    Forall (ev (no_post_to wavespeed_url) (fun _ _ => True)) es.
Proof.
  cbv zeta. split.
  { revert w. change (keeps_env (logged
             (w0 <- get_world ;;
              response <- requests_post wavespeed_url (clip_payload w0 i scene) ;;
              raise_for_status response ;;;
              result <- response_json response ;;
              data <- lift (py_item result "data") ;;
              prediction_id <- lift (py_item data "id") ;;
              _poll_wavespeed_completion (py_str w0 prediction_id)
                ("clip " ++ str_nat (n + 1)) 300))).
    keeps_auto; apply keeps_poll_wavespeed. }
  assert (forall w1 response,
    emits (ev (no_post_to wavespeed_url) (fun _ _ => True))
      (raise_for_status response ;;;
       result <- response_json response ;;
       data <- lift (py_item result "data") ;;
       prediction_id <- lift (py_item data "id") ;;
       _poll_wavespeed_completion (py_str w1 prediction_id)
         ("clip " ++ str_nat (n + 1)) 300)) as Hrest.
  { intros w1 response. emits_auto; try apply emits_poll_wavespeed; simpl; auto. }
  rewrite logged_run.
  unfold bind at 1. unfold get_world at 1. cbn beta iota.
  unfold bind at 1. unfold requests_post at 1.
  unfold bind at 1. unfold call at 1.
  destruct (oracle w (calls w) (Post wavespeed_url (clip_payload w i scene)))
    as [latency a].
  cbn beta iota.
  remember (set_state w (now w + Z.of_N latency) (S (calls w))
              (trace w ++ [ECall (Post wavespeed_url (clip_payload w i scene))]))
    as w1 eqn:Ew1.
  assert (trace w1 = (trace w ++ [ECall (Post wavespeed_url
                        (clip_payload w i scene))])%list) as Hw1
    by (by subst w1).
  clear Ew1.
  destruct a as [| response | |]; cbn beta iota;
    first [unfold raise at 1 | unfold ret at 1]; cbn beta iota;
    try (exists []; split; [cbn [snd]; by rewrite Hw1 | constructor]).
  destruct (Hrest w response w1) as (es & Htr & Hes).
  exists es. split; [|done].
  etransitivity; [exact Htr|]. by rewrite Hw1, <- app_assoc.
Qed.

Lemma clips_loop_cons n scene rest i video_urls w :
  clips_loop n (scene :: rest) i video_urls w =
    match logged
            (w0 <- get_world ;;
             response <- requests_post wavespeed_url (clip_payload w0 i scene) ;;
             raise_for_status response ;;;
             result <- response_json response ;;
             data <- lift (py_item result "data") ;;
             prediction_id <- lift (py_item data "id") ;;
             _poll_wavespeed_completion (py_str w0 prediction_id)
               ("clip " ++ str_nat (n + 1)) 300) w
    with
    | (Ok video_url, w1) => clips_loop (S n) rest i (video_urls ++ [video_url]) w1
    | (Raise e, w1) => (Raise e, w1)
    end.
Proof. reflexivity. Qed.

Lemma clips_loop_run scenes : forall n i video_urls w,
  exists k, (k <= length scenes)%nat /\
    env (snd (clips_loop n scenes i video_urls w)) = env w /\
    posted wavespeed_url (new_events w (snd (clips_loop n scenes i video_urls w))) =
      map (clip_payload w i) (take k scenes) /\
    trace (snd (clips_loop n scenes i video_urls w)) =
      (trace w ++ new_events w (snd (clips_loop n scenes i video_urls w)))%list /\
    match fst (clips_loop n scenes i video_urls w) with
    | Ok urls => k = length scenes /\
                 length urls = (length video_urls + length scenes)%nat
    | Raise _ => (0 < k)%nat
    end.
Proof.
  induction scenes as [|scene rest IH]; intros n i video_urls w.
  - exists 0%nat. cbn. unfold new_events. rewrite drop_all, app_nil_r.
    repeat split; try done; lia.
  - rewrite clips_loop_cons.
    destruct (clip_request_events n scene i w) as (Henv & es & Htr & Hes).
    cbv zeta in Henv, Htr.
    match type of Htr with
    | trace (snd (?c w)) = _ => destruct (c w) as [[video_url | e] w1]
    end; cbn beta iota; cbn [fst snd] in *.
    + destruct (IH (S n) i (video_urls ++ [video_url])%list w1)
        as (k & Hk & Henv' & Hposted & Htr' & Hres).
      exists (S k). split; [cbn; lia|]. split; [congruence|].
      assert (new_events w (snd (clips_loop (S n) rest i (video_urls ++ [video_url]) w1)) =
              (ECall (Post wavespeed_url (clip_payload w i scene)) :: es ++
                new_events w1 (snd (clips_loop (S n) rest i (video_urls ++ [video_url]) w1)))%list)
        as Hnew.
      { apply new_events_app. rewrite Htr', Htr, <- app_assoc. reflexivity. }
      rewrite Hnew. split; [|split].
      * change (?x :: es ++ ?l)%list with ([x] ++ es ++ l)%list.
        rewrite !posted_app, (posted_none _ _ _ Hes), Hposted. cbn.
        f_equal. apply map_ext. intros sc. by apply clip_payload_env.
      * rewrite Htr', Htr, <- app_assoc. reflexivity.
      * destruct (fst (clips_loop _ _ _ _ _)) as [urls | e]; [|lia].
        destruct Hres as [-> Hlen]. split; [done|].
        rewrite Hlen, length_app. cbn. lia.
    + exists 1%nat. split; [cbn; lia|]. split; [done|].
      rewrite (new_events_app _ _ _ Htr). split; [|split; [done|lia]].
      change (?x :: es)%list with ([x] ++ es)%list.
      rewrite posted_app, (posted_none _ _ _ Hes). cbn. by rewrite take_0.
Qed.

Lemma clips_loop_step n scene rest i video_urls w :
  clips_loop n (scene :: rest) i video_urls w =
    match generate_clip n scene i w with
    | (Ok video_url, w1) => clips_loop (S n) rest i (video_urls ++ [video_url]) w1
    | (Raise e, w1) => (Raise e, w1)
    end.
Proof. reflexivity. Qed.

(** The loop makes the clips one by one, and stops at the first that
    fails. *)
Lemma clips_loop_clips_run i scenes : forall n video_urls w,
  exists r,
    clips_run i n scenes w r (snd (clips_loop n scenes i video_urls w)) /\
    fst (clips_loop n scenes i video_urls w) =
      match r with
      | Ok urls => Ok (video_urls ++ urls)%list
      | Raise e => Raise e
      end.
Proof.
  induction scenes as [|scene rest IH]; intros n video_urls w.
  - exists (Ok []). split; [constructor|]. cbn. by rewrite app_nil_r.
  - rewrite clips_loop_step.
    destruct (generate_clip n scene i w) as [[u | e] w1] eqn:E.
    + destruct (IH (S n) (video_urls ++ [u])%list w1) as ([urls | e] & Hr & Hf).
      * exists (Ok (u :: urls)). split; [by eapply clips_made|].
        rewrite Hf, <- app_assoc. reflexivity.
      * exists (Raise e). split; [by eapply clips_failed_later|done].
    + exists (Raise e). split; [by apply clips_failed|done].
Qed.

(** After clips that were all made, the loop goes on with the scenes that
    are left. *)
Lemma clips_loop_app i rest : forall scenes n video_urls w urls w1,
  clips_run i n scenes w (Ok urls) w1 ->
  clips_loop n (scenes ++ rest) i video_urls w =
    clips_loop (n + length scenes) rest i (video_urls ++ urls) w1.
Proof.
  induction scenes as [|scene scenes IH]; intros n video_urls w urls w1 Hrun;
    inversion Hrun; subst.
  - cbn [app length]. by rewrite Nat.add_0_r, app_nil_r.
  - cbn [app length]. rewrite clips_loop_step.
    match goal with H : generate_clip _ _ _ _ = _ |- _ => rewrite H end.
    erewrite IH by eassumption.
    rewrite <- app_assoc, Nat.add_succ_r. reflexivity.
Qed.

(** X9.  The clips are requested one after the other, in the order of the
    scenes, each with the prompt made of the idea, its scene and the
    environment.  When the stage returns there is one URL per scene and
    every scene was requested once; when it fails, the clip requested
    last is the one that failed and no later scene is requested.  The
    stage is the run of its clips one by one: a clip that fails after the
    clips before it were made fails the stage, with the error of that
    clip and in the world in which the clip left it, and when every clip
    is made the stage returns the URLs of the clips, in order. *)
Theorem clips_are_requested_in_order scenes i w :
  let run := generate_video_clips scenes i w in
  (exists k, (k <= length scenes)%nat /\
     posted wavespeed_url (new_events w (snd run)) =
       map (clip_payload w i) (take k scenes) /\
     match fst run with
     | Ok video_urls => k = length scenes /\ length video_urls = length scenes
     | Raise _ => (0 < k)%nat
     end) /\
  clips_run i 0 scenes w (fst run) (snd run) /\
  (forall k scene video_urls w1 e w',
     scenes !! k = Some scene ->
     clips_run i 0 (take k scenes) w (Ok video_urls) w1 ->
     generate_clip k scene i w1 = (Raise e, w') ->
     run = (Raise e, w')) /\
  (forall video_urls w',
     clips_run i 0 scenes w (Ok video_urls) w' -> run = (Ok video_urls, w')).
Proof.
  cbv zeta. unfold generate_video_clips. split_and!.
  - destruct (clips_loop_run scenes 0 i [] w) as (k & Hk & _ & Hposted & _ & Hres).
    exists k. split; [done|]. split; [done|].
    destruct (fst (clips_loop 0 scenes i [] w)); [|done]. by destruct Hres.
  - destruct (clips_loop_clips_run i scenes 0 [] w) as (r & Hr & Hf).
    rewrite Hf. by destruct r.
  - intros k scene video_urls w1 e w' Hk Hrun Hfail.
    rewrite <- (take_drop_middle scenes k scene Hk).
    rewrite (clips_loop_app i _ _ _ _ _ _ _ Hrun), clips_loop_step.
    rewrite length_take_le by (apply lookup_lt_Some in Hk; lia).
    cbn [Nat.add]. by rewrite Hfail.
  - intros video_urls w' Hrun.
    rewrite <- (app_nil_r scenes).
    by rewrite (clips_loop_app i _ _ _ _ _ _ _ Hrun).
Qed.

(** Three scenes, and a provider that refuses the second clip: the stage
    fails with the error of that request. *)
Lemma clips_are_requested_in_order_witness :
  fst (generate_video_clips
         [ {| description := "the blade meets the edge" |};
           {| description := "the blade splits the crown" |};
           {| description := "the halves fall apart" |} ]
         {| caption := PNone; idea := PNone; environment := PNone; sound := PNone;
            status := PNone |} second_clip_refused) = Raise RequestException.
Proof.
  set (i := {| caption := PNone; idea := PNone; environment := PNone; sound := PNone;
               status := PNone |}).
  set (s1 := {| description := "the blade meets the edge" |}).
  set (s2 := {| description := "the blade splits the crown" |}).
  set (s3 := {| description := "the halves fall apart" |}).
  assert (generate_clip 0 s1 i second_clip_refused =
          (Ok (PStr "https://cdn.example/clip.mp4"),
           snd (generate_clip 0 s1 i second_clip_refused))) as E1
    by (vm_compute; reflexivity).
  assert (generate_clip 1 s2 i (snd (generate_clip 0 s1 i second_clip_refused)) =
          (Raise RequestException,
           snd (generate_clip 1 s2 i (snd (generate_clip 0 s1 i second_clip_refused)))))
    as E2 by (vm_compute; reflexivity).
  destruct (clips_are_requested_in_order [s1; s2; s3] i second_clip_refused)
    as (_ & _ & H & _).
  rewrite (H 1%nat s2 [PStr "https://cdn.example/clip.mp4"] _ _ _ eq_refl
             (clips_made i 0 s1 [] _ _ _ _ _ E1 (clips_done i 1 _)) E2).
  reflexivity.
Defined.

(** ** Downloading the final video *)

Lemma download_run video_url job_id w :
  let filename := saved_video_name w (now w) job_id in
  let url := py_str w video_url in
  env (snd (download_and_save_video video_url job_id w)) = env w /\
  match fst (download_and_save_video video_url job_id w) with
  | Ok f =>
      f = filename /\
      trace (snd (download_and_save_video video_url job_id w)) =
        (trace w ++
         [ECall (Download url); ECall (SaveVideo ("generated_videos/" ++ filename))])%list
  | Raise e =>
      (e = RequestException /\
       trace (snd (download_and_save_video video_url job_id w)) =
         (trace w ++ [ECall (Download url)])%list) \/
      (e = OSError /\
       trace (snd (download_and_save_video video_url job_id w)) =
         (trace w ++
          [ECall (Download url); ECall (SaveVideo ("generated_videos/" ++ filename))])%list)
  end.
Proof.
  cbv zeta. unfold download_and_save_video, saved_video_name. rewrite logged_run.
  unfold raise_for_status.
  unfold bind, call, get_world, time, ret, raise. cbn beta iota zeta.
  destruct (oracle w (calls w) (Download (py_str w video_url))) as [lat a].
  cbn [calls now trace set_state oracle].
  destruct a as [| r | |]; cbn [fst snd];
    try (split; [reflexivity|]; left; split; reflexivity).
  destruct ((400 <=? status_code r) && (status_code r <? 600)); cbn [fst snd].
  - split; [reflexivity|]. left. split; reflexivity.
  - cbn [calls now trace set_state oracle].
    match goal with
    | |- context [oracle w ?n ?q] => destruct (oracle w n q) as [lat' a']
    end.
    destruct a'; cbn [fst snd]; (split; [reflexivity|]);
      try (right; split; [reflexivity|]);
      try (split; [reflexivity|]);
      cbn; rewrite <- app_assoc; reflexivity.
Qed.

(** The stage, by the answers to its two calls. *)
Lemma download_by_answer video_url job_id w :
  let filename := saved_video_name w (now w) job_id in
  let url := py_str w video_url in
  let run := download_and_save_video video_url job_id w in
  let saved := [ECall (Download url); ECall (SaveVideo ("generated_videos/" ++ filename))] in
  match snd (oracle w (calls w) (Download url)) with
  | Response r =>
      if (400 <=? status_code r) && (status_code r <? 600) then
        fst run = Raise RequestException /\
        trace (snd run) = (trace w ++ [ECall (Download url)])%list
      else
        fst run =
          match snd (oracle w (S (calls w))
                       (SaveVideo ("generated_videos/" ++ filename))) with
          | Written => Ok filename
          | _ => Raise OSError
          end /\
        trace (snd run) = (trace w ++ saved)%list
  | _ =>
      fst run = Raise RequestException /\
      trace (snd run) = (trace w ++ [ECall (Download url)])%list
  end.
Proof.
  cbv zeta. unfold download_and_save_video, saved_video_name. rewrite logged_run.
  unfold raise_for_status.
  unfold bind, call, get_world, time, ret, raise. cbn beta iota zeta.
  destruct (oracle w (calls w) (Download (py_str w video_url))) as [lat a].
  cbn [calls now trace set_state oracle].
  destruct a as [| r | |]; cbn [fst snd]; try (split; reflexivity).
  destruct ((400 <=? status_code r) && (status_code r <? 600)); cbn [fst snd].
  - split; reflexivity.
  - cbn [calls now trace set_state oracle].
    match goal with
    | |- context [oracle w ?n ?q] => destruct (oracle w n q) as [lat' a']
    end.
    destruct a'; cbn [fst snd]; (split; [reflexivity|]);
      cbn; rewrite <- app_assoc; reflexivity.
Qed.

(** X10.  The download, by the answers to its calls.  The stage asks for the
    video first.  When the request fails, or is answered by an HTTP error,
    the stage fails with the error of the request and writes nothing.
    Only when an answer came that is no HTTP error does the stage write
    the file, under a name that carries the time at which the stage was
    started and the job id; it returns that name when the file was
    written, and fails when it was not. *)
Theorem download_saves_under_one_name video_url job_id w :
  let filename := saved_video_name w (now w) job_id in
  let url := py_str w video_url in
  let run := download_and_save_video video_url job_id w in
  let save := SaveVideo ("generated_videos/" ++ filename) in
  match snd (oracle w (calls w) (Download url)) with
  | Response r =>
      if (400 <=? status_code r) && (status_code r <? 600) then
        fst run = Raise RequestException /\
        new_events w (snd run) = [ECall (Download url)]
      else
        fst run =
          match snd (oracle w (S (calls w)) save) with
          | Written => Ok filename
          | _ => Raise OSError
          end /\
        new_events w (snd run) = [ECall (Download url); ECall save]
  | _ =>
      fst run = Raise RequestException /\
      new_events w (snd run) = [ECall (Download url)]
  end.
Proof.
  cbv zeta. pose proof (download_by_answer video_url job_id w) as H. cbv zeta in H.
  destruct (snd (oracle w (calls w) (Download (py_str w video_url)))) as [| r | |];
    try (destruct H as [H1 H2]; split; [done|]; by apply new_events_app).
  destruct ((400 <=? status_code r) && (status_code r <? 600));
    destruct H as [H1 H2]; (split; [done|]); by apply new_events_app.
Qed.

(** A download that is answered by a server error: the stage fails and
    writes no file.  A download that is answered, and a file that is
    written: the stage returns the name of the file. *)
Lemma download_saves_under_one_name_witness :
  (fst (download_and_save_video (PStr "https://cdn.example/final.mp4") "job_1"
          (base_world (fun _ _ => (1%N, server_error)))) = Raise RequestException /\
   new_events (base_world (fun _ _ => (1%N, server_error)))
     (snd (download_and_save_video (PStr "https://cdn.example/final.mp4") "job_1"
             (base_world (fun _ _ => (1%N, server_error))))) =
     [ECall (Download "https://cdn.example/final.mp4")]) /\
  (fst (download_and_save_video (PStr "https://cdn.example/final.mp4") "job_1"
          second_sound_fails) = Ok "asmr_video_20250101_120000_job_1.mp4" /\
   new_events second_sound_fails
     (snd (download_and_save_video (PStr "https://cdn.example/final.mp4") "job_1"
             second_sound_fails)) =
     [ECall (Download "https://cdn.example/final.mp4");
      ECall (SaveVideo "generated_videos/asmr_video_20250101_120000_job_1.mp4")]).
Proof.
  exact (conj
           (download_saves_under_one_name (PStr "https://cdn.example/final.mp4") "job_1"
              (base_world (fun _ _ => (1%N, server_error))))
           (download_saves_under_one_name (PStr "https://cdn.example/final.mp4") "job_1"
              second_sound_fails)).
Defined.

(** ** The files of a task *)

Lemma string_length_app (a b : string) :
  String.length (a ++ b) = (String.length a + String.length b)%nat.
Proof.
  induction a as [|c a IH]; [done|].
  change (S (String.length (a ++ b)) = S (String.length a + String.length b)).
  by rewrite IH.
Qed.

Lemma string_app_assoc (a b c : string) : (a ++ b) ++ c = a ++ b ++ c.
Proof.
  induction a as [|x a IH]; [done|].
  change (String x ((a ++ b) ++ c) = String x (a ++ b ++ c)). by rewrite IH.
Qed.

(** The name under which a video is saved is never the name under which
    the video of its job is looked for. *)
Lemma saved_name_is_not_served timestamp job_id :
  "generated_videos/" ++ "asmr_video_" ++ timestamp ++ "_" ++ job_id ++ ".mp4" <>
  video_path job_id.
Proof.
  unfold video_path. intros H. apply (f_equal String.length) in H.
  rewrite !string_length_app in H. cbn in H. lia.
Qed.

Lemma metadata_path_is_not_video_path a b : metadata_path a <> video_path b.
Proof. discriminate. Qed.

Lemma written_paths_app es1 es2 :
  written_paths (es1 ++ es2) = (written_paths es1 ++ written_paths es2)%list.
Proof. apply omap_app. Qed.

Lemma written_paths_task job_id W es :
  Forall (ev (task_file job_id) W) es ->
  Forall (fun p => p = metadata_path job_id \/
                   exists timestamp,
                     p = "generated_videos/" ++ "asmr_video_" ++ timestamp ++ "_" ++
                         job_id ++ ".mp4")
    (written_paths es).
Proof.
  induction 1 as [|e es He _ IH]; [constructor|].
  change (e :: es) with ([e] ++ es)%list. rewrite written_paths_app.
  apply Forall_app. split; [|done].
  destruct e as [[] | |]; cbn; constructor; cbn in He; auto.
Qed.

Lemma emits_download_files W video_url job_id :
  emits (ev (task_file job_id) W) (download_and_save_video video_url job_id).
Proof.
  unfold download_and_save_video.
  emits_auto; cbn; auto. by eexists.
Qed.

Lemma emits_final_phase_files job_id include_sound i scenes video_urls sound_urls :
  emits (ev (task_file job_id) (fun _ _ => True))
    (final_phase job_id include_sound i scenes video_urls sound_urls).
Proof.
  unfold final_phase.
  apply emits_bind; [by apply emits_emit|intros _].
  apply emits_bind; [by apply emits_merge|intros url].
  apply emits_bind; [by apply emits_emit|intros _].
  apply emits_bind; [apply emits_download_files|intros f].
  emits_auto; cbn; auto.
Qed.

Lemma emits_task_files job_id custom_prompt include_sound :
  emits (ev (task_file job_id) (fun _ _ => True))
    (run_video_generation job_id custom_prompt include_sound).
Proof.
  assert (emits (ev (task_file job_id) (fun _ _ => True))
            (p <- scripting_phase job_id ;;
             video_urls <- clip_phase job_id (fst p) (snd p) ;;
             sound_urls <- sound_phase job_id include_sound (fst p) video_urls ;;
             final_phase job_id include_sound (fst p) (snd p) video_urls sound_urls))
    as Hphases.
  { apply emits_bind; [by apply emits_scripting_phase|intros [i scenes]].
    apply emits_bind; [apply emits_clip_phase; try done; by right|intros video_urls].
    apply emits_bind; [apply emits_sound_phase; try done; by right|intros sound_urls].
    apply emits_final_phase_files. }
  unfold run_video_generation.
  apply emits_try; [|intros e; emits_auto; done].
  apply emits_bind; [|intros o; emits_auto; done].
  intros w. rewrite run_stages_phases. apply Hphases.
Qed.

(** X11.  The task of a job never writes the file that the download URL of
    its result serves.  The files that the task writes are the metadata of
    the job and the video under its saved name, which is not the name
    that [GET /videos/{job_id}/download] looks for; so unless that file
    was there before, the download URL answers 404 after the task as it
    did before, and the job is not known as a video. *)
Theorem download_url_is_not_served job_id custom_prompt include_sound w files files' :
  video_path job_id ∉ files ->
  files ⊆ files' ->
  files' ⊆ files ∪ list_to_set (written_paths
             (new_events w (snd (run_video_generation job_id custom_prompt
                                   include_sound w)))) ->
  Forall (fun p => p = metadata_path job_id \/
                   exists timestamp, p = video_path ("asmr_video_" ++ timestamp ++ "_" ++ job_id))
    (written_paths (new_events w (snd (run_video_generation job_id custom_prompt
                                         include_sound w)))) /\
  download_video job_id files' = inl (Http 404 "Video file not found") /\
  video_is_known job_id files' = false.
Proof.
  intros Hfiles Hsub Hsup.
  pose proof (written_paths_task job_id _ _
                (emits_events _ _ w (emits_task_files job_id custom_prompt include_sound)))
    as Hpaths.
  revert Hsup Hpaths.
  generalize (written_paths (new_events w (snd (run_video_generation job_id custom_prompt
                                                  include_sound w)))).
  intros ps Hsup Hpaths.
  assert (video_path job_id ∉ files') as Hnot.
  { intros Hin. apply Hsup in Hin. apply elem_of_union in Hin as [Hin | Hin]; [done|].
    apply elem_of_list_to_set in Hin.
    rewrite Forall_forall in Hpaths. destruct (Hpaths _ Hin) as [Heq | [ts Heq]].
    - by apply (metadata_path_is_not_video_path job_id job_id).
    - by apply (saved_name_is_not_served ts job_id). }
  split; [|split].
  - eapply Forall_impl; [exact Hpaths|]. intros p [-> | [ts ->]]; [by left|right].
    exists ts. unfold video_path. by rewrite !string_app_assoc.
  - unfold download_video. by destruct (decide _).
  - unfold video_is_known. rewrite (bool_decide_eq_false_2 _ Hnot). apply andb_false_r.
Qed.

Lemma download_url_is_not_served_witness :
  download_video "job_1"
    (list_to_set (written_paths
       (new_events second_sound_fails
          (snd (run_video_generation "job_1" None true second_sound_fails))))) =
    inl (Http 404 "Video file not found").
Proof.
  refine (proj1 (proj2 (download_url_is_not_served "job_1" None true second_sound_fails
                          ∅ _ _ _ _))).
  - apply not_elem_of_empty.
  - apply empty_subseteq.
  - apply union_subseteq_r.
Defined.

(** ** The files of a completed job *)

Lemma written_paths_none W es :
  Forall (ev no_file W) es -> written_paths es = [].
Proof.
  induction 1 as [|e es He _ IH]; [done|].
  change (e :: es) with ([e] ++ es)%list. rewrite written_paths_app, IH, app_nil_r.
  by destruct e as [[] | |].
Qed.

Lemma final_phase_files job_id include_sound i scenes video_urls sound_urls w o w' :
  final_phase job_id include_sound i scenes video_urls sound_urls w = (Ok o, w') ->
  written_paths (new_events w w') =
    ["generated_videos/" ++ out_filename o; metadata_path job_id].
Proof.
  intros H. unfold final_phase in H.
  unfold bind at 1 in H. unfold set_progress at 1, emit at 1 in H. cbn beta iota in H.
  unfold bind at 1 in H.
  match type of H with
  | context [merge_video_clips video_urls sound_urls ?w0] =>
      assert (emits (ev no_file (fun _ _ => True))
                (merge_video_clips video_urls sound_urls)) as Hmerge
        by (by apply emits_merge);
      destruct (Hmerge w0) as (es & Htr & Hes); clear Hmerge;
      destruct (merge_video_clips video_urls sound_urls w0) as [[url | e] w1]
  end; [|done].
  cbn [snd trace set_state] in Htr. cbn beta iota in H.
  unfold bind at 1 in H. unfold set_progress at 1, emit at 1 in H. cbn beta iota in H.
  unfold bind at 1 in H.
  match type of H with
  | context [download_and_save_video url job_id ?w2] =>
      pose proof (download_run url job_id w2) as [_ Hd];
      destruct (download_and_save_video url job_id w2) as [[f | e] w3]
  end; [|done].
  cbv zeta in Hd. cbn [fst snd] in Hd. destruct Hd as [-> Hd].
  cbn [now trace set_state] in Hd.
  unfold bind, get_world, time, call, ret, raise in H.
  destruct (oracle w3 (calls w3) _) as [lat a]. destruct a; try done.
  injection H as <- <-. cbn [out_filename].
  erewrite new_events_app;
    [|cbn [trace set_state]; rewrite Hd, Htr, <- !app_assoc; reflexivity].
  rewrite !written_paths_app, (written_paths_none _ _ Hes). reflexivity.
Qed.

(** X12.  The files of a job that completed are the video under its saved
    name and the metadata under the job id, and nothing else was written.
    With them in place, and no file before that the download URL would
    serve, [GET /videos/{job_id}/download] answers 404, and
    [DELETE /videos/{job_id}] deletes the metadata alone and leaves the
    saved video where it is. *)
Theorem files_of_a_completed_job job_id custom_prompt include_sound w o w' files :
  run_stages job_id custom_prompt include_sound w = (Ok o, w') ->
  video_path job_id ∉ files ->
  let saved := "generated_videos/" ++ out_filename o in
  let files' := files ∪ {[saved; metadata_path job_id]} in
  written_paths (new_events w w') = [saved; metadata_path job_id] /\
  (exists timestamp, out_filename o = "asmr_video_" ++ timestamp ++ "_" ++ job_id ++ ".mp4") /\
  download_video job_id files' = inl (Http 404 "Video file not found") /\
  fst (delete_video job_id files') = inr ["metadata"] /\
  saved ∈ snd (delete_video job_id files') /\
  metadata_path job_id ∉ snd (delete_video job_id files').
Proof.
  intros Hrun Hfiles. cbv zeta.
  destruct (run_stages_ok _ _ _ _ _ _ Hrun)
    as (i & scenes & w1 & video_urls & w2 & sound_urls & w3 & H1 & H2 & H3 & H4).
  destruct (run_stages_chain job_id custom_prompt include_sound w _ _ _ _ _ _ _ H1 H2 H3)
    as [_ Hev].
  rewrite H4 in Hev. cbn [snd] in Hev.
  assert (emits (ev no_file (fun _ _ => True)) (scripting_phase job_id)) as E1
    by (by apply emits_scripting_phase).
  assert (emits (ev no_file (fun _ _ => True)) (clip_phase job_id i scenes)) as E2
    by (apply emits_clip_phase; try done; by right).
  assert (emits (ev no_file (fun _ _ => True))
            (sound_phase job_id include_sound i video_urls)) as E3
    by (apply emits_sound_phase; try done; by right).
  apply (emits_events _ _ w) in E1. apply (emits_events _ _ w1) in E2.
  apply (emits_events _ _ w2) in E3.
  rewrite H1 in E1. rewrite H2 in E2. rewrite H3 in E3. cbn [snd] in E1, E2, E3.
  assert (written_paths (new_events w w') =
            ["generated_videos/" ++ out_filename o; metadata_path job_id]) as Hpaths.
  { rewrite Hev, !written_paths_app.
    rewrite (written_paths_none _ _ E1), (written_paths_none _ _ E2),
      (written_paths_none _ _ E3).
    by apply final_phase_files in H4. }
  assert (exists timestamp,
            out_filename o = "asmr_video_" ++ timestamp ++ "_" ++ job_id ++ ".mp4")
    as [ts Hname].
  { pose proof (written_paths_task job_id _ _
                  (emits_events _ _ w3
                     (emits_final_phase_files job_id include_sound i scenes
                        video_urls sound_urls))) as Hall.
    rewrite H4 in Hall. cbn [snd] in Hall.
    rewrite (final_phase_files _ _ _ _ _ _ _ _ _ H4) in Hall.
    apply Forall_cons in Hall as [[Habs | [ts Hts]] _]; [done|].
    exists ts. by apply (inj (String.append "generated_videos/")) in Hts. }
  set (saved := "generated_videos/" ++ out_filename o) in *.
  assert (saved <> video_path job_id) as Hsaved.
  { subst saved. rewrite Hname. apply saved_name_is_not_served. }
  assert (saved <> metadata_path job_id) as Hsaved'.
  { subst saved. discriminate. }
  pose proof (metadata_path_is_not_video_path job_id job_id) as Hmeta.
  assert (video_path job_id ∉ files ∪ {[saved; metadata_path job_id]}) as Hnot
    by set_solver.
  split; [done|]. split; [by exists ts|].
  unfold download_video, delete_video.
  destruct (decide (video_path job_id ∈ files ∪ {[saved; metadata_path job_id]}));
    [done|].
  destruct (decide (metadata_path job_id ∈ files ∪ {[saved; metadata_path job_id]}));
    [|set_solver].
  cbn. split; [done|]. split; [done|]. split; set_solver.
Qed.

Lemma files_of_a_completed_job_witness :
  exists o w',
    run_stages "job_1" None true second_sound_fails = (Ok o, w') /\
    written_paths (new_events second_sound_fails w') =
      ["generated_videos/" ++ out_filename o; metadata_path "job_1"] /\
    fst (delete_video "job_1"
           (∅ ∪ {["generated_videos/" ++ out_filename o; metadata_path "job_1"]})) =
      inr ["metadata"].
Proof.
  assert (exists o w', run_stages "job_1" None true second_sound_fails = (Ok o, w'))
    as (o & w' & E) by (vm_compute; eexists _, _; reflexivity).
  exists o, w'. split; [exact E|].
  destruct (files_of_a_completed_job "job_1" None true second_sound_fails o w' ∅ E)
    as (H1 & _ & _ & H2 & _); [apply not_elem_of_empty|].
  split; [exact H1 | exact H2].
Defined.

(** ** Deleting a video *)

Lemma string_app_inj_r (a b c : string) : a ++ c = b ++ c -> a = b.
Proof.
  revert b. induction a as [|x a IH]; intros [|y b] H.
  - done.
  - apply (f_equal String.length) in H. change ("" ++ c) with c in H.
    change (String y b ++ c) with (String y (b ++ c)) in H.
    cbn [String.length] in H. rewrite string_length_app in H. lia.
  - apply (f_equal String.length) in H. change ("" ++ c) with c in H.
    change (String x a ++ c) with (String x (a ++ c)) in H.
    cbn [String.length] in H. rewrite string_length_app in H. lia.
  - change (String x (a ++ c) = String y (b ++ c)) in H.
    injection H as -> H. f_equal. by apply IH.
Qed.

Lemma video_path_inj a b : video_path a = video_path b -> a = b.
Proof.
  unfold video_path. intros H. apply (inj (String.append "generated_videos/")) in H.
  by apply string_app_inj_r in H.
Qed.

(** X13.  [DELETE /videos/{video_id}] removes the video file and the
    metadata file of that id, and no other file.  It answers 404 exactly
    when neither was there; otherwise it names what it deleted, the video
    first; a second deletion of the same id answers 404; and the download
    of another id is answered as before. *)
Theorem delete_video_removes_its_files video_id files :
  snd (delete_video video_id files) =
    files ∖ {[video_path video_id; metadata_path video_id]} /\
  (fst (delete_video video_id files) = inl (Http 404 "Video not found") <->
   (video_path video_id ∉ files) /\ (metadata_path video_id ∉ files)) /\
  (forall deleted_files,
     fst (delete_video video_id files) = inr deleted_files ->
     deleted_files =
       ((if decide (video_path video_id ∈ files) then ["video"] else []) ++
        (if decide (metadata_path video_id ∈ files) then ["metadata"] else []))%list) /\
  fst (delete_video video_id (snd (delete_video video_id files))) =
    inl (Http 404 "Video not found") /\
  download_video video_id (snd (delete_video video_id files)) =
    inl (Http 404 "Video file not found") /\
  forall other,
    other <> video_id ->
    download_video other (snd (delete_video video_id files)) = download_video other files.
Proof.
  pose proof (metadata_path_is_not_video_path video_id video_id) as Hne.
  assert (snd (delete_video video_id files) =
            files ∖ {[video_path video_id; metadata_path video_id]}) as Hsnd.
  { unfold delete_video.
    destruct (decide (video_path video_id ∈ files)) as [Hv | Hv].
    - destruct (decide (metadata_path video_id ∈ files ∖ {[video_path video_id]}))
        as [Hm | Hm]; cbn; apply leibniz_equiv; set_solver.
    - destruct (decide (metadata_path video_id ∈ files)) as [Hm | Hm]; cbn;
        apply leibniz_equiv; set_solver. }
  split; [exact Hsnd|]. split; [|split; [|split; [|split]]].
  - unfold delete_video.
    destruct (decide (video_path video_id ∈ files)) as [Hv | Hv].
    + destruct (decide (metadata_path video_id ∈ files ∖ {[video_path video_id]}));
        cbn; split; try done; by intros [? _].
    + destruct (decide (metadata_path video_id ∈ files)) as [Hm | Hm]; cbn;
        split; try done; by intros [_ ?].
  - intros deleted_files. unfold delete_video.
    destruct (decide (video_path video_id ∈ files)) as [Hv | Hv].
    + destruct (decide (metadata_path video_id ∈ files ∖ {[video_path video_id]}))
        as [Hm | Hm]; cbn; intros [= <-];
        destruct (decide (metadata_path video_id ∈ files)); try done; set_solver.
    + destruct (decide (metadata_path video_id ∈ files)) as [Hm | Hm]; cbn;
        by intros [= <-].
  - rewrite Hsnd. unfold delete_video.
    destruct (decide (video_path video_id ∈ _)) as [Hv | Hv]; [set_solver|].
    destruct (decide (metadata_path video_id ∈ _)) as [Hm | Hm]; [set_solver|].
    done.
  - rewrite Hsnd. unfold download_video.
    destruct (decide (video_path video_id ∈ _)) as [Hv | Hv]; [set_solver|]. done.
  - intros other Hother. rewrite Hsnd. unfold download_video.
    assert (video_path other <> video_path video_id) as H1
      by (by intros ?%video_path_inj).
    assert (video_path other <> metadata_path video_id) as H2
      by (intros H; by apply (metadata_path_is_not_video_path video_id other)).
    destruct (decide (video_path other ∈ files)) as [Hin | Hin];
      destruct (decide (video_path other ∈ _)) as [Hin' | Hin']; try done; set_solver.
Qed.

(** ** The command-line client *)







(** ** The pipeline run from the command line *)

Lemma sounds_loop_length video_urls i w sound_urls w' :
  sounds_loop video_urls i [] w = (Ok sound_urls, w') ->
  length sound_urls = length video_urls.
Proof.
  intros H. destruct (sounds_loop_run video_urls i [] w) as (sounds & w1 & Hrun & Hlen).
  rewrite H in Hrun. injection Hrun as -> ->. by eapply sounds_run_length.
Qed.

Lemma clips_length scenes i w video_urls w' :
  generate_video_clips scenes i w = (Ok video_urls, w') ->
  length video_urls = length scenes.
Proof.
  intros H. unfold generate_video_clips in H.
  destruct (clips_loop_run scenes 0 i [] w) as (k & _ & _ & _ & _ & Hres).
  rewrite H in Hres. by destruct Hres.
Qed.

(** X15.  The pipeline of the command line.  It talks to the three providers
    only: nothing is written to the job table, no video is downloaded and
    no file is written.  When it returns there are at most three scenes,
    one clip per scene and one entry of the sound list per clip, a sound
    that failed being [None]. *)
Theorem run_pipeline_only_calls_providers w :
  Forall (ev provider_call (fun _ _ => False)) (new_events w (snd (run_pipeline w))) /\
  forall r w',
    run_pipeline w = (Ok r, w') ->
    (length (pr_scenes r) <= 3)%nat /\
    length (pr_video_urls r) = length (pr_scenes r) /\
    length (pr_sound_urls r) = length (pr_video_urls r).
Proof.
  split.
  - apply emits_events. unfold run_pipeline.
    apply emits_logged.
    apply emits_bind; [apply emits_idea; done|intros i].
    apply emits_bind; [apply emits_scripting; done|intros scenes].
    apply emits_bind; [apply emits_video_clips; try done; intros p; by left|
                       intros video_urls].
    apply emits_bind; [|intros sound_urls].
    + destruct (truthy (PList video_urls)); [|apply emits_ret].
      apply emits_sounds_loop; try done. intros p. right. by left.
    + apply emits_bind; [|intros url; apply emits_ret].
      apply emits_merge; try done. right. by right.
  - intros r w'. unfold run_pipeline. rewrite logged_run. unfold bind.
    destruct (generate_creative_video_idea w) as [[i | e] w1]; [|done].
    destruct (generate_detailed_video_prompts i w1) as [[scenes | e] w2] eqn:H2; [|done].
    destruct (generate_video_clips scenes i w2) as [[video_urls | e] w3] eqn:H3; [|done].
    assert (exists sound_urls w4,
              (if truthy (PList video_urls) then sounds_loop video_urls i []
               else ret (replicate (length video_urls) PNone)) w3 = (Ok sound_urls, w4) /\
              length sound_urls = length video_urls) as (sound_urls & w4 & -> & Hlen).
    { destruct (truthy (PList video_urls)).
      - destruct (sounds_loop_run video_urls i [] w3) as (sounds & w4 & Hrun & Hs).
        exists sounds, w4. split; [done|]. by eapply sounds_run_length.
      - eexists _, _. split; [reflexivity|]. apply length_replicate. }
    destruct (merge_video_clips video_urls sound_urls w4) as [[url | e] w5]; [|done].
    unfold ret. intros [= <- <-]. cbn.
    split; [|split; [|done]].
    + apply (scripting_length i w1). by rewrite H2.
    + by eapply clips_length.
Qed.

Lemma run_pipeline_only_calls_providers_witness :
  exists r w',
    run_pipeline second_sound_fails = (Ok r, w') /\
    length (pr_sound_urls r) = length (pr_video_urls r).
Proof.
  assert (exists r w', run_pipeline second_sound_fails = (Ok r, w'))
    as (r & w' & E) by (vm_compute; eexists _, _; reflexivity).
  exists r, w'. split; [exact E|].
  exact (proj2 (proj2 (proj2 (run_pipeline_only_calls_providers second_sound_fails)
                         r w' E))).
Defined.

(** ** Requests of the sound stage *)

Lemma sound_payload_env w w' video_url i :
  env w' = env w -> sound_payload w' video_url i = sound_payload w video_url i.
Proof.
  intros H. apply (f_equal py_repr) in H. cbn in H.
  unfold sound_payload, py_str. by rewrite H.
Qed.

Lemma keeps_asmr_sound video_url i : keeps_env (generate_asmr_sound video_url i).
Proof. unfold generate_asmr_sound. keeps_auto; apply keeps_poll_fal. Qed.

Lemma asmr_sound_unfold video_url i w :
  generate_asmr_sound video_url i w =
    let ask := Post fal_audio_url (sound_payload w video_url i) in
    let w1 := set_state w (now w + Z.of_N (fst (oracle w (calls w) ask))) (S (calls w))
                (trace w ++ [ECall ask]) in
    match snd (oracle w (calls w) ask) with
    | Response response =>
        ((if negb (status_code response =? 200)
          then raise_for_status response else ret tt) ;;;
         result <- response_json response ;;
         request_id <- lift (py_item result "request_id") ;;
         _poll_fal_completion (py_str w request_id) "ASMR sound"
           "https://queue.fal.run/fal-ai/mmaudio-v2/requests/" 300) w1
    | _ => (Raise RequestException, w1)
    end.
Proof.
  unfold generate_asmr_sound. rewrite logged_run.
  unfold bind at 1. unfold get_world at 1. cbn beta iota.
  unfold bind at 1. unfold requests_post at 1.
  unfold bind at 1. unfold call at 1. cbv zeta.
  destruct (oracle w (calls w) (Post fal_audio_url (sound_payload w video_url i)))
    as [latency a].
  cbn [fst snd]. by destruct a.
Qed.

(** One sound: the submission, then queries and sleeps only; a submission
    that is refused is not followed by anything. *)
Lemma sound_request_events video_url i w :
  let ask := Post fal_audio_url (sound_payload w video_url i) in
  exists es,
    trace (snd (generate_asmr_sound video_url i w)) = (trace w ++ ECall ask :: es)%list /\
    Forall (ev is_query (fun _ _ => False)) es /\
    (refused (snd (oracle w (calls w) ask)) ->
     es = [] /\ fst (generate_asmr_sound video_url i w) = Raise RequestException).
Proof.
  cbv zeta.
  assert (forall w1 response,
    emits (ev is_query (fun _ _ => False))
      ((if negb (status_code response =? 200)
        then raise_for_status response else ret tt) ;;;
       result <- response_json response ;;
       request_id <- lift (py_item result "request_id") ;;
       _poll_fal_completion (py_str w1 request_id) "ASMR sound"
         "https://queue.fal.run/fal-ai/mmaudio-v2/requests/" 300)) as Hrest.
  { intros w1 response. emits_auto; try apply emits_poll_fal; simpl; auto. }
  rewrite asmr_sound_unfold. cbv zeta.
  destruct (oracle w (calls w) (Post fal_audio_url (sound_payload w video_url i)))
    as [latency a].
  cbn [fst snd].
  destruct a as [| response | content |];
    try (exists []; split; [reflexivity|]; split; [constructor|done]).
  destruct (decide (400 <= status_code response < 600)) as [Hcode | Hcode].
  - exists [].
    assert (forall w1,
              ((if negb (status_code response =? 200)
                then raise_for_status response else ret tt) ;;;
               result <- response_json response ;;
               request_id <- lift (py_item result "request_id") ;;
               _poll_fal_completion (py_str w request_id) "ASMR sound"
                 "https://queue.fal.run/fal-ai/mmaudio-v2/requests/" 300) w1 =
              (Raise RequestException, w1)) as ->.
    { intros w1. unfold bind, raise_for_status.
      assert ((status_code response =? 200) = false) as -> by lia.
      assert (((400 <=? status_code response) && (status_code response <? 600)) = true)
        as -> by lia.
      reflexivity. }
    split; [reflexivity|]. split; [constructor|done].
  - match goal with
    | |- context [trace (snd (_ ?w1))] => destruct (Hrest w response w1) as (es & Htr & Hes)
    end.
    exists es. split; [|split; [done|]].
    + etransitivity; [exact Htr|]. cbn [trace set_state]. by rewrite <- app_assoc.
    + intros Href. cbn in Href. lia.
Qed.

Lemma posted_queries url W es :
  Forall (ev is_query W) es -> posted url es = [].
Proof.
  induction 1 as [|e es He _ IH]; [done|].
  change (e :: es) with ([e] ++ es)%list. rewrite posted_app, IH, app_nil_r.
  by destruct e as [[] | |].
Qed.

(** X16.  The submission of a sound.  One request is posted to the sound
    endpoint, with the prompt of the idea and the URL of the clip; what
    follows are queries and sleeps.  When the request fails or is answered
    by an HTTP error, the stage raises at once and asks nothing more. *)
Theorem sound_submission video_url i w :
  let ask := Post fal_audio_url (sound_payload w video_url i) in
  let w' := snd (generate_asmr_sound video_url i w) in
  posted fal_audio_url (new_events w w') = [sound_payload w video_url i] /\
  (exists es, new_events w w' = ECall ask :: es /\
              Forall (ev is_query (fun _ _ => False)) es) /\
  (refused (snd (oracle w (calls w) ask)) ->
   new_events w w' = [ECall ask] /\
   fst (generate_asmr_sound video_url i w) = Raise RequestException).
Proof.
  cbv zeta. destruct (sound_request_events video_url i w) as (es & Htr & Hes & Href).
  cbv zeta in Htr, Href. rewrite (new_events_app _ _ _ Htr).
  split; [|split].
  - change (?x :: es)%list with ([x] ++ es)%list.
    rewrite posted_app, (posted_queries _ _ _ Hes). reflexivity.
  - by exists es.
  - intros H. destruct (Href H) as [-> ?]. done.
Qed.

Lemma sound_submission_witness :
  new_events offline (snd (generate_asmr_sound (PStr "https://clip") 
     {| caption := PNone; idea := PNone; environment := PNone; sound := PStr "crisp";
        status := PNone |} offline)) =
    [ECall (Post fal_audio_url
              (sound_payload offline (PStr "https://clip")
                 {| caption := PNone; idea := PNone; environment := PNone;
                    sound := PStr "crisp"; status := PNone |}))] /\
  fst (generate_asmr_sound (PStr "https://clip")
     {| caption := PNone; idea := PNone; environment := PNone; sound := PStr "crisp";
        status := PNone |} offline) = Raise RequestException.
Proof.
  apply (sound_submission (PStr "https://clip")
           {| caption := PNone; idea := PNone; environment := PNone;
              sound := PStr "crisp"; status := PNone |} offline).
  vm_compute. exact I.
Defined.

Lemma sounds_loop_cons video_url rest i sound_urls w :
  sounds_loop (video_url :: rest) i sound_urls w =
    match generate_asmr_sound video_url i w with
    | (Ok sound_url, w1) => sounds_loop rest i (sound_urls ++ [sound_url]) w1
    | (Raise e, w1) => sounds_loop rest i (sound_urls ++ [PNone]) w1
    end.
Proof.
  cbn [sounds_loop]. unfold bind at 1. unfold try_except, bind, ret, any_exception.
  by destruct (generate_asmr_sound video_url i w) as [[sound_url | e] w1].
Qed.

Lemma sounds_loop_posted video_urls : forall i sound_urls w,
  env (snd (sounds_loop video_urls i sound_urls w)) = env w /\
  trace (snd (sounds_loop video_urls i sound_urls w)) =
    (trace w ++ new_events w (snd (sounds_loop video_urls i sound_urls w)))%list /\
  posted fal_audio_url (new_events w (snd (sounds_loop video_urls i sound_urls w))) =
    map (fun video_url => sound_payload w video_url i) video_urls.
Proof.
  induction video_urls as [|video_url rest IH]; intros i sound_urls w.
  - cbn. unfold new_events. rewrite drop_all, app_nil_r. done.
  - rewrite sounds_loop_cons.
    destruct (sound_request_events video_url i w) as (es & Htr & Hes & _).
    pose proof (keeps_asmr_sound video_url i w) as Henv.
    cbv zeta in Htr.
    assert (forall acc w1,
              env w1 = env w ->
              trace w1 = (trace w ++ ECall (Post fal_audio_url
                            (sound_payload w video_url i)) :: es)%list ->
              env (snd (sounds_loop rest i acc w1)) = env w /\
              trace (snd (sounds_loop rest i acc w1)) =
                (trace w ++ new_events w (snd (sounds_loop rest i acc w1)))%list /\
              posted fal_audio_url (new_events w (snd (sounds_loop rest i acc w1))) =
                map (fun u => sound_payload w u i) (video_url :: rest)) as Hnext.
    { intros acc w1 Henv1 Htr1.
      destruct (IH i acc w1) as (Henv' & Htr' & Hposted).
      assert (new_events w (snd (sounds_loop rest i acc w1)) =
                (ECall (Post fal_audio_url (sound_payload w video_url i)) :: es ++
                 new_events w1 (snd (sounds_loop rest i acc w1)))%list) as Hnew.
      { apply new_events_app. rewrite Htr', Htr1, <- app_assoc. reflexivity. }
      split; [congruence|]. rewrite Hnew. split.
      - rewrite Htr', Htr1, <- app_assoc. reflexivity.
      - change (?x :: es ++ ?l)%list with ([x] ++ es ++ l)%list.
        rewrite !posted_app, (posted_queries _ _ _ Hes), Hposted. cbn. f_equal.
        apply map_ext. intros u. by apply sound_payload_env. }
    destruct (generate_asmr_sound video_url i w) as [[sound_url | e] w1];
      cbn [snd] in *; by apply Hnext.
Qed.

(** X17.  The sound loop asks for a sound for every clip, in the order of the
    clips and each with the URL of its clip, whether the sounds before it
    failed or not, and it always returns. *)
Theorem every_clip_gets_a_sound_request video_urls i w :
  posted fal_audio_url (new_events w (snd (sounds_loop video_urls i [] w))) =
    map (fun video_url => sound_payload w video_url i) video_urls /\
  exists sound_urls,
    fst (sounds_loop video_urls i [] w) = Ok sound_urls /\
    length sound_urls = length video_urls.
Proof.
  split; [apply sounds_loop_posted|].
  destruct (sounds_loop_run video_urls i [] w) as (sounds & w' & Hrun & Hs).
  exists sounds. rewrite Hrun. split; [done|]. by eapply sounds_run_length.
Qed.

(** ** The order of the steps *)

(** X18.  The steps of a job that completes come one after the other.  The
    events of the run fall into four parts in this order: the two calls to
    the chat model; then the requests and queries for the clips; then
    those for the sounds; then the composition request and its queries,
    the download, the saved video and the metadata.  No request of a step
    is made before the step before it has returned. *)
Theorem stages_run_in_order job_id custom_prompt include_sound w o w' :
  run_stages job_id custom_prompt include_sound w = (Ok o, w') ->
  exists es1 es2 es3 es4,
    new_events w w' = (es1 ++ es2 ++ es3 ++ es4)%list /\
    Forall (ev chat_call (step_write_of job_id)) es1 /\
    Forall (ev clip_call (step_write_of job_id)) es2 /\
    Forall (ev sound_call (step_write_of job_id)) es3 /\
    Forall (ev final_call (step_write_of job_id)) es4 /\
    length (omap (fun e => match e with ECall (Chat _ _) => Some e | _ => None end) es1)
      = 2%nat.
Proof.
  intros Hrun.
  destruct (run_stages_ok _ _ _ _ _ _ Hrun)
    as (i & scenes & w1 & video_urls & w2 & sound_urls & w3 & H1 & H2 & H3 & H4).
  destruct (run_stages_chain job_id custom_prompt include_sound w _ _ _ _ _ _ _ H1 H2 H3)
    as [_ Hev].
  rewrite H4 in Hev. cbn [snd] in Hev.
  assert (forall s, step_write_of job_id job_id (SetProgress (Text s))) as Hprog
    by (intros s; split; [done|]; right; by exists s).
  assert (emits (ev chat_call (step_write_of job_id)) (scripting_phase job_id)) as E1.
  { apply emits_scripting_phase; try done. split; [done|]. by left. }
  assert (emits (ev clip_call (step_write_of job_id)) (clip_phase job_id i scenes)) as E2
    by (apply emits_clip_phase; try done; by right).
  assert (emits (ev sound_call (step_write_of job_id))
            (sound_phase job_id include_sound i video_urls)) as E3
    by (apply emits_sound_phase; try done; by right).
  assert (emits (ev final_call (step_write_of job_id))
            (final_phase job_id include_sound i scenes video_urls sound_urls)) as E4
    by (by apply emits_final_phase).
  apply (emits_events _ _ w) in E1. apply (emits_events _ _ w1) in E2.
  apply (emits_events _ _ w2) in E3. apply (emits_events _ _ w3) in E4.
  rewrite H1 in E1. rewrite H2 in E2. rewrite H3 in E3. rewrite H4 in E4.
  cbn [snd] in E1, E2, E3, E4.
  exists (new_events w w1), (new_events w1 w2), (new_events w2 w3), (new_events w3 w').
  split_and!; try done.
  clear -H1. unfold scripting_phase in H1.
  unfold generate_creative_video_idea, generate_detailed_video_prompts in H1.
  unfold logged, chat_completion in H1.
  unfold try_except, bind, set_status, set_progress, emit, get_world, call, lift, ret,
    raise, any_exception in H1.
  cbn beta iota zeta in H1.
  repeat (case_match; simplify_eq/=; try done).
  all: unfold new_events; cbn [trace set_state]; rewrite <- ?app_assoc;
    rewrite drop_app_length; reflexivity.
Qed.

Lemma stages_run_in_order_witness :
  exists o w' es1 es2 es3 es4,
    run_stages "job_1" None true second_sound_fails = (Ok o, w') /\
    new_events second_sound_fails w' = (es1 ++ es2 ++ es3 ++ es4)%list /\
    Forall (ev chat_call (step_write_of "job_1")) es1 /\
    Forall (ev clip_call (step_write_of "job_1")) es2 /\
    Forall (ev sound_call (step_write_of "job_1")) es3 /\
    Forall (ev final_call (step_write_of "job_1")) es4.
Proof.
  assert (exists o w', run_stages "job_1" None true second_sound_fails = (Ok o, w'))
    as (o & w' & E) by (vm_compute; eexists _, _; reflexivity).
  destruct (stages_run_in_order "job_1" None true second_sound_fails o w' E)
    as (es1 & es2 & es3 & es4 & H0 & H1 & H2 & H3 & H4 & _).
  exists o, w', es1, es2, es3, es4. split_and!; assumption.
Defined.

(** ** The answer of the idea stage *)

Lemma substring_all s : substring 0 (String.length s) s = s.
Proof. induction s as [|c s IH]; [done|]. cbn. by rewrite IH. Qed.

Lemma substring_skip n m c s : substring (S n) m (String c s) = substring n m s.
Proof. by destruct m. Qed.

Lemma substring_prefix (a b : string) : substring 0 (String.length a) (a ++ b) = a.
Proof.
  induction a as [|c a IH]; [by destruct b|].
  change (String c (substring 0 (String.length a) (a ++ b)) = String c a).
  by rewrite IH.
Qed.

Lemma rev_app_app (a b acc : string) :
  String.rev_app (a ++ b) acc = String.rev_app b (String.rev_app a acc).
Proof.
  revert acc. induction a as [|c a IH]; intros acc; [done|].
  change (String.rev_app (a ++ b) (String c acc) =
          String.rev_app b (String.rev_app a (String c acc))).
  apply IH.
Qed.

Lemma prefix_app (p s : string) : String.prefix p (p ++ s) = true.
Proof.
  induction p as [|c p IH]; [by destruct s|].
  change (String.prefix (String c p) (String c (p ++ s)) = true).
  cbn. by destruct (ascii_dec c c).
Qed.

(** The fences around an answer are taken off. *)
Lemma unfenced_fenced content body :
  strip content = "```json" ++ body ++ "```" -> unfenced content = body.
Proof.
  intros H. unfold unfenced. rewrite H. cbv zeta.
  assert (startswith ("```json" ++ body ++ "```") "```json" = true) as ->
    by apply prefix_app.
  assert (drop_first 7 ("```json" ++ body ++ "```") = body ++ "```") as ->.
  { unfold drop_first.
    change ("```json" ++ body ++ "```")
      with (String "`" (String "`" (String "`" (String "j" (String "s" (String "o"
             (String "n" (body ++ "```")))))))).
    rewrite !substring_skip. cbn [String.length Nat.sub]. rewrite Nat.sub_0_r.
    apply substring_all. }
  assert (endswith (body ++ "```") "```" = true) as ->.
  { unfold endswith, String.rev. rewrite rev_app_app.
    apply (prefix_app "```" (String.rev_app body "")). }
  unfold drop_last. rewrite string_length_app.
  replace (String.length body + String.length "```" - 3)%nat with (String.length body)
    by (cbn; lia).
  apply substring_prefix.
Qed.

Lemma idea_run w :
  generate_creative_video_idea w =
    (match snd (oracle w (calls w) (Chat idea_system_prompt idea_user_prompt)) with
     | Completion content =>
         match json_loads w (unfenced content) with
         | Some parsed => idea_of parsed
         | None => Raise JSONDecodeError
         end
     | _ => Raise ChatError
     end,
     set_state w
       (now w + Z.of_N (fst (oracle w (calls w) (Chat idea_system_prompt idea_user_prompt))))
       (S (calls w))
       (trace w ++ [ECall (Chat idea_system_prompt idea_user_prompt)])).
Proof.
  unfold generate_creative_video_idea. rewrite logged_run.
  unfold chat_completion, bind, call, lift, ret, raise, get_world.
  destruct (oracle w (calls w) (Chat idea_system_prompt idea_user_prompt))
    as [latency a].
  cbn [fst snd]. destruct a; try reflexivity.
  cbn beta iota zeta. cbn [json_loads set_state]. fold (unfenced content).
  destruct (json_loads w (unfenced content)) as [parsed|]; [|reflexivity].
  unfold idea_of.
  destruct (py_item0 parsed) as [idea_data|]; [|reflexivity].
  repeat (match goal with
          | |- context [py_item idea_data ?k] => destruct (py_item idea_data k)
          end; try reflexivity).
Qed.

(** X19.  The idea stage makes one call, to the chat model, and parses the
    answer.  An answer in a fence of [```json] and [```] is parsed
    without the fence; the idea is made of the five fields of the first
    element of the parsed array, and a field that is missing fails the
    stage. *)
Theorem idea_stage_run w :
  let ask := Chat idea_system_prompt idea_user_prompt in
  snd (generate_creative_video_idea w) =
    set_state w (now w + Z.of_N (fst (oracle w (calls w) ask))) (S (calls w))
      (trace w ++ [ECall ask]) /\
  fst (generate_creative_video_idea w) =
    match snd (oracle w (calls w) ask) with
    | Completion content =>
        match json_loads w (unfenced content) with
        | Some parsed => idea_of parsed
        | None => Raise JSONDecodeError
        end
    | _ => Raise ChatError
    end /\
  (forall content body,
     strip content = "```json" ++ body ++ "```" -> unfenced content = body) /\
  (forall fields k,
     In k ["Caption"; "Idea"; "Environment"; "Sound"; "Status"] ->
     assoc k fields = None ->
     exists k', idea_of (PList [PDict fields]) = Raise (KeyError k')).
Proof.
  cbv zeta. rewrite idea_run. split; [done|]. split; [done|].
  split; [apply unfenced_fenced|].
  intros fields k Hk Hnone. unfold idea_of. cbn [py_item0 py_item].
  cbn in Hk. 
  repeat (match goal with
          | |- context [assoc ?key fields] =>
              destruct (assoc key fields) eqn:?; [|by eexists]
          end).
  destruct_or?; simplify_eq; congruence.
Qed.

(** ** The custom prompt *)

Lemma apply_write_request wr j :
  job_request (apply_write wr j) = job_request j /\
  job_created_at (apply_write wr j) = job_created_at j.
Proof. by destruct wr. Qed.

Lemma step_keeps_request s s' job_id j :
  invariant s -> step s s' -> job_data s job_id = Some j ->
  exists j', job_data s' job_id = Some j' /\
             job_request j' = job_request j /\ job_created_at j' = job_created_at j.
Proof.
  intros (Hfresh & Halias & _) Hstep Hj.
  destruct Hstep as [s timestamp created_at request w | s s' n Hn].
  - exists j. split; [|done].
    rewrite job_data_submit by done. destruct (decide _) as [-> | _]; [|done].
    apply job_data_active in Hj as [a Ha].
    by rewrite (make_job_id_fresh timestamp _ Hfresh) in Ha.
  - apply task_step_inv in Hn as (id & wr & rest & a & j0 & Hn & Ha & Hj0 & ->).
    rewrite (job_data_write s id wr a j0 _ job_id Halias Ha Hj0).
    destruct (decide _) as [-> | _]; [|by exists j].
    assert (j0 = j) as ->.
    { unfold job_data in Hj. rewrite Ha in Hj. congruence. }
    exists (apply_write wr j). split; [done|]. apply apply_write_request.
Qed.

Lemma steps_keep_request s s' job_id j :
  reachable s -> rtc step s s' -> job_data s job_id = Some j ->
  exists j', job_data s' job_id = Some j' /\
             job_request j' = job_request j /\ job_created_at j' = job_created_at j.
Proof.
  intros Hs Hsteps. revert j Hs.
  induction Hsteps as [s|s s1 s2 Hstep _ IH]; intros j Hs Hj.
  - by exists j.
  - destruct (step_keeps_request s s1 job_id j (reachable_invariant s Hs) Hstep Hj)
      as (j1 & Hj1 & Hr1 & Hc1).
    destruct (IH j1 (reachable_step s s1 Hs Hstep) Hj1) as (j2 & Hj2 & Hr2 & Hc2).
    exists j2. split; [done|]. split; congruence.
Qed.

(** X20.  The custom prompt of a request has no effect on the job.  The
    background task runs the same way, and writes the same things to the
    job table, whatever the prompt is.  The prompt is kept in the request
    of the job record, which no write of any task ever changes, as it
    changes no time of creation. *)
Theorem custom_prompt_is_ignored job_id custom_prompt custom_prompt' include_sound w :
  run_video_generation job_id custom_prompt include_sound w =
    run_video_generation job_id custom_prompt' include_sound w /\
  task_writes w job_id {| custom_prompt := custom_prompt; include_sound := include_sound |} =
    task_writes w job_id {| custom_prompt := custom_prompt';
                            include_sound := include_sound |} /\
  forall timestamp created_at s s',
    let request := {| custom_prompt := custom_prompt; include_sound := include_sound |} in
    reachable s ->
    rtc step (snd (generate_video timestamp created_at request w s)) s' ->
    exists j,
      job_data s' (fst (generate_video timestamp created_at request w s)) = Some j /\
      job_request j = request /\ job_created_at j = created_at.
Proof.
  split; [reflexivity|]. split; [reflexivity|].
  intros timestamp created_at s s' request Hs Hsteps.
  pose proof (reachable_invariant s Hs) as (_ & Halias & _).
  pose proof (reachable_step _ _ Hs (step_submit s timestamp created_at request w)) as Hs1.
  assert (job_data (snd (generate_video timestamp created_at request w s))
            (fst (generate_video timestamp created_at request w s)) =
            Some (new_job created_at request)) as Hj.
  { rewrite job_data_submit by done. cbn. by destruct (decide _). }
  destruct (steps_keep_request _ _ _ _ Hs1 Hsteps Hj) as (j & Hj' & Hr & Hc).
  by exists j.
Qed.

Lemma custom_prompt_is_ignored_witness :
  exists j,
    job_data one_job_running "job_20250101_120000_0" = Some j /\
    job_request j = default_request /\ job_created_at j = "2025-01-01T12:00:00".
Proof.
  apply (proj2 (proj2 (custom_prompt_is_ignored "job_1" None None true offline))
           "20250101_120000" "2025-01-01T12:00:00" initial one_job_running).
  - apply reachable_initial.
  - apply rtc_once. apply (step_write _ _ 0). vm_compute. reflexivity.
Defined.
